(** * McServerSession: the per-connection server session of mcrouter

    A shallow embedding of [mcrouter/lib/network/McServerSession.cpp].

    The session is a single-threaded object whose methods run to completion
    on one event loop.  Every method is embedded as a function from the
    session's fields to either the updated fields or a fault (a failed
    [assert]/[CHECK], a dereferenced null pointer, an empty [std::function]).

    Calls that leave the session are recorded, in program order, in the
    ghost field [events]; what the callee then does (it may re-enter the
    session) is a parameter, collected in the record [Env].  The environment
    [passive] is the one whose callees return without touching the session.

    [DestructorGuard dg(this)] only keeps the object alive until the
    outermost method returns; it has no counterpart here, [destroy()] being
    recorded in the field [destroyed]. *)

From Stdlib Require Import ZArith List Bool Lia.
From stdpp Require Import base decidable option list gmap strings.

Local Open Scope Z_scope.

(** ** Machine integers *)

(** [uint64_t] and [size_t] values are integers in [0, 2^64); arithmetic
    wraps around. *)
Definition wrap64 (z : Z) : Z := z mod 2 ^ 64.

(** [~x] on a [uint64_t]. *)
Definition not64 (z : Z) : Z := wrap64 (Z.lnot z).

(** ** Data of the collaborators *)

(** Modelled from the spec: [mc_protocol_t] is declared in the absent
    [mcrouter/lib/mc/protocol.h]; the session only distinguishes the ASCII
    protocol from the others. *)
Inductive mc_protocol_t :=
| mc_ascii_protocol
| mc_other_protocol (code : N).

(** Modelled from the spec: [mc_op_t] is declared in the absent
    [mcrouter/lib/mc/msg.h]; the constructors are the operations the session
    names, every other operation is [mc_op_other]. *)
Inductive mc_op_t :=
| mc_op_unknown
| mc_op_get
| mc_op_gets
| mc_op_lease_get
| mc_op_metaget
| mc_op_version
| mc_op_quit
| mc_op_shutdown
| mc_op_other (code : N).

(** Modelled from the spec: [mc_res_t] is declared in the absent
    [mcrouter/lib/mc/msg.h]. *)
Inductive mc_res_t :=
| mc_res_ok
| mc_res_bad_key
| mc_res_other (code : N).

#[global] Instance mc_protocol_eq_dec : EqDecision mc_protocol_t.
Proof. solve_decision. Defined.
#[global] Instance mc_op_eq_dec : EqDecision mc_op_t.
Proof. solve_decision. Defined.
#[global] Instance mc_res_eq_dec : EqDecision mc_res_t.
Proof. solve_decision. Defined.

(** Modelled from the spec: the [PauseReason] enumeration is declared in
    the absent [McServerSession.h]; [pause_mask] is a bitset with one bit
    per reason. *)
Inductive PauseReason := PAUSE_THROTTLED | PAUSE_WRITE.

(** [static_cast<uint64_t>(reason)]. *)
Definition reasonMask (r : PauseReason) : Z :=
  match r with
  | PAUSE_THROTTLED => Z.shiftl 1 0
  | PAUSE_WRITE => Z.shiftl 1 1
  end.

Inductive State := STREAMING | CLOSING | CLOSED.

#[global] Instance State_eq_dec : EqDecision State.
Proof. solve_decision. Defined.

Record iovec := { iov_base : Z; iov_len : Z }.

(** A serialized reply: [getIovsBegin()]/[getIovsCount()] and [noReply()]. *)
Record WriteBuffer := { wbIovs : list iovec; wbNoReply : bool }.

(** The multi-op aggregator, identified by the id it was created with. *)
Record MultiOpParent := { parentReqid : Z }.

Record McRequest := { reqKey : string }.

Record McReply := { replyResult : mc_res_t; replyValue : option string }.

(** The arguments a [McServerRequestContext] is constructed with, and the
    key snapshot attached to it afterwards.  The three-argument constructor
    leaves [noreply] and the parent at their defaults. *)
Record McServerRequestContext := {
  ctxOperation : mc_op_t;
  ctxReqid : Z;
  ctxNoreply : bool;
  ctxParent : option MultiOpParent;
  ctxAsciiKey : option string
}.

(** The transport as the session sees it: whether a read callback is
    installed, what [good()] answers, and whether [getEventBase()] is
    non-null. *)
Record Transport := { readCB : bool; good : bool; eventBase : bool }.

Record Options := {
  maxInFlight : Z;
  singleWrite : bool;
  defaultVersionHandler : bool;
  versionString : string
}.

Record Parser := { outOfOrder : bool; protocol : mc_protocol_t }.

Inductive MessageDirection := Received | Sent.

(** Calls leaving the session, and one ghost event ([EvQueueWrite]) that
    marks every entry into [queueWrite]. *)
Inductive Event :=
| EvSetReadCB (attached : bool)
| EvWritev (iovs : list iovec)
| EvTransportClose
| EvTransportReset
| EvRunInLoop
| EvFifo (dir : MessageDirection) (iovs : list iovec)
| EvQueueWrite (wb : option WriteBuffer)
| EvWriteBufPop (wb : WriteBuffer)
| EvOnWriteQuiescence
| EvOnCloseStart
| EvOnCloseFinish
| EvOnShutdown
| EvOnRequest (ctx : McServerRequestContext) (req : McRequest) (op : mc_op_t)
| EvOnTypedRequest (typeId : Z) (body : string) (ctx : McServerRequestContext)
| EvCtxNew (ctx : McServerRequestContext)
| EvCtxReply (ctx : McServerRequestContext) (r : McReply)
| EvMultiOpNew (m : MultiOpParent)
| EvRecordEnd (m : MultiOpParent) (reqid : Z)
| EvParserRead (len : Z)
| EvDestroy.

Inductive fault :=
| AssertFailed (what : string)
| CheckFailed (what : string)
| NullDeref (what : string)
| BadFunctionCall (what : string)
| RuntimeError (what : string)
| LoopBound.

(** ** The session *)

Record McServerSession := mkSession {
  options_ : Options;
  parser_ : Parser;
  debugFifo_ : bool;
  transport_ : option Transport;
  state_ : State;
  pauseState_ : Z;
  inFlight_ : Z;
  realRequestsInFlight_ : Z;
  headReqid_ : Z;
  tailReqid_ : Z;
  blockedReplies_ : gmap Z (option WriteBuffer);
  pendingWrites_ : list WriteBuffer;
  writeBatches_ : list Z;
  writeBufs_ : option (list WriteBuffer);
  writeScheduled_ : bool;
  currentMultiop_ : option MultiOpParent;
  destroyed : bool;
  events : list Event
}.

Definition set_transport_ (v : option Transport) (s : McServerSession) :=
  mkSession (options_ s) (parser_ s) (debugFifo_ s) v (state_ s)
    (pauseState_ s) (inFlight_ s) (realRequestsInFlight_ s) (headReqid_ s)
    (tailReqid_ s) (blockedReplies_ s) (pendingWrites_ s) (writeBatches_ s)
    (writeBufs_ s) (writeScheduled_ s) (currentMultiop_ s) (destroyed s)
    (events s).

Definition set_state_ (v : State) (s : McServerSession) :=
  mkSession (options_ s) (parser_ s) (debugFifo_ s) (transport_ s) v
    (pauseState_ s) (inFlight_ s) (realRequestsInFlight_ s) (headReqid_ s)
    (tailReqid_ s) (blockedReplies_ s) (pendingWrites_ s) (writeBatches_ s)
    (writeBufs_ s) (writeScheduled_ s) (currentMultiop_ s) (destroyed s)
    (events s).

Definition set_pauseState_ (v : Z) (s : McServerSession) :=
  mkSession (options_ s) (parser_ s) (debugFifo_ s) (transport_ s) (state_ s)
    v (inFlight_ s) (realRequestsInFlight_ s) (headReqid_ s)
    (tailReqid_ s) (blockedReplies_ s) (pendingWrites_ s) (writeBatches_ s)
    (writeBufs_ s) (writeScheduled_ s) (currentMultiop_ s) (destroyed s)
    (events s).

Definition set_inFlight_ (v : Z) (s : McServerSession) :=
  mkSession (options_ s) (parser_ s) (debugFifo_ s) (transport_ s) (state_ s)
    (pauseState_ s) v (realRequestsInFlight_ s) (headReqid_ s)
    (tailReqid_ s) (blockedReplies_ s) (pendingWrites_ s) (writeBatches_ s)
    (writeBufs_ s) (writeScheduled_ s) (currentMultiop_ s) (destroyed s)
    (events s).

Definition set_realRequestsInFlight_ (v : Z) (s : McServerSession) :=
  mkSession (options_ s) (parser_ s) (debugFifo_ s) (transport_ s) (state_ s)
    (pauseState_ s) (inFlight_ s) v (headReqid_ s)
    (tailReqid_ s) (blockedReplies_ s) (pendingWrites_ s) (writeBatches_ s)
    (writeBufs_ s) (writeScheduled_ s) (currentMultiop_ s) (destroyed s)
    (events s).

Definition set_headReqid_ (v : Z) (s : McServerSession) :=
  mkSession (options_ s) (parser_ s) (debugFifo_ s) (transport_ s) (state_ s)
    (pauseState_ s) (inFlight_ s) (realRequestsInFlight_ s) v
    (tailReqid_ s) (blockedReplies_ s) (pendingWrites_ s) (writeBatches_ s)
    (writeBufs_ s) (writeScheduled_ s) (currentMultiop_ s) (destroyed s)
    (events s).

Definition set_tailReqid_ (v : Z) (s : McServerSession) :=
  mkSession (options_ s) (parser_ s) (debugFifo_ s) (transport_ s) (state_ s)
    (pauseState_ s) (inFlight_ s) (realRequestsInFlight_ s) (headReqid_ s)
    v (blockedReplies_ s) (pendingWrites_ s) (writeBatches_ s)
    (writeBufs_ s) (writeScheduled_ s) (currentMultiop_ s) (destroyed s)
    (events s).

Definition set_blockedReplies_ (v : gmap Z (option WriteBuffer))
    (s : McServerSession) :=
  mkSession (options_ s) (parser_ s) (debugFifo_ s) (transport_ s) (state_ s)
    (pauseState_ s) (inFlight_ s) (realRequestsInFlight_ s) (headReqid_ s)
    (tailReqid_ s) v (pendingWrites_ s) (writeBatches_ s)
    (writeBufs_ s) (writeScheduled_ s) (currentMultiop_ s) (destroyed s)
    (events s).

Definition set_pendingWrites_ (v : list WriteBuffer) (s : McServerSession) :=
  mkSession (options_ s) (parser_ s) (debugFifo_ s) (transport_ s) (state_ s)
    (pauseState_ s) (inFlight_ s) (realRequestsInFlight_ s) (headReqid_ s)
    (tailReqid_ s) (blockedReplies_ s) v (writeBatches_ s)
    (writeBufs_ s) (writeScheduled_ s) (currentMultiop_ s) (destroyed s)
    (events s).

Definition set_writeBatches_ (v : list Z) (s : McServerSession) :=
  mkSession (options_ s) (parser_ s) (debugFifo_ s) (transport_ s) (state_ s)
    (pauseState_ s) (inFlight_ s) (realRequestsInFlight_ s) (headReqid_ s)
    (tailReqid_ s) (blockedReplies_ s) (pendingWrites_ s) v
    (writeBufs_ s) (writeScheduled_ s) (currentMultiop_ s) (destroyed s)
    (events s).

Definition set_writeBufs_ (v : option (list WriteBuffer))
    (s : McServerSession) :=
  mkSession (options_ s) (parser_ s) (debugFifo_ s) (transport_ s) (state_ s)
    (pauseState_ s) (inFlight_ s) (realRequestsInFlight_ s) (headReqid_ s)
    (tailReqid_ s) (blockedReplies_ s) (pendingWrites_ s) (writeBatches_ s)
    v (writeScheduled_ s) (currentMultiop_ s) (destroyed s)
    (events s).

Definition set_writeScheduled_ (v : bool) (s : McServerSession) :=
  mkSession (options_ s) (parser_ s) (debugFifo_ s) (transport_ s) (state_ s)
    (pauseState_ s) (inFlight_ s) (realRequestsInFlight_ s) (headReqid_ s)
    (tailReqid_ s) (blockedReplies_ s) (pendingWrites_ s) (writeBatches_ s)
    (writeBufs_ s) v (currentMultiop_ s) (destroyed s)
    (events s).

Definition set_currentMultiop_ (v : option MultiOpParent)
    (s : McServerSession) :=
  mkSession (options_ s) (parser_ s) (debugFifo_ s) (transport_ s) (state_ s)
    (pauseState_ s) (inFlight_ s) (realRequestsInFlight_ s) (headReqid_ s)
    (tailReqid_ s) (blockedReplies_ s) (pendingWrites_ s) (writeBatches_ s)
    (writeBufs_ s) (writeScheduled_ s) v (destroyed s)
    (events s).

Definition set_destroyed (v : bool) (s : McServerSession) :=
  mkSession (options_ s) (parser_ s) (debugFifo_ s) (transport_ s) (state_ s)
    (pauseState_ s) (inFlight_ s) (realRequestsInFlight_ s) (headReqid_ s)
    (tailReqid_ s) (blockedReplies_ s) (pendingWrites_ s) (writeBatches_ s)
    (writeBufs_ s) (writeScheduled_ s) (currentMultiop_ s) v
    (events s).

(** Record a call leaving the session. *)
Definition emit (e : Event) (s : McServerSession) :=
  mkSession (options_ s) (parser_ s) (debugFifo_ s) (transport_ s) (state_ s)
    (pauseState_ s) (inFlight_ s) (realRequestsInFlight_ s) (headReqid_ s)
    (tailReqid_ s) (blockedReplies_ s) (pendingWrites_ s) (writeBatches_ s)
    (writeBufs_ s) (writeScheduled_ s) (currentMultiop_ s) (destroyed s)
    (events s ++ [e]).

(** ** Results and sequencing *)

Inductive result (A : Type) :=
| Ok (a : A)
| Fault (f : fault).
Arguments Ok {A} a.
Arguments Fault {A} f.

Definition outcome := result McServerSession.

(** A method body: from the fields on entry to the fields on return. *)
Definition step := McServerSession -> outcome.

Definition bind {A B : Type} (r : result A) (k : A -> result B) : result B :=
  match r with
  | Ok a => k a
  | Fault f => Fault f
  end.

(** Run [f], then [g] on the fields [f] returned. *)
Definition andThen (f g : step) : step := fun s => bind (f s) g.

Notation "f >=> g" := (andThen f g) (at level 60, right associativity).

Definition skip : step := fun s => Ok s.

Definition modify (f : McServerSession -> McServerSession) : step :=
  fun s => Ok (f s).

(** [assert(b)] *)
Definition assert (what : string) (b : McServerSession -> bool) : step :=
  fun s => if b s then Ok s else Fault (AssertFailed what).

(** ** The environment *)

(** What the session's collaborators do when called: the lifecycle
    callbacks ([std::function], possibly empty), the request handler, the
    request context and the multi-op parent (whose sources are absent), the
    write-buffer queue's [pop], the parser, and the transport's [writev]
    (which may complete synchronously). *)
Record Env := {
  onWriteQuiescence_ : option step;
  onCloseStart_ : option step;
  onCloseFinish_ : option step;
  onShutdown_ : option step;
  onRequest_requestReady : McServerRequestContext -> McRequest -> mc_op_t -> step;
  onRequest_typedRequestReady : Z -> string -> McServerRequestContext -> step;
  ctx_construct : McServerRequestContext -> step;
  ctx_reply : McServerRequestContext -> McReply -> step;
  multiop_construct : MultiOpParent -> step;
  multiop_recordEnd : MultiOpParent -> Z -> step;
  writeBufs_pop : WriteBuffer -> step;
  writeBufs_valid : mc_protocol_t -> bool;
  parser_readDataAvailable : Z -> McServerSession -> result (bool * McServerSession);
  transport_writev : list iovec -> step
}.

(** Collaborators that return without touching the session; every
    lifecycle callback is installed. *)
Definition passive : Env := {|
  onWriteQuiescence_ := Some skip;
  onCloseStart_ := Some skip;
  onCloseFinish_ := Some skip;
  onShutdown_ := Some skip;
  onRequest_requestReady := fun _ _ _ => skip;
  onRequest_typedRequestReady := fun _ _ _ => skip;
  ctx_construct := fun _ => skip;
  ctx_reply := fun _ _ => skip;
  multiop_construct := fun _ => skip;
  multiop_recordEnd := fun _ _ => skip;
  writeBufs_pop := fun _ => skip;
  writeBufs_valid := fun _ => true;
  parser_readDataAvailable := fun _ s => Ok (true, s);
  transport_writev := fun _ => skip
|}.

(** ** The methods of the session *)

(** [isPartOfMultiget]: true if this incoming request is a part of a
    multiget request. *)
Definition isPartOfMultiget (protocol : mc_protocol_t) (operation : mc_op_t)
    : bool :=
  if negb (bool_decide (protocol = mc_ascii_protocol)) then false
  else if bool_decide (operation = mc_op_get)
          || bool_decide (operation = mc_op_gets)
          || bool_decide (operation = mc_op_lease_get)
          || bool_decide (operation = mc_op_metaget) then true
  else false.

(** [transport_->setReadCB(cb)]; [transport_] must not be null. *)
Definition setReadCB (attached : bool) : step := fun s =>
  match transport_ s with
  | None => Fault (NullDeref "transport_")
  | Some t =>
      Ok (emit (EvSetReadCB attached)
            (set_transport_
               (Some {| readCB := attached; good := good t;
                        eventBase := eventBase t |}) s))
  end.

(** [debugFifo_->writeIfConnected(...)], when a debug fifo is attached. *)
Definition fifoWrite (dir : MessageDirection) (iovs : list iovec) : step :=
  fun s => if debugFifo_ s then Ok (emit (EvFifo dir iovs) s) else Ok s.

(** [destroy()]: request destruction; it happens once the last
    destructor guard is released. *)
Definition destroy : step :=
  modify (fun s => set_destroyed true (emit EvDestroy s)).

Definition pause (reason : PauseReason) : step :=
  modify (fun s =>
    set_pauseState_ (Z.lor (pauseState_ s) (reasonMask reason)) s)
  >=> setReadCB false.

Definition resume (reason : PauseReason) : step :=
  modify (fun s =>
    set_pauseState_ (Z.land (pauseState_ s) (not64 (reasonMask reason))) s)
  >=> fun s =>
    (* Client can half close the socket and in those cases there is
       no point in enabling reads *)
    if (pauseState_ s =? 0) && bool_decide (state_ s = STREAMING) then
      match transport_ s with
      | None => Fault (NullDeref "transport_")
      | Some t => if good t then setReadCB true s else Ok s
      end
    else Ok s.

Definition onTransactionStarted (isSubRequest : bool) : step :=
  modify (fun s => set_inFlight_ (wrap64 (inFlight_ s + 1)) s)
  >=> (if negb isSubRequest then
         modify (fun s =>
           set_realRequestsInFlight_
             (wrap64 (realRequestsInFlight_ s + 1)) s)
       else skip)
  >=> fun s =>
    if (0 <? maxInFlight (options_ s))
       && (maxInFlight (options_ s) <=? realRequestsInFlight_ s)
    then pause PAUSE_THROTTLED s
    else Ok s.

Section Methods.

Variable env : Env.

(** Call a [std::function] after testing that it is not empty. *)
Definition callIfSet (e : Event) (cb : option step) : step :=
  match cb with
  | Some f => modify (emit e) >=> f
  | None => skip
  end.

(** Call a collaborator. *)
Definition call (e : Event) (f : step) : step := modify (emit e) >=> f.

Definition checkClosed : step := fun s =>
  if inFlight_ s =? 0 then
    (assert "pendingWrites_.empty()"
       (fun s => bool_decide (pendingWrites_ s = []))
     >=> fun s =>
       if bool_decide (state_ s = CLOSING) then
         (* It's possible to call close() more than once from the same
            stack.  Prevent second close() from doing anything *)
         (modify (set_state_ CLOSED)
          >=> (fun s =>
                 match transport_ s with
                 | Some _ =>
                     (* prevent readEOF() from being called *)
                     (setReadCB false
                      >=> modify (fun s =>
                            emit EvTransportReset (set_transport_ None s))) s
                 | None => Ok s
                 end)
          >=> callIfSet EvOnCloseFinish (onCloseFinish_ env)
          >=> destroy) s
       else Ok s) s
  else Ok s.

Definition onTransactionCompleted (isSubRequest : bool) : step :=
  assert "inFlight_ > 0" (fun s => 0 <? inFlight_ s)
  >=> modify (fun s => set_inFlight_ (wrap64 (inFlight_ s - 1)) s)
  >=> (if negb isSubRequest then
         assert "realRequestsInFlight_ > 0"
           (fun s => 0 <? realRequestsInFlight_ s)
         >=> modify (fun s =>
               set_realRequestsInFlight_
                 (wrap64 (realRequestsInFlight_ s - 1)) s)
       else skip)
  >=> (fun s =>
         if (0 <? maxInFlight (options_ s))
            && (realRequestsInFlight_ s <? maxInFlight (options_ s))
         then resume PAUSE_THROTTLED s
         else Ok s)
  >=> checkClosed.

Definition queueWrite (wb : option WriteBuffer) : step :=
  modify (emit (EvQueueWrite wb))
  >=> fun s =>
    match wb with
    | None => Ok s
    | Some b =>
        if singleWrite (options_ s) then
          match writeBufs_ s with
          | None => Fault (NullDeref "writeBufs_")
          | Some q =>
              (modify (set_writeBufs_ (Some (q ++ [b])))
               >=> (fun s =>
                      match transport_ s with
                      | None => Fault (NullDeref "transport_")
                      | Some _ =>
                          call (EvWritev (wbIovs b))
                            (transport_writev env (wbIovs b)) s
                      end)
               >=> fifoWrite Sent (wbIovs b)
               >=> fun s =>
                 match writeBufs_ s with
                 | None => Fault (NullDeref "writeBufs_")
                 | Some [] => Ok s
                 | Some (_ :: _) =>
                     (* We only need to pause if the sendmsg() call didn't
                        write everything in one go *)
                     pause PAUSE_WRITE s
                 end) s
          end
        else
          (modify (fun s => set_pendingWrites_ (pendingWrites_ s ++ [b]) s)
           >=> fun s =>
             if negb (writeScheduled_ s) then
               match transport_ s with
               | None => Fault (NullDeref "transport_")
               | Some t =>
                   if eventBase t then
                     Ok (set_writeScheduled_ true (emit EvRunInLoop s))
                   else Fault (CheckFailed "eventBase != nullptr")
               end
             else Ok s) s
    end.

(** The loop of [reply]: [it = blockedReplies_.find(++headReqid_)], and
    while an entry is found, write it, erase it and look again.  Every
    round erases one entry, so [size blockedReplies_] rounds are enough;
    [fuel] bounds the rounds. *)
Fixpoint replyLoop (fuel : nat) (s : McServerSession) : outcome :=
  let s := set_headReqid_ (wrap64 (headReqid_ s + 1)) s in
  match blockedReplies_ s !! headReqid_ s with
  | None => Ok s
  | Some wb =>
      match fuel with
      | O => Fault LoopBound
      | S fuel' =>
          bind (queueWrite wb s) (fun s =>
            replyLoop fuel'
              (set_blockedReplies_
                 (delete (headReqid_ s) (blockedReplies_ s)) s))
      end
  end.

(** [std::unordered_map::emplace]: no effect when the key is present. *)
Definition emplace (k : Z) (v : option WriteBuffer)
    (m : gmap Z (option WriteBuffer)) : gmap Z (option WriteBuffer) :=
  match m !! k with
  | Some _ => m
  | None => <[k := v]> m
  end.

Definition reply (wb : option WriteBuffer) (reqid : Z) : step := fun s =>
  if outOfOrder (parser_ s) then queueWrite wb s
  else if reqid =? headReqid_ s then
    (* head of line reply, write it and all contiguous blocked replies *)
    (queueWrite wb
     >=> fun s => replyLoop (size (blockedReplies_ s)) s) s
  else
    (* can't write this reply now, save for later *)
    Ok (set_blockedReplies_ (emplace reqid wb (blockedReplies_ s)) s).

Definition processMultiOpEnd : step := fun s =>
  match currentMultiop_ s with
  | None => Fault (NullDeref "currentMultiop_")
  | Some m =>
      let reqid := tailReqid_ s in
      (modify (set_tailReqid_ (wrap64 (reqid + 1)))
       >=> call (EvRecordEnd m reqid) (multiop_recordEnd env m reqid)
       >=> modify (set_currentMultiop_ None)) s
  end.

Definition close : step :=
  (fun s =>
     match currentMultiop_ s with
     | Some _ =>
         (* If we got closed in the middle of a multiop request,
            process it as if we saw mc_op_end *)
         processMultiOpEnd s
     | None => Ok s
     end)
  >=> (fun s =>
         if bool_decide (state_ s = STREAMING) then
           (modify (set_state_ CLOSING)
            >=> callIfSet EvOnCloseStart (onCloseStart_ env)) s
         else Ok s)
  >=> checkClosed.

Definition readEOF : step := close.

Definition readErr : step := close.

Definition readDataAvailable (len : Z) : step :=
  fifoWrite Received []
  >=> modify (emit (EvParserRead len))
  >=> fun s =>
    bind (parser_readDataAvailable env len s) (fun '(ok, s) =>
      if negb ok then close s else Ok s).

Definition multiOpEnd : step := fun s =>
  if negb (bool_decide (state_ s = STREAMING)) then Ok s
  else processMultiOpEnd s.

Definition mkReply (res : mc_res_t) : McReply :=
  {| replyResult := res; replyValue := None |}.

Definition mkReplyWith (res : mc_res_t) (v : string) : McReply :=
  {| replyResult := res; replyValue := Some v |}.

(** [McServerRequestContext::reply(std::move(ctx), reply)] *)
Definition ctxReply (ctx : McServerRequestContext) (r : McReply) : step :=
  call (EvCtxReply ctx r) (ctx_reply env ctx r).

(** The tail of [requestReady]: what is done with the constructed
    context. *)
Definition dispatch (ctx : McServerRequestContext) (req : McRequest)
    (result : mc_res_t) : step := fun s =>
  if bool_decide (result = mc_res_bad_key) then
    ctxReply ctx (mkReply mc_res_bad_key) s
  else if bool_decide (ctxOperation ctx = mc_op_version)
          && defaultVersionHandler (options_ s) then
    (* Handle version command only if the user doesn't want to handle it
       themselves. *)
    ctxReply ctx (mkReplyWith mc_res_ok (versionString (options_ s))) s
  else if bool_decide (ctxOperation ctx = mc_op_quit) then
    (* mc_op_quit transaction will have `noreply` set, so this call
       is solely to make sure the transaction is completed and cleaned up *)
    (ctxReply ctx (mkReply mc_res_ok) >=> close) s
  else if bool_decide (ctxOperation ctx = mc_op_shutdown) then
    (ctxReply ctx (mkReply mc_res_ok)
     >=> match onShutdown_ env with
         | Some f => call EvOnShutdown f
         | None => fun _ => Fault (BadFunctionCall "onShutdown_")
         end) s
  else
    call (EvOnRequest ctx req (ctxOperation ctx))
      (onRequest_requestReady env ctx req (ctxOperation ctx)) s.

(** The context [requestReady] constructs, once the key snapshot is
    attached. *)
Definition withAsciiKey (p : mc_protocol_t) (req : McRequest)
    (ctx : McServerRequestContext) : McServerRequestContext :=
  if bool_decide (p = mc_ascii_protocol) then
    {| ctxOperation := ctxOperation ctx; ctxReqid := ctxReqid ctx;
       ctxNoreply := ctxNoreply ctx; ctxParent := ctxParent ctx;
       ctxAsciiKey := Some (reqKey req) |}
  else ctx.

Definition requestReady (req : McRequest) (operation : mc_op_t) (reqid : Z)
    (result : mc_res_t) (noreply : bool) : step := fun s =>
  if negb (bool_decide (state_ s = STREAMING)) then Ok s
  else
    bind
      (if negb (outOfOrder (parser_ s)) then
         bind
           (if isPartOfMultiget (protocol (parser_ s)) operation
               && bool_decide (currentMultiop_ s = None) then
              let m := {| parentReqid := tailReqid_ s |} in
              (modify (fun s => set_tailReqid_ (wrap64 (tailReqid_ s + 1)) s)
               >=> call (EvMultiOpNew m) (multiop_construct env m)
               >=> modify (set_currentMultiop_ (Some m))) s
            else Ok s)
           (fun s =>
              Ok (tailReqid_ s,
                  set_tailReqid_ (wrap64 (tailReqid_ s + 1)) s))
       else Ok (reqid, s))
      (fun '(reqid, s) =>
         let ctx := {| ctxOperation := operation; ctxReqid := reqid;
                       ctxNoreply := noreply;
                       ctxParent := currentMultiop_ s;
                       ctxAsciiKey := None |} in
         (call (EvCtxNew ctx) (ctx_construct env ctx)
          >=> fun s =>
            dispatch (withAsciiKey (protocol (parser_ s)) req ctx)
              req result s) s).

(** The context made by the three-argument constructor. *)
Definition mkCtx (operation : mc_op_t) (reqid : Z) : McServerRequestContext :=
  {| ctxOperation := operation; ctxReqid := reqid; ctxNoreply := false;
     ctxParent := None; ctxAsciiKey := None |}.

Definition typedRequestReady (typeId : Z) (reqBody : string) (reqid : Z)
    : step := fun s =>
  if negb (bool_decide (state_ s = STREAMING)) then Ok s
  else
    (assert "parser_.outOfOrder()" (fun s => outOfOrder (parser_ s))
     >=> call (EvCtxNew (mkCtx mc_op_unknown reqid))
           (ctx_construct env (mkCtx mc_op_unknown reqid))
     >=> call (EvOnTypedRequest typeId reqBody (mkCtx mc_op_unknown reqid))
           (onRequest_typedRequestReady env typeId reqBody
              (mkCtx mc_op_unknown reqid))) s.

Definition parseError (result : mc_res_t) (reason : string) : step := fun s =>
  if negb (bool_decide (state_ s = STREAMING)) then Ok s
  else
    let ctx := mkCtx mc_op_unknown (tailReqid_ s) in
    (modify (fun s => set_tailReqid_ (wrap64 (tailReqid_ s + 1)) s)
     >=> call (EvCtxNew ctx) (ctx_construct env ctx)
     >=> ctxReply ctx (mkReplyWith result reason)
     >=> close) s.

Definition ensureWriteBufs (s : McServerSession)
    : result (bool * McServerSession) :=
  match writeBufs_ s with
  | None =>
      if writeBufs_valid env (protocol (parser_ s)) then
        Ok (true, set_writeBufs_ (Some []) s)
      else
        match transport_ s with
        | None => Fault (NullDeref "transport_")
        | Some t =>
            Ok (false,
                emit EvTransportClose
                  (set_transport_
                     (Some {| readCB := readCB t; good := false;
                              eventBase := eventBase t |}) s))
        end
  | Some _ => Ok (true, s)
  end.

(** The loop of [sendWrites] over the pending buffers [pw]. *)
Fixpoint sendWritesLoop (pw : list WriteBuffer) (iovs : list iovec)
    (count : Z) (s : McServerSession)
    : result (list iovec * Z * McServerSession) :=
  match pw with
  | [] => Ok (iovs, count, s)
  | wb :: rest =>
      let s := set_pendingWrites_ rest s in
      let count := wrap64 (count + 1) in
      let iovs := if negb (wbNoReply wb) then iovs ++ wbIovs wb else iovs in
      match writeBufs_ s with
      | None => Fault (NullDeref "writeBufs_")
      | Some q =>
          sendWritesLoop rest iovs count (set_writeBufs_ (Some (q ++ [wb])) s)
      end
  end.

Definition sendWrites : step := fun s =>
  let s := set_writeScheduled_ false s in
  bind (sendWritesLoop (pendingWrites_ s) [] 0 s) (fun '(iovs, count, s) =>
    (modify (fun s => set_writeBatches_ (writeBatches_ s ++ [count]) s)
     >=> fifoWrite Sent iovs
     >=> fun s =>
       match transport_ s with
       | None => Fault (NullDeref "transport_")
       | Some _ => call (EvWritev iovs) (transport_writev env iovs) s
       end) s).

(** The loop of [completeWrite]: [while (count-- > 0)]. *)
Fixpoint completeWriteLoop (count : nat) (s : McServerSession) : outcome :=
  match count with
  | O => Ok s
  | S count' =>
      match writeBufs_ s with
      | None => Fault (NullDeref "writeBufs_")
      | Some [] => Fault (AssertFailed "!writeBufs_->empty()")
      | Some (wb :: q) =>
          bind (call (EvWriteBufPop wb) (writeBufs_pop env wb)
                  (set_writeBufs_ (Some q) s))
               (completeWriteLoop count')
      end
  end.

Definition completeWrite : step := fun s =>
  bind
    (if singleWrite (options_ s) then Ok (1, s)
     else
       match writeBatches_ s with
       | [] => Fault (AssertFailed "!writeBatches_.empty()")
       | count :: rest => Ok (count, set_writeBatches_ rest s)
       end)
    (fun '(count, s) => completeWriteLoop (Z.to_nat count) s).

Definition writeSuccess : step :=
  completeWrite
  >=> assert "writeBufs_ != nullptr"
        (fun s => match writeBufs_ s with Some _ => true | None => false end)
  >=> fun s =>
    if match writeBufs_ s with Some [] => true | _ => false end
       && bool_decide (state_ s = STREAMING) then
      (callIfSet EvOnWriteQuiescence (onWriteQuiescence_ env)
       (* No-op if not paused *)
       >=> resume PAUSE_WRITE) s
    else Ok s.

Definition writeErr : step := completeWrite >=> close.

End Methods.

(** ** Creation and traces *)

(** Modelled from the spec: the in-class initialisers of the fields are in
    the absent [McServerSession.h]; a new session is streaming, nothing is
    paused, in flight, blocked or queued, and request ids start at 0. *)
Definition newSession (opts : Options) (p : Parser) (fifo : bool)
    (t : Transport) : McServerSession :=
  {| options_ := opts; parser_ := p; debugFifo_ := fifo;
     transport_ := Some t; state_ := STREAMING; pauseState_ := 0;
     inFlight_ := 0; realRequestsInFlight_ := 0; headReqid_ := 0;
     tailReqid_ := 0; blockedReplies_ := ∅; pendingWrites_ := [];
     writeBatches_ := []; writeBufs_ := None; writeScheduled_ := false;
     currentMultiop_ := None; destroyed := false; events := [] |}.

(** [McServerSession::create]: construct, then enroll as the transport's
    read callback. *)
Definition create (opts : Options) (p : Parser) (fifo : bool)
    (t : Transport) : outcome :=
  (assert "ptr->state_ == STREAMING"
     (fun s => bool_decide (state_ s = STREAMING))
   >=> setReadCB true
   >=> fun s =>
     if negb (bool_decide (state_ s = STREAMING)) then
       Fault (RuntimeError
                "Failed to create McServerSession: setReadCB failed")
     else Ok s)
    (newSession opts p fifo t).

(** The entry points of the session. *)
Inductive Call :=
| CallPause (reason : PauseReason)
| CallResume (reason : PauseReason)
| CallOnTransactionStarted (isSubRequest : bool)
| CallOnTransactionCompleted (isSubRequest : bool)
| CallReply (wb : option WriteBuffer) (reqid : Z)
| CallClose
| CallReadDataAvailable (len : Z)
| CallReadEOF
| CallReadErr
| CallMultiOpEnd
| CallRequestReady (req : McRequest) (operation : mc_op_t) (reqid : Z)
    (result : mc_res_t) (noreply : bool)
| CallTypedRequestReady (typeId : Z) (reqBody : string) (reqid : Z)
| CallParseError (result : mc_res_t) (reason : string)
| CallEnsureWriteBufs
| CallSendWrites
| CallWriteSuccess
| CallWriteErr.

Definition exec (env : Env) (c : Call) : step :=
  match c with
  | CallPause r => pause r
  | CallResume r => resume r
  | CallOnTransactionStarted b => onTransactionStarted b
  | CallOnTransactionCompleted b => onTransactionCompleted env b
  | CallReply wb reqid => reply env wb reqid
  | CallClose => close env
  | CallReadDataAvailable len => readDataAvailable env len
  | CallReadEOF => readEOF env
  | CallReadErr => readErr env
  | CallMultiOpEnd => multiOpEnd env
  | CallRequestReady req op reqid res noreply =>
      requestReady env req op reqid res noreply
  | CallTypedRequestReady typeId body reqid =>
      typedRequestReady env typeId body reqid
  | CallParseError res reason => parseError env res reason
  | CallEnsureWriteBufs => fun s => bind (ensureWriteBufs env s) (fun r => Ok r.2)
  | CallSendWrites => sendWrites env
  | CallWriteSuccess => writeSuccess env
  | CallWriteErr => writeErr env
  end.

(** Run a sequence of calls, one after the other. *)
Fixpoint run (env : Env) (cs : list Call) : step :=
  match cs with
  | [] => skip
  | c :: cs => exec env c >=> run env cs
  end.

(** The states a session created by [create] can be in after any sequence
    of calls. *)
Definition reachable (env : Env) (s : McServerSession) : Prop :=
  exists opts p fifo t s0 cs,
    create opts p fifo t = Ok s0 /\ run env cs s0 = Ok s.

(** ** Sample sessions *)

Definition sampleTransport : Transport :=
  {| readCB := false; good := true; eventBase := true |}.

Definition asciiParser : Parser :=
  {| outOfOrder := false; protocol := mc_ascii_protocol |}.

Definition typedParser : Parser :=
  {| outOfOrder := true; protocol := mc_other_protocol 3 |}.

(** Batched writes, at most [maxInFlight] real requests in flight. *)
Definition batchedOptions (maxInFlight : Z) : Options :=
  {| maxInFlight := maxInFlight; singleWrite := false;
     defaultVersionHandler := true; versionString := "1.0" |}.

(** A session just created over an ASCII parser, with its write-buffer
    queue allocated. *)
Definition sampleSession (maxInFlight : Z) : McServerSession :=
  set_writeBufs_ (Some [])
    (emit (EvSetReadCB true)
       (set_transport_
          (Some {| readCB := true; good := true; eventBase := true |})
          (newSession (batchedOptions maxInFlight) asciiParser false
             sampleTransport))).

(** ** Vocabulary of the properties *)

(** Position of a state on the path [STREAMING], [CLOSING], [CLOSED]. *)
Definition rank (st : State) : nat :=
  match st with
  | STREAMING => 0
  | CLOSING => 1
  | CLOSED => 2
  end.

(** Calls of the request handler. *)
Definition isHandlerEvent (e : Event) : bool :=
  match e with
  | EvOnRequest _ _ _ | EvOnTypedRequest _ _ _ => true
  | _ => false
  end.

Definition isCloseStart (e : Event) : bool :=
  match e with EvOnCloseStart => true | _ => false end.

Definition isCloseFinish (e : Event) : bool :=
  match e with EvOnCloseFinish => true | _ => false end.

Definition isCtxReply (e : Event) : bool :=
  match e with EvCtxReply _ _ => true | _ => false end.

(** Events of the write path, up to the transport. *)
Definition isWriteEvent (e : Event) : bool :=
  match e with
  | EvQueueWrite _ | EvWritev _ | EvFifo _ _ | EvSetReadCB _ | EvRunInLoop
  | EvWriteBufPop _ => true
  | _ => false
  end.

(** How often the events selected by [p] occur in the trace of [s]. *)
Definition occurrences (p : Event -> bool) (s : McServerSession) : nat :=
  length (List.filter p (events s)).

(** The buffers passed to [queueWrite], in call order. *)
Fixpoint queuedOf (es : list Event) : list (option WriteBuffer) :=
  match es with
  | [] => []
  | EvQueueWrite wb :: es => wb :: queuedOf es
  | _ :: es => queuedOf es
  end.

Definition queued (s : McServerSession) : list (option WriteBuffer) :=
  queuedOf (events s).

(** What the write path leaves alone: everything but the pause mask, the
    read callback, the write queues and batches and the reply-ordering
    fields; the trace grows by write events only. *)
Definition writeFrame (s s' : McServerSession) : Prop :=
  options_ s' = options_ s /\ parser_ s' = parser_ s /\
  debugFifo_ s' = debugFifo_ s /\ state_ s' = state_ s /\
  inFlight_ s' = inFlight_ s /\
  realRequestsInFlight_ s' = realRequestsInFlight_ s /\
  tailReqid_ s' = tailReqid_ s /\
  currentMultiop_ s' = currentMultiop_ s /\ destroyed s' = destroyed s /\
  (transport_ s' = None <-> transport_ s = None) /\
  exists new, events s' = events s ++ new /\ forallb isWriteEvent new = true.

(** The iovecs [sendWrites] hands to [writev] for the buffers [pw]. *)
Definition wireIovs (pw : list WriteBuffer) : list iovec :=
  concat (map wbIovs (List.filter (fun wb => negb (wbNoReply wb)) pw)).

(** Record several calls, in order. *)
Definition emitAll (es : list Event) (s : McServerSession) : McServerSession :=
  fold_left (fun s e => emit e s) es s.

Definition sumZ (l : list Z) : Z := fold_right Z.add 0 l.

(** Write completions are in phase with [writeBufs_]: the batches recorded
    in [writeBatches_] add up to the buffers the transport still owns. *)
Definition inPhase (s : McServerSession) : Prop :=
  exists q,
    writeBufs_ s = Some q /\
    Forall (fun c => 0 <= c) (writeBatches_ s) /\
    sumZ (writeBatches_ s) = Z.of_nat (length q).

(** What [close] leaves alone: the configuration, the counters, the pause
    mask, the reply-ordering fields and the write queues. *)
Definition closeFrame (s s' : McServerSession) : Prop :=
  options_ s' = options_ s /\ parser_ s' = parser_ s /\
  debugFifo_ s' = debugFifo_ s /\ pauseState_ s' = pauseState_ s /\
  inFlight_ s' = inFlight_ s /\
  realRequestsInFlight_ s' = realRequestsInFlight_ s /\
  headReqid_ s' = headReqid_ s /\ blockedReplies_ s' = blockedReplies_ s /\
  pendingWrites_ s' = pendingWrites_ s /\
  writeBatches_ s' = writeBatches_ s /\ writeBufs_ s' = writeBufs_ s /\
  writeScheduled_ s' = writeScheduled_ s.

Definition sampleBufferA : WriteBuffer :=
  {| wbIovs := [{| iov_base := 4096; iov_len := 5 |}]; wbNoReply := false |}.

Definition sampleBufferB : WriteBuffer :=
  {| wbIovs := [{| iov_base := 8192; iov_len := 7 |}]; wbNoReply := true |}.

Definition sampleBufferC : WriteBuffer :=
  {| wbIovs := [{| iov_base := 12288; iov_len := 3 |}]; wbNoReply := false |}.

(** A session with two replies staged for the next [sendWrites], the second
    one for a noreply request. *)
Definition samplePending : McServerSession :=
  set_writeScheduled_ true
    (set_pendingWrites_ [sampleBufferA; sampleBufferB] (sampleSession 0)).

(** A session whose transport owns one batch of two buffers. *)
Definition sampleSent : McServerSession :=
  set_writeBatches_ [2]
    (set_writeBufs_ (Some [sampleBufferA; sampleBufferB]) (sampleSession 0)).

(** The [Throttled] bit of [pause_mask] is set. *)
Definition throttled (s : McServerSession) : Prop :=
  Z.land (pauseState_ s) (reasonMask PAUSE_THROTTLED) <> 0.

(** The cap on real requests in flight is enabled and reached. *)
Definition atCap (s : McServerSession) : Prop :=
  0 < maxInFlight (options_ s) <= realRequestsInFlight_ s.

(** The transaction-accounting entry points. *)
Definition isTransactionCall (c : Call) : bool :=
  match c with
  | CallOnTransactionStarted _ | CallOnTransactionCompleted _ => true
  | _ => false
  end.

(** The accounting invariant along a run of [n] transaction calls from a
    new session: the session still streams over its transport, at most
    [n] real requests are in flight, and the [Throttled] bit says whether
    the cap is reached. *)
Definition accounted (n : Z) (s : McServerSession) : Prop :=
  state_ s = STREAMING /\
  (exists t, transport_ s = Some t) /\
  0 <= realRequestsInFlight_ s <= n /\
  (throttled s <-> atCap s).

(** Three transactions started, one of them a sub-request, then one real
    request completed. *)
Definition sampleTransactions : list Call :=
  [CallOnTransactionStarted false; CallOnTransactionStarted false;
   CallOnTransactionStarted true; CallOnTransactionCompleted false].

(** How one call may move the id counter and the active multi-op: at most
    two ids are consumed; the multi-op is kept, cleared, or created with
    the first of two consumed ids. *)
Definition idFrame (s s' : McServerSession) : Prop :=
  (tailReqid_ s' = tailReqid_ s \/
   tailReqid_ s' = wrap64 (tailReqid_ s + 1) \/
   tailReqid_ s' = wrap64 (wrap64 (tailReqid_ s + 1) + 1)) /\
  (currentMultiop_ s' = currentMultiop_ s \/
   currentMultiop_ s' = None \/
   (currentMultiop_ s' = Some {| parentReqid := tailReqid_ s |} /\
    tailReqid_ s' = wrap64 (wrap64 (tailReqid_ s + 1) + 1))).

(** The ids handed out so far lie below [tailReqid_], which has not
    wrapped around after [n] calls; the parent of the active multi-op and
    its first sub-request hold two of them. *)
Definition idsInOrder (n : Z) (s : McServerSession) : Prop :=
  0 <= tailReqid_ s <= 2 * n /\
  forall m, currentMultiop_ s = Some m ->
    0 <= parentReqid m /\ parentReqid m + 2 <= tailReqid_ s.

Definition sampleGet (key : string) : Call :=
  CallRequestReady {| reqKey := key |} mc_op_get 0 mc_res_ok false.

(** The requests of an ASCII [get a b], before the end marker. *)
Definition sampleMultiGet : list Call := [sampleGet "a"; sampleGet "b"].

(** The session an outcome returned, or an unused new session. *)
Definition sampleSessionOf (o : outcome) : McServerSession :=
  match o with
  | Ok s => s
  | Fault _ => newSession (batchedOptions 0) asciiParser false sampleTransport
  end.

(** A context constructed under a multi-op parent got an id above the
    parent's. *)
Definition parentPrecedes (e : Event) : Prop :=
  match e with
  | EvCtxNew ctx =>
      match ctxParent ctx with
      | Some m => parentReqid m < ctxReqid ctx
      | None => True
      end
  | _ => True
  end.

(** The invariant behind the order of parent and sub-request ids. *)
Definition parentsFirst (n : Z) (s : McServerSession) : Prop :=
  idsInOrder n s /\
  (outOfOrder (parser_ s) = true -> currentMultiop_ s = None) /\
  Forall parentPrecedes (events s).

(** The calls of the request handler recorded in the trace. *)
Definition handlerCalls (s : McServerSession) : list Event :=
  List.filter isHandlerEvent (events s).

(** A session that was closed while one request was still in flight. *)
Definition sampleClosing : McServerSession :=
  emit EvOnCloseStart (set_state_ CLOSING (set_inFlight_ 1 (sampleSession 0))).

Definition closedCount (st : State) : nat :=
  match st with CLOSED => 1 | _ => 0 end.

Definition leftStreamingCount (st : State) : nat :=
  match st with STREAMING => 0 | _ => 1 end.

(** The life-cycle invariant: the transport is released and destruction
    requested exactly in [CLOSED]; [onCloseStart] has fired once the
    session has left [STREAMING], and [onCloseFinish] once it is
    [CLOSED]. *)
Definition lifecycle (s : McServerSession) : Prop :=
  (transport_ s = None <-> state_ s = CLOSED) /\
  (destroyed s = true <-> state_ s = CLOSED) /\
  occurrences isCloseStart s = leftStreamingCount (state_ s) /\
  occurrences isCloseFinish s = closedCount (state_ s).

(** [n] calls of [f] in a row. *)
Fixpoint times (n : nat) (f : step) : step :=
  match n with
  | O => skip
  | S n => f >=> times n f
  end.

(** Collaborators that are passive except for the life-cycle callbacks,
    which call [close] again from inside the running [close]. *)
Definition closeFromCallbacks : Env := {|
  onWriteQuiescence_ := Some skip;
  onCloseStart_ := Some (close passive);
  onCloseFinish_ := Some (close passive);
  onShutdown_ := Some skip;
  onRequest_requestReady := fun _ _ _ => skip;
  onRequest_typedRequestReady := fun _ _ _ => skip;
  ctx_construct := fun _ => skip;
  ctx_reply := fun _ _ => skip;
  multiop_construct := fun _ => skip;
  multiop_recordEnd := fun _ _ => skip;
  writeBufs_pop := fun _ => skip;
  writeBufs_valid := fun _ => true;
  parser_readDataAvailable := fun _ s => Ok (true, s);
  transport_writev := fun _ => skip
|}.

(** A step that does not touch the life cycle: same state, same
    destruction flag, the transport still there or still gone, and no
    new life-cycle callback in the trace. *)
Definition quietStep (s s' : McServerSession) : Prop :=
  state_ s' = state_ s /\ destroyed s' = destroyed s /\
  (transport_ s' = None <-> transport_ s = None) /\
  occurrences isCloseStart s' = occurrences isCloseStart s /\
  occurrences isCloseFinish s' = occurrences isCloseFinish s.

(** What the session looks like when a call has just moved it to
    [CLOSED] from the state [s]. *)
Definition justClosed (s s' : McServerSession) : Prop :=
  inFlight_ s' = 0 /\ pendingWrites_ s' = [] /\
  transport_ s' = None /\ destroyed s' = true /\
  occurrences isCloseFinish s' = S (occurrences isCloseFinish s) /\
  (exists pre, events s' = pre ++ [EvOnCloseFinish; EvDestroy]) /\
  (transport_ s <> None ->
   exists pre,
     events s' =
       pre ++ [EvSetReadCB false; EvTransportReset; EvOnCloseFinish;
               EvDestroy]).

(** ** Vocabulary of reply ordering *)

(** The reply submitted for id [k] among the replies [rs], if any. *)
Fixpoint lookupReply (rs : list (Z * option WriteBuffer)) (k : Z)
    : option (option WriteBuffer) :=
  match rs with
  | [] => None
  | (id, wb) :: rs => if id =? k then Some wb else lookupReply rs k
  end.

(** The buffer submitted for id [k] (null if none was). *)
Definition replyFor (rs : list (Z * option WriteBuffer)) (k : Z)
    : option WriteBuffer :=
  match lookupReply rs k with
  | Some wb => wb
  | None => None
  end.

(** The calls [reply(wb, reqid)] for the replies [rs], in order. *)
Definition replyCalls (rs : list (Z * option WriteBuffer)) : list Call :=
  map (fun r => CallReply r.2 r.1) rs.

(** [queueWrite] can go ahead: the transport is there with its event
    base, and in single-write mode the write-buffer queue is allocated. *)
Definition writable (s : McServerSession) : Prop :=
  (exists t, transport_ s = Some t /\ eventBase t = true) /\
  (singleWrite (options_ s) = true -> writeBufs_ s <> None).

(** The state of reply ordering once the replies [received] have come in:
    [headReqid_] is the first id without a reply, the replies below it have
    been passed to [queueWrite] in id order, those above it are blocked. *)
Definition ordered (n : Z) (queued0 : list (option WriteBuffer))
    (received : list (Z * option WriteBuffer)) (s : McServerSession) : Prop :=
  outOfOrder (parser_ s) = false /\ writable s /\
  0 <= headReqid_ s /\
  (forall k, is_Some (lookupReply received k) -> 0 <= k < n) /\
  (forall k, blockedReplies_ s !! k =
             if decide (headReqid_ s < k) then lookupReply received k
             else None) /\
  lookupReply received (headReqid_ s) = None /\
  (forall k, 0 <= k < headReqid_ s -> is_Some (lookupReply received k)) /\
  queued s = queued0 ++ map (replyFor received) (seqZ 0 (headReqid_ s)).

(** The replies of three requests, produced in the order 2, 0, 1. *)
Definition sampleReplies : list (Z * option WriteBuffer) :=
  [(2, Some sampleBufferC); (0, Some sampleBufferA); (1, Some sampleBufferB)].

(** ** Vocabulary of the further properties *)

Definition isQuiescence (e : Event) : bool :=
  match e with EvOnWriteQuiescence => true | _ => false end.

(** The sample session after [pause(reason)]. *)
Definition samplePaused (reason : PauseReason) : McServerSession :=
  sampleSessionOf (pause reason (sampleSession 0)).

(** The change of a counter a transaction call asks for; [real] selects
    [realRequestsInFlight_], which sub-requests leave alone. *)
Definition flightDelta (real : bool) (c : Call) : Z :=
  match c with
  | CallOnTransactionStarted isSubRequest =>
      if real && isSubRequest then 0 else 1
  | CallOnTransactionCompleted isSubRequest =>
      if real && isSubRequest then 0 else -1
  | _ => 0
  end.

(** Transactions started minus transactions completed. *)
Definition netFlight (real : bool) (cs : list Call) : Z :=
  sumZ (map (flightDelta real) cs).

(** A session with a reply staged for the loop callback and nothing in
    flight. *)
Definition sampleStaged : McServerSession :=
  set_writeScheduled_ true
    (set_pendingWrites_ [sampleBufferA] (sampleSession 0)).

(** Collaborators that are passive, with a write-buffer queue that
    rejects every protocol. *)
Definition invalidProtocol : Env := {|
  onWriteQuiescence_ := Some skip;
  onCloseStart_ := Some skip;
  onCloseFinish_ := Some skip;
  onShutdown_ := Some skip;
  onRequest_requestReady := fun _ _ _ => skip;
  onRequest_typedRequestReady := fun _ _ _ => skip;
  ctx_construct := fun _ => skip;
  ctx_reply := fun _ _ => skip;
  multiop_construct := fun _ => skip;
  multiop_recordEnd := fun _ _ => skip;
  writeBufs_pop := fun _ => skip;
  writeBufs_valid := fun _ => false;
  parser_readDataAvailable := fun _ s => Ok (true, s);
  transport_writev := fun _ => skip
|}.

(** The session [create] returns for the sample configuration. *)
Definition sampleCreated : McServerSession :=
  sampleSessionOf
    (create (batchedOptions 0) asciiParser false sampleTransport).

(** The loop callback that runs [sendWrites] is scheduled whenever a
    reply is staged in [pendingWrites_]. *)
Definition scheduledWhenPending (s : McServerSession) : Prop :=
  pendingWrites_ s <> [] -> writeScheduled_ s = true.

Definition isRunInLoop (e : Event) : bool :=
  match e with EvRunInLoop => true | _ => false end.

(** [queueWrite] for each of the buffers [bs], in order. *)
Fixpoint queueAll (env : Env) (bs : list WriteBuffer) : step :=
  match bs with
  | [] => skip
  | b :: bs => queueWrite env (Some b) >=> queueAll env bs
  end.

(** Allocate the write-buffer queue, then reply to the first request. *)
Definition sampleFirstReply : list Call :=
  [CallEnsureWriteBufs; CallReply (Some sampleBufferA) 0].

Definition singleWriteOptions : Options :=
  {| maxInFlight := 0; singleWrite := true;
     defaultVersionHandler := true; versionString := "1.0" |}.

(** A session in single-write mode, just created, with its write-buffer
    queue allocated. *)
Definition sampleSingle : McServerSession :=
  set_writeBufs_ (Some [])
    (sampleSessionOf
       (create singleWriteOptions asciiParser false sampleTransport)).

(** Collaborators that are passive, over a transport whose [writev]
    completes before it returns: it calls [writeSuccess] from inside. *)
Definition syncWrites : Env := {|
  onWriteQuiescence_ := Some skip;
  onCloseStart_ := Some skip;
  onCloseFinish_ := Some skip;
  onShutdown_ := Some skip;
  onRequest_requestReady := fun _ _ _ => skip;
  onRequest_typedRequestReady := fun _ _ _ => skip;
  ctx_construct := fun _ => skip;
  ctx_reply := fun _ _ => skip;
  multiop_construct := fun _ => skip;
  multiop_recordEnd := fun _ _ => skip;
  writeBufs_pop := fun _ => skip;
  writeBufs_valid := fun _ => true;
  parser_readDataAvailable := fun _ s => Ok (true, s);
  transport_writev := fun _ => writeSuccess passive
|}.

(** [setReadCB(nullptr)]: reads are switched off. *)
Definition isReadDetach (e : Event) : bool :=
  match e with EvSetReadCB false => true | _ => false end.

(** The requests [requestReady] answers itself instead of handing them to
    the request handler. *)
Definition answeredBySession (opts : Options) (operation : mc_op_t)
    (result : mc_res_t) : bool :=
  bool_decide (result = mc_res_bad_key)
  || (bool_decide (operation = mc_op_version) && defaultVersionHandler opts)
  || bool_decide (operation = mc_op_quit)
  || bool_decide (operation = mc_op_shutdown).

Definition isCtxNew (e : Event) : bool :=
  match e with EvCtxNew _ => true | _ => false end.

(** Collaborators that are passive, with no [onShutdown] callback
    installed. *)
Definition noShutdownCallback : Env := {|
  onWriteQuiescence_ := Some skip;
  onCloseStart_ := Some skip;
  onCloseFinish_ := Some skip;
  onShutdown_ := None;
  onRequest_requestReady := fun _ _ _ => skip;
  onRequest_typedRequestReady := fun _ _ _ => skip;
  ctx_construct := fun _ => skip;
  ctx_reply := fun _ _ => skip;
  multiop_construct := fun _ => skip;
  multiop_recordEnd := fun _ _ => skip;
  writeBufs_pop := fun _ => skip;
  writeBufs_valid := fun _ => true;
  parser_readDataAvailable := fun _ s => Ok (true, s);
  transport_writev := fun _ => skip
|}.


(** The contexts constructed so far, in order. *)
Fixpoint ctxOf (es : list Event) : list McServerRequestContext :=
  match es with
  | [] => []
  | EvCtxNew ctx :: es => ctx :: ctxOf es
  | _ :: es => ctxOf es
  end.

(** The calls of the multi-op parent. *)
Fixpoint multiOpOf (es : list Event) : list Event :=
  match es with
  | [] => []
  | EvMultiOpNew m :: es => EvMultiOpNew m :: multiOpOf es
  | EvRecordEnd m reqid :: es => EvRecordEnd m reqid :: multiOpOf es
  | _ :: es => multiOpOf es
  end.

(** What the ASCII parser delivers for [get k1 ... kn]: one request per
    key, then the end marker. *)
Definition multiGetCalls (keys : list string) : list Call :=
  map sampleGet keys ++ [CallMultiOpEnd].

(** What [handshakeVer] reads from the [X509_STORE_CTX] through the
    OpenSSL and folly libraries: the verification error, the depth of the
    certificate under verification, the peer address if one is found, and
    whether the certificate's names are valid for an address. *)
Record StoreCtx := {
  storeError : Z;
  errorDepth : Z;
  peerAddress : option string;
  validatePeerCertNames : string -> bool
}.

Definition X509_V_OK : Z := 0.

(** [handshakeVer]: the verification callback of the TLS handshake; the
    [DCHECK] is a check that can fail. *)
Definition handshakeVer (preverifyOk : bool) (ctx : StoreCtx) : result bool :=
  if negb preverifyOk then Ok false
  else if negb (storeError ctx =? X509_V_OK) then
    Fault (CheckFailed "X509_STORE_CTX_get_error(ctx) == X509_V_OK")
  else if negb (errorDepth ctx =? 0) then
    (* For anything in the chain, leave it to openssl *)
    Ok preverifyOk
  else
    match peerAddress ctx with
    | None => Ok false
    | Some addr => Ok (validatePeerCertNames ctx addr)
    end.

(** A verified leaf certificate presented from 10.0.0.1. *)
Definition sampleLeaf : StoreCtx :=
  {| storeError := 0; errorDepth := 0; peerAddress := Some "10.0.0.1";
     validatePeerCertNames := fun addr => String.eqb addr "10.0.0.1" |}.

(** * Properties *)

(** ** Basic facts *)

Lemma wrap64_range z : 0 <= wrap64 z < 2 ^ 64.
Proof. unfold wrap64. apply Z.mod_pos_bound. lia. Qed.

Lemma wrap64_small z : 0 <= z < 2 ^ 64 -> wrap64 z = z.
Proof. intros H. unfold wrap64. apply Z.mod_small. exact H. Qed.

Lemma andThen_Ok (f g : step) s s' :
  (f >=> g) s = Ok s' <-> exists s1, f s = Ok s1 /\ g s1 = Ok s'.
Proof.
  unfold andThen, bind. split.
  - destruct (f s) as [s1|e]; [eauto | discriminate].
  - intros (s1 & -> & H). exact H.
Qed.

Lemma run_app env cs1 cs2 s :
  run env (cs1 ++ cs2) s = bind (run env cs1 s) (run env cs2).
Proof.
  revert s. induction cs1 as [|c cs1 IH]; intros s; simpl.
  - reflexivity.
  - unfold andThen, bind. destruct (exec env c s); [apply IH | reflexivity].
Qed.

(** Unfold the sequencing combinators. *)
Ltac unfold_step :=
  unfold andThen, bind, modify, skip, assert, call, callIfSet,
    fifoWrite, destroy in *.

(** ** Pause and resume *)

Lemma testbit_high p n : 0 <= p < 2 ^ 64 -> 64 <= n -> Z.testbit p n = false.
Proof.
  intros Hp Hn. rewrite <- (Z.mod_small p (2 ^ 64)) by exact Hp.
  apply Z.mod_pow2_bits_high. lia.
Qed.

Lemma land_lor_not64 p m :
  0 <= p < 2 ^ 64 -> Z.land (Z.lor p m) (not64 m) = Z.ldiff p m.
Proof.
  intros Hp. apply Z.bits_inj'. intros n Hn.
  rewrite Z.land_spec, Z.lor_spec, Z.ldiff_spec. unfold not64, wrap64.
  destruct (Z.lt_ge_cases n 64) as [Hlt|Hge].
  - rewrite Z.mod_pow2_bits_low by lia. rewrite Z.lnot_spec by lia.
    destruct (Z.testbit p n), (Z.testbit m n); reflexivity.
  - rewrite Z.mod_pow2_bits_high by lia. rewrite (testbit_high p n) by lia.
    rewrite andb_false_r. reflexivity.
Qed.

Lemma ldiff_same_iff p m : Z.ldiff p m = p <-> Z.land p m = 0.
Proof.
  split; intros H; apply Z.bits_inj'; intros n Hn.
  - rewrite Z.land_spec, Z.bits_0.
    assert (Hb : Z.testbit (Z.ldiff p m) n = Z.testbit p n) by (rewrite H; reflexivity).
    rewrite Z.ldiff_spec in Hb.
    destruct (Z.testbit p n), (Z.testbit m n); simpl in *; congruence.
  - rewrite Z.ldiff_spec.
    assert (Hb : Z.testbit (Z.land p m) n = false) by (rewrite H; apply Z.bits_0).
    rewrite Z.land_spec in Hb.
    destruct (Z.testbit p n), (Z.testbit m n); simpl in *; congruence.
Qed.

Lemma pause_Ok r s t :
  transport_ s = Some t ->
  pause r s =
    Ok (emit (EvSetReadCB false)
          (set_transport_
             (Some {| readCB := false; good := good t; eventBase := eventBase t |})
             (set_pauseState_ (Z.lor (pauseState_ s) (reasonMask r)) s))).
Proof.
  intros Ht. unfold pause, setReadCB. unfold_step. simpl. rewrite Ht. reflexivity.
Qed.

Lemma pause_pauseState r s s' :
  pause r s = Ok s' ->
  pauseState_ s' = Z.lor (pauseState_ s) (reasonMask r).
Proof.
  unfold pause, setReadCB. unfold_step. simpl.
  destruct (transport_ s); [|discriminate]. intros [= <-]. reflexivity.
Qed.

Lemma resume_pauseState r s s' :
  resume r s = Ok s' ->
  pauseState_ s' = Z.land (pauseState_ s) (not64 (reasonMask r)).
Proof.
  unfold resume, setReadCB. unfold_step. simpl.
  repeat match goal with
         | |- context [if ?b then _ else _] => destruct b
         | |- context [match transport_ ?s with _ => _ end] => destruct (transport_ s)
         end; try discriminate; intros [= <-]; reflexivity.
Qed.

Lemma pause_transport r s s' :
  pause r s = Ok s' -> exists t, transport_ s' = Some t.
Proof.
  unfold pause, setReadCB. unfold_step. simpl.
  destruct (transport_ s); [|discriminate]. intros [= <-]. simpl. eauto.
Qed.

Lemma resume_Ok r s t :
  transport_ s = Some t -> exists s', resume r s = Ok s'.
Proof.
  intros Ht. unfold resume, setReadCB. unfold_step. simpl. rewrite Ht.
  repeat match goal with
         | |- context [if ?b then _ else _] => destruct b
         end; eauto.
Qed.

Lemma sampleSession_reachable m : reachable passive (sampleSession m).
Proof.
  exists (batchedOptions m), asciiParser, false, sampleTransport.
  eexists. exists [CallEnsureWriteBufs].
  split; [vm_compute; reflexivity | reflexivity].
Qed.

(** C8, as stated, fails: in the reachable state where one real request is
    in flight under [maxInFlight = 1] the mask is [PAUSE_THROTTLED], and
    [pause(PAUSE_THROTTLED); resume(PAUSE_THROTTLED)] leaves it empty. *)
Lemma pause_resume_changes_mask :
  exists s s',
    reachable passive s /\
    (pause PAUSE_THROTTLED >=> resume PAUSE_THROTTLED) s = Ok s' /\
    pauseState_ s = 1 /\ pauseState_ s' = 0 /\
    pauseState_ s' <> pauseState_ s.
Proof.
  eexists. eexists. split; [|split].
  - exists (batchedOptions 1), asciiParser, false, sampleTransport.
    eexists. exists [CallOnTransactionStarted false].
    split; [vm_compute; reflexivity | vm_compute; reflexivity].
  - vm_compute. reflexivity.
  - vm_compute. repeat split. discriminate.
Qed.

(** C8 (amended): [pause(r); resume(r)] returns with [r]'s bit cleared and
    every other bit of [pause_mask] as before; the mask is unchanged
    exactly when [r] was not set before the pair of calls. *)
Theorem pause_resume_clears_reason (r : PauseReason) (s : McServerSession)
    (t : Transport) :
  transport_ s = Some t ->
  0 <= pauseState_ s < 2 ^ 64 ->
  exists s',
    (pause r >=> resume r) s = Ok s' /\
    pauseState_ s' = Z.ldiff (pauseState_ s) (reasonMask r) /\
    (pauseState_ s' = pauseState_ s <->
     Z.land (pauseState_ s) (reasonMask r) = 0).
Proof.
  intros Ht Hp.
  destruct (pause_transport r s _ (pause_Ok r s t Ht)) as [t1 Ht1].
  destruct (resume_Ok r _ t1 Ht1) as [s' Hs'].
  exists s'. split.
  - unfold andThen, bind at 1. rewrite (pause_Ok r s t Ht). exact Hs'.
  - apply resume_pauseState in Hs'. simpl in Hs'.
    rewrite land_lor_not64 in Hs' by exact Hp.
    split; [exact Hs'|]. rewrite Hs'. apply ldiff_same_iff.
Qed.

Lemma pause_resume_clears_reason_witness :
  transport_ (sampleSession 0) =
    Some {| readCB := true; good := true; eventBase := true |} /\
  0 <= pauseState_ (sampleSession 0) < 2 ^ 64 /\
  exists s',
    (pause PAUSE_WRITE >=> resume PAUSE_WRITE) (sampleSession 0) = Ok s' /\
    pauseState_ s' = Z.ldiff (pauseState_ (sampleSession 0)) (reasonMask PAUSE_WRITE) /\
    (pauseState_ s' = pauseState_ (sampleSession 0) <->
     Z.land (pauseState_ (sampleSession 0)) (reasonMask PAUSE_WRITE) = 0).
Proof.
  split; [reflexivity|]. split; [simpl; lia|].
  apply (pause_resume_clears_reason PAUSE_WRITE (sampleSession 0)
           {| readCB := true; good := true; eventBase := true |});
    [reflexivity | simpl; lia].
Defined.

(** ** Entry points once the session has left [STREAMING] *)

Lemma requestReady_not_streaming env req op reqid res noreply s :
  state_ s <> STREAMING -> requestReady env req op reqid res noreply s = Ok s.
Proof.
  intros H. unfold requestReady. rewrite bool_decide_eq_false_2 by exact H.
  reflexivity.
Qed.

Lemma typedRequestReady_not_streaming env typeId body reqid s :
  state_ s <> STREAMING -> typedRequestReady env typeId body reqid s = Ok s.
Proof.
  intros H. unfold typedRequestReady. rewrite bool_decide_eq_false_2 by exact H.
  reflexivity.
Qed.

Lemma parseError_not_streaming env res reason s :
  state_ s <> STREAMING -> parseError env res reason s = Ok s.
Proof.
  intros H. unfold parseError. rewrite bool_decide_eq_false_2 by exact H.
  reflexivity.
Qed.

Lemma multiOpEnd_not_streaming env s :
  state_ s <> STREAMING -> multiOpEnd env s = Ok s.
Proof.
  intros H. unfold multiOpEnd. rewrite bool_decide_eq_false_2 by exact H.
  reflexivity.
Qed.

(** ** Symbolic execution of the methods *)

(** Split the hypotheses [f s = Ok s'] along the branches of [f]. *)
Ltac exec_hyps :=
  repeat first
    [ progress simplify_eq
    | progress unfold_step
    | progress (simpl in * )
    | match goal with
      | H : context [match ?x with _ => _ end] |- _ =>
          match type of H with
          | _ = Ok _ => let E := fresh "E" in destruct x eqn:E
          end
      end ].

(** Turn the boolean tests recorded by [exec_hyps] into propositions. *)
Ltac bool_hyps :=
  repeat match goal with
    | H : bool_decide _ = true |- _ => apply bool_decide_eq_true_1 in H
    | H : bool_decide _ = false |- _ => apply bool_decide_eq_false_1 in H
    | H : negb _ = true |- _ => apply negb_true_iff in H
    | H : negb _ = false |- _ => apply negb_false_iff in H
    | H : (_ && _) = true |- _ =>
        let H1 := fresh H in apply andb_prop in H as [H H1]
    | H : (_ =? _) = true |- _ => apply Z.eqb_eq in H
    | H : (_ =? _) = false |- _ => apply Z.eqb_neq in H
    | H : (_ <? _) = true |- _ => apply Z.ltb_lt in H
    | H : (_ <? _) = false |- _ => apply Z.ltb_ge in H
    | H : (_ <=? _) = true |- _ => apply Z.leb_le in H
    | H : (_ <=? _) = false |- _ => apply Z.leb_gt in H
    end.

Ltac exec_facts := exec_hyps; bool_hyps.

Lemma writeFrame_refl s : writeFrame s s.
Proof.
  unfold writeFrame. repeat split; try tauto.
  exists []. rewrite app_nil_r. split; reflexivity.
Qed.

Lemma writeFrame_trans s1 s2 s3 :
  writeFrame s1 s2 -> writeFrame s2 s3 -> writeFrame s1 s3.
Proof.
  unfold writeFrame.
  intros (?&?&?&?&?&?&?&?&?&?&n1&?&?) (?&?&?&?&?&?&?&?&?&?&n2&?&?).
  repeat split; try congruence; try tauto.
  exists (n1 ++ n2). split.
  - rewrite app_assoc. congruence.
  - rewrite forallb_app. apply andb_true_intro. split; assumption.
Qed.

(** Close a [writeFrame] goal between a state and explicit updates of it. *)
Ltac frame_events :=
  first
    [ exists []; split; [symmetry; apply app_nil_r | reflexivity]
    | eexists; split; [rewrite <- ?app_assoc; reflexivity | reflexivity] ].

Ltac frame_done :=
  unfold writeFrame; simpl; repeat split; try tauto; try congruence;
  try (intros; discriminate); try frame_events.

Lemma pause_writeFrame r s s' : pause r s = Ok s' -> writeFrame s s'.
Proof.
  unfold pause, setReadCB. intros H. exec_hyps.
  unfold writeFrame; simpl. rewrite E. frame_done.
Qed.

Lemma queueWrite_writeFrame wb s s' :
  queueWrite passive wb s = Ok s' -> writeFrame s s'.
Proof.
  unfold queueWrite, pause, setReadCB. intros H. exec_hyps;
    unfold writeFrame; simpl;
    repeat match goal with E : transport_ _ = _ |- _ => rewrite E end;
    frame_done.
Qed.

Lemma replyLoop_writeFrame fuel : forall s s',
  replyLoop passive fuel s = Ok s' -> writeFrame s s'.
Proof.
  induction fuel as [|fuel IH]; intros s s' H; simpl in H.
  - exec_hyps. frame_done.
  - destruct (blockedReplies_ s !! wrap64 (headReqid_ s + 1)) as [wb|];
      [|exec_hyps; frame_done].
    unfold bind in H.
    destruct (queueWrite passive wb _) as [s1|] eqn:E1; [|discriminate].
    apply queueWrite_writeFrame in E1. apply IH in H.
    eapply writeFrame_trans; [|eapply writeFrame_trans; [exact E1|]].
    + frame_done.
    + eapply writeFrame_trans; [|exact H]. frame_done.
Qed.

Lemma reply_writeFrame wb reqid s s' :
  reply passive wb reqid s = Ok s' -> writeFrame s s'.
Proof.
  unfold reply. intros H.
  destruct (outOfOrder (parser_ s)).
  - eapply queueWrite_writeFrame; exact H.
  - destruct (reqid =? headReqid_ s).
    + apply andThen_Ok in H as (s1 & H1 & H2).
      apply queueWrite_writeFrame in H1. apply replyLoop_writeFrame in H2.
      eapply writeFrame_trans; eassumption.
    + injection H as <-. frame_done.
Qed.

(** ** The loops of the write path *)

Lemma wrap64_succ c : wrap64 (wrap64 c + 1) = wrap64 (c + 1).
Proof. unfold wrap64. apply Zplus_mod_idemp_l. Qed.

Lemma wireIovs_cons wb pw :
  wireIovs (wb :: pw) =
    (if negb (wbNoReply wb) then wbIovs wb else []) ++ wireIovs pw.
Proof.
  unfold wireIovs. simpl. destruct (wbNoReply wb); reflexivity.
Qed.

Lemma sendWritesLoop_cons wb rest iovs count s q :
  writeBufs_ s = Some q ->
  sendWritesLoop (wb :: rest) iovs count s =
    sendWritesLoop rest
      (if negb (wbNoReply wb) then iovs ++ wbIovs wb else iovs)
      (wrap64 (count + 1))
      (set_writeBufs_ (Some (q ++ [wb])) (set_pendingWrites_ rest s)).
Proof. intros Hq. simpl. rewrite Hq. reflexivity. Qed.

(** The loop of [sendWrites] moves every pending buffer, in order, to the
    end of [writeBufs_], counts them, and collects the iovecs of those not
    flagged noreply. *)
Lemma sendWritesLoop_spec pw : forall iovs count s q,
  writeBufs_ s = Some q ->
  pendingWrites_ s = pw ->
  sendWritesLoop pw iovs count s =
    Ok (iovs ++ wireIovs pw,
        (if pw is [] then count else wrap64 (count + Z.of_nat (length pw))),
        set_writeBufs_ (Some (q ++ pw)) (set_pendingWrites_ [] s)).
Proof.
  induction pw as [|wb rest IH]; intros iovs count s q Hq Hp.
  - simpl. rewrite !app_nil_r. destruct s; simpl in *; subst. reflexivity.
  - rewrite (sendWritesLoop_cons _ _ _ _ _ q Hq).
    rewrite (IH _ _ _ (q ++ [wb])) by reflexivity.
    rewrite wireIovs_cons. f_equal. f_equal; [f_equal|].
    + destruct (wbNoReply wb); simpl; [reflexivity|].
      rewrite <- app_assoc. reflexivity.
    + destruct rest as [|wb' rest].
      * simpl. reflexivity.
      * unfold wrap64. rewrite Zplus_mod_idemp_l. f_equal.
        rewrite !length_cons. lia.
    + unfold set_writeBufs_, set_pendingWrites_. simpl.
      rewrite <- app_assoc. reflexivity.
Qed.

Lemma sendWritesLoop_nil iovs count s :
  sendWritesLoop [] iovs count s = Ok (iovs, count, s).
Proof. reflexivity. Qed.

Lemma sendWritesLoop_null wb rest iovs count s :
  writeBufs_ s = None ->
  sendWritesLoop (wb :: rest) iovs count s = Fault (NullDeref "writeBufs_").
Proof. intros H. simpl. rewrite H. reflexivity. Qed.

Lemma emitAll_fields es : forall s,
  emitAll es s =
    mkSession (options_ s) (parser_ s) (debugFifo_ s) (transport_ s)
      (state_ s) (pauseState_ s) (inFlight_ s) (realRequestsInFlight_ s)
      (headReqid_ s) (tailReqid_ s) (blockedReplies_ s) (pendingWrites_ s)
      (writeBatches_ s) (writeBufs_ s) (writeScheduled_ s)
      (currentMultiop_ s) (destroyed s) (events s ++ es).
Proof.
  induction es as [|e es IH]; intros s.
  - simpl. rewrite app_nil_r. destruct s; reflexivity.
  - simpl. unfold emitAll in IH. rewrite IH. simpl.
    rewrite <- app_assoc. reflexivity.
Qed.

Lemma emitAll_events es s : events (emitAll es s) = events s ++ es.
Proof. rewrite emitAll_fields. reflexivity. Qed.

Lemma emitAll_set_writeBufs_ es : forall v s,
  emitAll es (set_writeBufs_ v s) = set_writeBufs_ v (emitAll es s).
Proof.
  induction es as [|e es IH]; intros v s; [reflexivity|].
  simpl. rewrite <- IH. reflexivity.
Qed.

(** The loop of [completeWrite] pops the [count] oldest buffers. *)
Lemma completeWriteLoop_spec count : forall s q,
  writeBufs_ s = Some q ->
  (count <= length q)%nat ->
  completeWriteLoop passive count s =
    Ok (set_writeBufs_ (Some (drop count q))
          (emitAll (map EvWriteBufPop (take count q)) s)).
Proof.
  induction count as [|count IH]; intros s q Hq Hle.
  - simpl. rewrite drop_0. destruct s; simpl in *; subst. reflexivity.
  - destruct q as [|wb q]; [simpl in Hle; lia|].
    simpl. rewrite Hq. unfold_step. simpl.
    rewrite (IH _ q); [| reflexivity | simpl in Hle; lia].
    change (emit (EvWriteBufPop wb) (set_writeBufs_ (Some q) s))
      with (set_writeBufs_ (Some q) (emit (EvWriteBufPop wb) s)).
    rewrite emitAll_set_writeBufs_. reflexivity.
Qed.

Lemma completeWriteLoop_short count : forall s q,
  writeBufs_ s = Some q ->
  (length q < count)%nat ->
  completeWriteLoop passive count s = Fault (AssertFailed "!writeBufs_->empty()").
Proof.
  induction count as [|count IH]; intros s q Hq Hlt; [lia|].
  destruct q as [|wb q]; simpl; rewrite Hq; [reflexivity|].
  unfold_step. simpl. apply (IH _ q); [reflexivity | simpl in Hlt; lia].
Qed.

Lemma sumZ_app l1 l2 : sumZ (l1 ++ l2) = sumZ l1 + sumZ l2.
Proof.
  unfold sumZ. induction l1 as [|x l1 IH]; simpl; [reflexivity|].
  rewrite IH. lia.
Qed.

Lemma sendWrites_batch s q t :
  writeBufs_ s = Some q ->
  transport_ s = Some t ->
  Z.of_nat (length (pendingWrites_ s)) < 2 ^ 64 ->
  exists s1,
    sendWrites passive s = Ok s1 /\
    pendingWrites_ s1 = [] /\
    writeBufs_ s1 = Some (q ++ pendingWrites_ s) /\
    writeBatches_ s1 =
      writeBatches_ s ++ [Z.of_nat (length (pendingWrites_ s))] /\
    writeScheduled_ s1 = false /\
    events s1 =
      events s
      ++ (if debugFifo_ s then [EvFifo Sent (wireIovs (pendingWrites_ s))]
          else [])
      ++ [EvWritev (wireIovs (pendingWrites_ s))].
Proof.
  intros Hq Ht Hlen. unfold sendWrites. cbv zeta.
  change (pendingWrites_ (set_writeScheduled_ false s))
    with (pendingWrites_ s).
  rewrite (sendWritesLoop_spec (pendingWrites_ s) [] 0
             (set_writeScheduled_ false s) q Hq eq_refl).
  assert (Hc : (if pendingWrites_ s is [] then 0
                else wrap64 (0 + Z.of_nat (length (pendingWrites_ s))))
               = Z.of_nat (length (pendingWrites_ s))).
  { destruct (pendingWrites_ s) eqn:E; [reflexivity|].
    rewrite <- E in *. apply wrap64_small. lia. }
  rewrite Hc. unfold_step. simpl.
  destruct (debugFifo_ s); simpl; rewrite Ht; simpl;
    eexists; (split; [reflexivity|]); simpl;
    rewrite <- ?app_assoc; repeat split; reflexivity.
Qed.

Lemma sendWrites_inPhase s s1 q :
  writeBufs_ s = Some q ->
  sendWrites passive s = Ok s1 ->
  Z.of_nat (length (pendingWrites_ s)) < 2 ^ 64 ->
  inPhase s -> inPhase s1.
Proof.
  intros Hq H Hlen (q' & Hq' & Hnn & Hsum).
  assert (q' = q) by congruence. subst q'.
  assert (Ht : exists t, transport_ s = Some t).
  { unfold sendWrites in H. cbv zeta in H.
    change (pendingWrites_ (set_writeScheduled_ false s))
      with (pendingWrites_ s) in H.
    rewrite (sendWritesLoop_spec (pendingWrites_ s) [] 0
               (set_writeScheduled_ false s) q Hq eq_refl) in H.
    exec_hyps; eauto. }
  destruct Ht as [t Ht].
  destruct (sendWrites_batch s q t Hq Ht Hlen) as (s1' & H' & _ & Hb & Hw & _).
  assert (s1' = s1) by congruence. subst s1'.
  exists (q ++ pendingWrites_ s). split; [exact Hb|]. rewrite Hw. split.
  - apply Forall_app. split; [exact Hnn|]. constructor; [lia|constructor].
  - rewrite sumZ_app, length_app, Hsum. simpl. lia.
Qed.

Lemma completeWrite_batched s count rest q :
  singleWrite (options_ s) = false ->
  writeBatches_ s = count :: rest ->
  writeBufs_ s = Some q ->
  0 <= count <= Z.of_nat (length q) ->
  exists s2,
    completeWrite passive s = Ok s2 /\
    writeBufs_ s2 = Some (drop (Z.to_nat count) q) /\
    writeBatches_ s2 = rest /\
    events s2 = events s ++ map EvWriteBufPop (take (Z.to_nat count) q).
Proof.
  intros Hm Hb Hq Hc. unfold completeWrite. rewrite Hm, Hb. simpl.
  rewrite (completeWriteLoop_spec _ _ q); [| exact Hq | lia].
  eexists. split; [reflexivity|].
  rewrite emitAll_fields. simpl. repeat split.
Qed.

Lemma completeWrite_single s wb q :
  singleWrite (options_ s) = true ->
  writeBufs_ s = Some (wb :: q) ->
  exists s2,
    completeWrite passive s = Ok s2 /\
    writeBufs_ s2 = Some q /\
    writeBatches_ s2 = writeBatches_ s /\
    events s2 = events s ++ [EvWriteBufPop wb].
Proof.
  intros Hm Hq. unfold completeWrite. rewrite Hm. simpl.
  rewrite Hq. unfold_step. simpl. eexists. split; [reflexivity|].
  simpl. repeat split.
Qed.

(** ** Closing *)

Lemma closeFrame_refl s : closeFrame s s.
Proof. unfold closeFrame. repeat split. Qed.

Lemma closeFrame_trans s1 s2 s3 :
  closeFrame s1 s2 -> closeFrame s2 s3 -> closeFrame s1 s3.
Proof.
  unfold closeFrame. intros (?&?&?&?&?&?&?&?&?&?&?&?) (?&?&?&?&?&?&?&?&?&?&?&?).
  repeat split; congruence.
Qed.

Lemma checkClosed_closeFrame s s' :
  checkClosed passive s = Ok s' -> closeFrame s s'.
Proof.
  unfold checkClosed, setReadCB. intros H. exec_hyps;
    unfold closeFrame; simpl; repeat split.
Qed.

Lemma processMultiOpEnd_closeFrame s s' :
  processMultiOpEnd passive s = Ok s' -> closeFrame s s'.
Proof.
  unfold processMultiOpEnd. intros H. exec_hyps.
  unfold closeFrame; simpl; repeat split.
Qed.

Lemma close_closeFrame s s' :
  close passive s = Ok s' -> closeFrame s s'.
Proof.
  unfold close. intros H.
  apply andThen_Ok in H as (s1 & H1 & H).
  apply andThen_Ok in H as (s2 & H2 & H).
  apply checkClosed_closeFrame in H.
  eapply closeFrame_trans; [|exact H].
  eapply (closeFrame_trans _ s1).
  - destruct (currentMultiop_ s).
    + apply processMultiOpEnd_closeFrame. exact H1.
    + injection H1 as <-. apply closeFrame_refl.
  - clear H1 H. exec_hyps; unfold closeFrame; simpl; repeat split.
Qed.

Lemma resume_queues r s s' :
  resume r s = Ok s' ->
  writeBufs_ s' = writeBufs_ s /\ writeBatches_ s' = writeBatches_ s.
Proof.
  unfold resume, setReadCB. intros H. exec_hyps; simpl; split; reflexivity.
Qed.

Lemma writeSuccess_queues s s2 s3 :
  completeWrite passive s = Ok s2 ->
  writeSuccess passive s = Ok s3 ->
  writeBufs_ s3 = writeBufs_ s2 /\ writeBatches_ s3 = writeBatches_ s2.
Proof.
  intros H2 H3. unfold writeSuccess in H3.
  apply andThen_Ok in H3 as (s2' & H2' & H3).
  assert (s2' = s2) by congruence. subst s2'. clear H2'.
  apply andThen_Ok in H3 as (s2' & Ha & H3).
  unfold assert in Ha. destruct (writeBufs_ s2) eqn:E; [|discriminate].
  injection Ha as <-.
  destruct (match writeBufs_ s2 with Some [] => true | _ => false end
            && bool_decide (state_ s2 = STREAMING)).
  - apply andThen_Ok in H3 as (s2' & Ha & H3). simpl in Ha.
    unfold andThen, bind, modify, skip in Ha. injection Ha as <-.
    apply resume_queues in H3. simpl in H3. rewrite E in H3. exact H3.
  - injection H3 as <-. split; [exact E | reflexivity].
Qed.

Lemma writeErr_queues s s2 s3 :
  completeWrite passive s = Ok s2 ->
  writeErr passive s = Ok s3 ->
  writeBufs_ s3 = writeBufs_ s2 /\ writeBatches_ s3 = writeBatches_ s2.
Proof.
  intros H2 H3. unfold writeErr in H3.
  apply andThen_Ok in H3 as (s2' & H2' & H3).
  assert (s2' = s2) by congruence. subst s2'.
  apply close_closeFrame in H3. unfold closeFrame in H3. tauto.
Qed.

Lemma completeWrite_inPhase s :
  singleWrite (options_ s) = false ->
  writeBatches_ s <> [] ->
  inPhase s ->
  exists s2, completeWrite passive s = Ok s2 /\ inPhase s2.
Proof.
  intros Hm Hne (q & Hq & Hnn & Hsum).
  destruct (writeBatches_ s) as [|count rest] eqn:Hb; [congruence|].
  apply Forall_cons in Hnn as [Hc Hrest]. simpl in Hsum.
  assert (Hr : 0 <= sumZ rest).
  { clear -Hrest. induction Hrest; simpl; [lia|]. unfold sumZ in *. lia. }
  destruct (completeWrite_batched s count rest q Hm Hb Hq ltac:(lia))
    as (s2 & H2 & Hq2 & Hb2 & _).
  exists s2. split; [exact H2|].
  exists (drop (Z.to_nat count) q). rewrite Hb2.
  split; [exact Hq2|]. split; [exact Hrest|].
  rewrite length_drop. lia.
Qed.

(** C4: one [sendWrites] moves every pending buffer into [writeBufs_] as
    one batch whose count is appended to [writeBatches_], handing [writev]
    the iovecs of the buffers not flagged noreply; a completion, successful
    or not, pops exactly [count] buffers, [count] being 1 in single-write
    mode and the front of [writeBatches_] otherwise; so in batched mode the
    batches keep adding up to the buffers retained. *)
Theorem batched_writes_in_phase :
  (forall s q t,
     writeBufs_ s = Some q ->
     transport_ s = Some t ->
     Z.of_nat (length (pendingWrites_ s)) < 2 ^ 64 ->
     exists s1,
       sendWrites passive s = Ok s1 /\
       pendingWrites_ s1 = [] /\
       writeBufs_ s1 = Some (q ++ pendingWrites_ s) /\
       writeBatches_ s1 =
         writeBatches_ s ++ [Z.of_nat (length (pendingWrites_ s))] /\
       events s1 =
         events s
         ++ (if debugFifo_ s
             then [EvFifo Sent (wireIovs (pendingWrites_ s))] else [])
         ++ [EvWritev (wireIovs (pendingWrites_ s))] /\
       (inPhase s -> inPhase s1)) /\
  (forall s count rest q,
     singleWrite (options_ s) = false ->
     writeBatches_ s = count :: rest ->
     writeBufs_ s = Some q ->
     0 <= count <= Z.of_nat (length q) ->
     exists s2,
       completeWrite passive s = Ok s2 /\
       writeBufs_ s2 = Some (drop (Z.to_nat count) q) /\
       writeBatches_ s2 = rest /\
       forall s3,
         writeSuccess passive s = Ok s3 \/ writeErr passive s = Ok s3 ->
         writeBufs_ s3 = Some (drop (Z.to_nat count) q) /\
         writeBatches_ s3 = rest) /\
  (forall s wb q,
     singleWrite (options_ s) = true ->
     writeBufs_ s = Some (wb :: q) ->
     exists s2,
       completeWrite passive s = Ok s2 /\
       writeBufs_ s2 = Some q /\
       forall s3,
         writeSuccess passive s = Ok s3 \/ writeErr passive s = Ok s3 ->
         writeBufs_ s3 = Some q) /\
  (forall s,
     singleWrite (options_ s) = false ->
     writeBatches_ s <> [] ->
     inPhase s ->
     exists s2, completeWrite passive s = Ok s2 /\ inPhase s2).
Proof.
  split; [|split; [|split]].
  - intros s q t Hq Ht Hlen.
    destruct (sendWrites_batch s q t Hq Ht Hlen)
      as (s1 & H1 & Hp & Hb & Hw & _ & He).
    exists s1. repeat (split; [assumption|]).
    intros Hin. exact (sendWrites_inPhase s s1 q Hq H1 Hlen Hin).
  - intros s count rest q Hm Hb Hq Hc.
    destruct (completeWrite_batched s count rest q Hm Hb Hq Hc)
      as (s2 & H2 & Hq2 & Hb2 & _).
    exists s2. repeat (split; [assumption|]).
    intros s3 [H3|H3].
    + destruct (writeSuccess_queues s s2 s3 H2 H3). split; congruence.
    + destruct (writeErr_queues s s2 s3 H2 H3). split; congruence.
  - intros s wb q Hm Hq.
    destruct (completeWrite_single s wb q Hm Hq) as (s2 & H2 & Hq2 & _).
    exists s2. repeat (split; [assumption|]).
    intros s3 [H3|H3].
    + destruct (writeSuccess_queues s s2 s3 H2 H3). congruence.
    + destruct (writeErr_queues s s2 s3 H2 H3). congruence.
  - apply completeWrite_inPhase.
Qed.

Lemma batched_writes_in_phase_witness :
  (exists s1,
     sendWrites passive samplePending = Ok s1 /\
     pendingWrites_ s1 = [] /\
     writeBufs_ s1 = Some [sampleBufferA; sampleBufferB] /\
     writeBatches_ s1 = [2] /\
     events s1 = [EvSetReadCB true; EvWritev (wbIovs sampleBufferA)]) /\
  (exists s2,
     completeWrite passive sampleSent = Ok s2 /\
     writeBufs_ s2 = Some [] /\ writeBatches_ s2 = []).
Proof.
  destruct batched_writes_in_phase as (Hsend & Hdone & _ & _). split.
  - destruct (Hsend samplePending []
                {| readCB := true; good := true; eventBase := true |}
                eq_refl eq_refl ltac:(simpl; lia))
      as (s1 & H1 & Hp & Hq & Hb & He & _).
    exists s1. repeat (split; [assumption|]). exact He.
  - destruct (Hdone sampleSent 2 [] [sampleBufferA; sampleBufferB]
                eq_refl eq_refl eq_refl ltac:(simpl; lia))
      as (s2 & H2 & Hq2 & Hb2 & _).
    exists s2. repeat split; assumption.
Defined.

(** ** Transaction accounting and throttling *)

Lemma land_lor_same p m : Z.land (Z.lor p m) m = m.
Proof.
  apply Z.bits_inj'. intros n Hn. rewrite Z.land_spec, Z.lor_spec.
  destruct (Z.testbit p n), (Z.testbit m n); reflexivity.
Qed.

Lemma land_not64_same p m : Z.land (Z.land p (not64 m)) m = 0.
Proof.
  apply Z.bits_inj'. intros n Hn. rewrite !Z.land_spec, Z.bits_0.
  unfold not64, wrap64.
  destruct (Z.lt_ge_cases n 64) as [Hlt|Hge].
  - rewrite Z.mod_pow2_bits_low by lia. rewrite Z.lnot_spec by lia.
    destruct (Z.testbit p n), (Z.testbit m n); reflexivity.
  - rewrite Z.mod_pow2_bits_high by lia.
    rewrite andb_false_r. reflexivity.
Qed.

Lemma onTransactionStarted_spec isSubRequest s t :
  transport_ s = Some t ->
  exists s',
    onTransactionStarted isSubRequest s = Ok s' /\
    inFlight_ s' = wrap64 (inFlight_ s + 1) /\
    realRequestsInFlight_ s' =
      (if isSubRequest then realRequestsInFlight_ s
       else wrap64 (realRequestsInFlight_ s + 1)) /\
    options_ s' = options_ s /\ state_ s' = state_ s /\
    pendingWrites_ s' = pendingWrites_ s /\
    (atCap s' ->
       pauseState_ s' = Z.lor (pauseState_ s) (reasonMask PAUSE_THROTTLED) /\
       transport_ s' =
         Some {| readCB := false; good := good t; eventBase := eventBase t |} /\
       events s' = events s ++ [EvSetReadCB false]) /\
    (~ atCap s' ->
       pauseState_ s' = pauseState_ s /\ transport_ s' = transport_ s /\
       events s' = events s).
Proof.
  intros Ht. unfold onTransactionStarted, pause, setReadCB, atCap.
  unfold_step.
  destruct isSubRequest; simpl;
    match goal with
    | |- context [if ?c then _ else _] => destruct c eqn:E
    end; simpl; rewrite ?Ht;
    (eexists; split; [reflexivity|]); simpl;
    repeat (split; [reflexivity|]).
  all: try (apply andb_prop in E as [E1 E2];
            apply Z.ltb_lt in E1; apply Z.leb_le in E2;
            split; [intros _; repeat split
                   | intros H; exfalso; apply H; split; assumption]).
  all: split; [intros [H1 H2]; apply Z.ltb_lt in H1; apply Z.leb_le in H2;
               rewrite H1, H2 in E; discriminate
              | intros _; repeat split; try assumption].
Qed.

Lemma onTransactionCompleted_spec isSubRequest s s' :
  onTransactionCompleted passive isSubRequest s = Ok s' ->
  0 < inFlight_ s /\
  (isSubRequest = false -> 0 < realRequestsInFlight_ s) /\
  inFlight_ s' = wrap64 (inFlight_ s - 1) /\
  realRequestsInFlight_ s' =
    (if isSubRequest then realRequestsInFlight_ s
     else wrap64 (realRequestsInFlight_ s - 1)) /\
  options_ s' = options_ s /\
  (0 < maxInFlight (options_ s) /\
   realRequestsInFlight_ s' < maxInFlight (options_ s) ->
   pauseState_ s' =
     Z.land (pauseState_ s) (not64 (reasonMask PAUSE_THROTTLED))) /\
  (~ (0 < maxInFlight (options_ s) /\
      realRequestsInFlight_ s' < maxInFlight (options_ s)) ->
   pauseState_ s' = pauseState_ s).
Proof.
  intros H. unfold onTransactionCompleted in H.
  apply andThen_Ok in H as (s1 & H1 & H).
  apply andThen_Ok in H as (s2 & H2 & H).
  apply andThen_Ok in H as (s3 & H3 & H).
  apply andThen_Ok in H as (s4 & H4 & H).
  apply checkClosed_closeFrame in H.
  destruct H as (Ho & _ & _ & Hp & Hi & Hr & _).
  rewrite Ho, Hp, Hi, Hr. clear Ho Hp Hi Hr s'.
  unfold assert in H1. destruct (0 <? inFlight_ s) eqn:Ei; [|discriminate].
  apply Z.ltb_lt in Ei. injection H1 as <-.
  unfold modify in H2. injection H2 as <-.
  assert (Hs3 : (isSubRequest = false -> 0 < realRequestsInFlight_ s) /\
                inFlight_ s3 = wrap64 (inFlight_ s - 1) /\
                realRequestsInFlight_ s3 =
                  (if isSubRequest then realRequestsInFlight_ s
                   else wrap64 (realRequestsInFlight_ s - 1)) /\
                options_ s3 = options_ s /\ pauseState_ s3 = pauseState_ s).
  { clear H4. destruct isSubRequest; simpl in H3.
    - unfold skip in H3. injection H3 as <-. simpl.
      split; [discriminate|]. repeat split.
    - exec_hyps. repeat split. intros _. apply Z.ltb_lt. assumption. }
  destruct Hs3 as (Hreal & Hi3 & Hr3 & Ho3 & Hp3).
  split; [exact Ei|]. split; [exact Hreal|].
  rewrite <- Ho3, <- Hr3, <- Hi3, <- Hp3.
  destruct ((0 <? maxInFlight (options_ s3))
            && (realRequestsInFlight_ s3 <? maxInFlight (options_ s3))) eqn:E.
  - apply andb_prop in E as [E1 E2].
    apply Z.ltb_lt in E1. apply Z.ltb_lt in E2.
    pose proof (resume_pauseState _ _ _ H4) as Hp4.
    assert (Hf : inFlight_ s4 = inFlight_ s3 /\
                 realRequestsInFlight_ s4 = realRequestsInFlight_ s3 /\
                 options_ s4 = options_ s3).
    { clear -H4. unfold resume, setReadCB in H4.
      exec_hyps; simpl; repeat split. }
    destruct Hf as (-> & -> & ->).
    split; [reflexivity|]. split; [reflexivity|]. split; [reflexivity|].
    split; [intros _; exact Hp4 | intros Hn; exfalso; apply Hn; lia].
  - injection H4 as <-. repeat split.
    intros [H1 H2]. apply Z.ltb_lt in H1. apply Z.ltb_lt in H2.
    rewrite H1, H2 in E. discriminate.
Qed.

Lemma resume_state r s s' :
  resume r s = Ok s' ->
  state_ s' = state_ s /\ (transport_ s' = None <-> transport_ s = None).
Proof.
  unfold resume, setReadCB. intros H. exec_hyps; simpl; split;
    try reflexivity; try tauto;
    split; intros; congruence.
Qed.

Lemma checkClosed_streaming env s :
  state_ s = STREAMING -> checkClosed env s = checkClosed passive s.
Proof.
  intros Hs. unfold checkClosed, andThen, bind, assert.
  destruct (inFlight_ s =? 0); [|reflexivity].
  destruct (bool_decide (pendingWrites_ s = [])); [|reflexivity].
  rewrite Hs. reflexivity.
Qed.

Lemma andThen_ext_on (P : McServerSession -> Prop) (f g g' : step) s :
  P s ->
  (forall s s', P s -> f s = Ok s' -> P s') ->
  (forall s, P s -> g s = g' s) ->
  (f >=> g) s = (f >=> g') s.
Proof.
  intros Hs Hf Hg. unfold andThen, bind.
  destruct (f s) as [s1|] eqn:E; [|reflexivity].
  apply Hg. eapply Hf; eassumption.
Qed.

(** While the session streams, completing a transaction calls no
    collaborator. *)
Lemma onTransactionCompleted_streaming env isSubRequest s :
  state_ s = STREAMING ->
  onTransactionCompleted env isSubRequest s =
  onTransactionCompleted passive isSubRequest s.
Proof.
  intros Hs. unfold onTransactionCompleted.
  revert s Hs.
  repeat (intros s Hs;
          apply (andThen_ext_on (fun s => state_ s = STREAMING));
          [exact Hs | clear s Hs; intros s s' Hs H | clear s Hs]).
  - unfold assert in H. destruct (0 <? inFlight_ s); congruence.
  - unfold modify in H. injection H as <-. exact Hs.
  - destruct isSubRequest; simpl in H; exec_hyps; assumption.
  - destruct ((0 <? maxInFlight (options_ s))
              && (realRequestsInFlight_ s <? maxInFlight (options_ s))).
    + apply resume_state in H as [-> _]. exact Hs.
    + injection H as <-. exact Hs.
  - intros s Hs. apply checkClosed_streaming. exact Hs.
Qed.

Lemma checkClosed_streaming_id s s' :
  state_ s = STREAMING -> checkClosed passive s = Ok s' -> s' = s.
Proof.
  intros Hs H. unfold checkClosed in H. exec_facts; congruence.
Qed.

Lemma onTransactionCompleted_streaming_state isSubRequest s s' :
  state_ s = STREAMING ->
  onTransactionCompleted passive isSubRequest s = Ok s' ->
  state_ s' = STREAMING /\ (transport_ s' = None <-> transport_ s = None).
Proof.
  intros Hs H. unfold onTransactionCompleted in H.
  apply andThen_Ok in H as (s1 & H1 & H).
  apply andThen_Ok in H as (s2 & H2 & H).
  apply andThen_Ok in H as (s3 & H3 & H).
  apply andThen_Ok in H as (s4 & H4 & H).
  assert (H13 : state_ s3 = STREAMING /\ transport_ s3 = transport_ s).
  { clear H4 H. destruct isSubRequest; simpl in H3; exec_hyps;
      split; congruence. }
  destruct H13 as [Hs3 Ht3].
  assert (H4' : state_ s4 = STREAMING /\
                (transport_ s4 = None <-> transport_ s3 = None)).
  { destruct ((0 <? maxInFlight (options_ s3))
              && (realRequestsInFlight_ s3 <? maxInFlight (options_ s3))).
    - apply resume_state in H4 as [-> Ht]. split; assumption.
    - injection H4 as <-. split; [assumption | tauto]. }
  destruct H4' as [Hs4 Ht4].
  apply checkClosed_streaming_id in H; [|exact Hs4]. subst s'.
  rewrite <- Ht3. split; assumption.
Qed.

Lemma throttled_lor p s :
  pauseState_ s = Z.lor p (reasonMask PAUSE_THROTTLED) -> throttled s.
Proof.
  intros H. unfold throttled. rewrite H, land_lor_same. discriminate.
Qed.

Lemma throttled_cleared p s :
  pauseState_ s = Z.land p (not64 (reasonMask PAUSE_THROTTLED)) ->
  ~ throttled s.
Proof.
  intros H. unfold throttled. rewrite H, land_not64_same. tauto.
Qed.

Lemma classic_atCap s : atCap s \/ ~ atCap s.
Proof. unfold atCap. lia. Qed.

Lemma classic_below s s' :
  (0 < maxInFlight (options_ s) /\
   realRequestsInFlight_ s' < maxInFlight (options_ s)) \/
  ~ (0 < maxInFlight (options_ s) /\
     realRequestsInFlight_ s' < maxInFlight (options_ s)).
Proof. lia. Qed.

Lemma accounted_started n isSubRequest s s' :
  accounted n s -> n + 1 < 2 ^ 64 ->
  onTransactionStarted isSubRequest s = Ok s' ->
  accounted (n + 1) s'.
Proof.
  intros (Hs & [t Ht] & Hr & Hinv) Hn H.
  destruct (onTransactionStarted_spec isSubRequest s t Ht)
    as (s'' & H' & _ & Hr' & Ho & Hs' & _ & Hcap & Hnocap).
  assert (s'' = s') by congruence. subst s''.
  assert (Hreal : realRequestsInFlight_ s <= realRequestsInFlight_ s' <= n + 1).
  { rewrite Hr'. destruct isSubRequest; [lia|].
    rewrite wrap64_small by lia. lia. }
  unfold accounted. rewrite Hs'. split; [exact Hs|].
  destruct (classic_atCap s') as [Hc|Hc].
  - destruct (Hcap Hc) as (Hp & Ht' & _).
    split; [eauto|]. split; [lia|].
    split; [intros _; exact Hc | intros _; eapply throttled_lor; exact Hp].
  - destruct (Hnocap Hc) as (Hp & Ht' & _).
    split; [rewrite Ht'; eauto|]. split; [lia|].
    split; [|tauto]. intros Hth. exfalso.
    assert (Hth0 : throttled s) by (unfold throttled in *; congruence).
    apply Hinv in Hth0. apply Hc. unfold atCap in *. rewrite Ho. lia.
Qed.

Lemma accounted_completed env n isSubRequest s s' :
  accounted n s -> n < 2 ^ 64 ->
  onTransactionCompleted env isSubRequest s = Ok s' ->
  accounted n s'.
Proof.
  intros (Hs & [t Ht] & Hr & Hinv) Hn H.
  rewrite onTransactionCompleted_streaming in H by exact Hs.
  destruct (onTransactionCompleted_streaming_state _ _ _ Hs H) as [Hs' Ht'].
  destruct (onTransactionCompleted_spec _ _ _ H)
    as (_ & Hpos & _ & Hr' & Ho & Hres & Hnores).
  assert (Hreal : 0 <= realRequestsInFlight_ s' <= realRequestsInFlight_ s).
  { rewrite Hr'. destruct isSubRequest; [lia|].
    specialize (Hpos eq_refl). rewrite wrap64_small by lia. lia. }
  unfold accounted. split; [exact Hs'|]. split.
  { destruct (transport_ s') eqn:E; [eauto|].
    destruct Ht' as [Ht' _]. specialize (Ht' eq_refl). congruence. }
  split; [lia|].
  destruct (classic_below s s') as [Hb|Hb].
  - specialize (Hres Hb). apply throttled_cleared in Hres.
    split; [tauto|]. intros Hc. exfalso. unfold atCap in Hc.
    rewrite Ho in Hc. lia.
  - specialize (Hnores Hb).
    assert (Hth : throttled s' <-> throttled s)
      by (unfold throttled; rewrite Hnores; tauto).
    rewrite Hth, Hinv. unfold atCap. rewrite Ho. split; lia.
Qed.

Lemma accounted_mono n m s : n <= m -> accounted n s -> accounted m s.
Proof.
  unfold accounted. intros Hnm (Hs & Ht & Hr & Hinv).
  split; [exact Hs|]. split; [exact Ht|]. split; [lia | exact Hinv].
Qed.

Lemma accounted_create opts p fifo t s0 :
  create opts p fifo t = Ok s0 -> accounted 0 s0.
Proof.
  intros H. unfold create, setReadCB in H. vm_compute in H.
  injection H as <-. unfold accounted, throttled, atCap. simpl.
  split; [reflexivity|]. split; [eauto|]. split; [lia|].
  split; [intros H; exfalso; apply H; reflexivity | lia].
Qed.

Lemma accounted_run env cs : forall n s s',
  forallb isTransactionCall cs = true ->
  accounted n s ->
  n + Z.of_nat (length cs) < 2 ^ 64 ->
  run env cs s = Ok s' ->
  accounted (n + Z.of_nat (length cs)) s'.
Proof.
  induction cs as [|c cs IH]; intros n s s' Hcs Hacc Hn H.
  - simpl in *. injection H as <-. rewrite Z.add_0_r. exact Hacc.
  - simpl in Hcs. apply andb_prop in Hcs as [Hc Hcs].
    simpl in H. apply andThen_Ok in H as (s1 & H1 & H).
    assert (Hacc1 : accounted (n + 1) s1).
    { destruct c; try discriminate; simpl in H1.
      - eapply accounted_started; [exact Hacc | simpl length in Hn; lia
                                  | exact H1].
      - eapply (accounted_mono n); [lia|].
        eapply accounted_completed; [exact Hacc | simpl length in Hn; lia
                                    | exact H1]. }
    replace (n + Z.of_nat (length (c :: cs)))
      with ((n + 1) + Z.of_nat (length cs)) by (simpl length; lia).
    eapply IH; [exact Hcs | exact Hacc1 | simpl length in Hn; lia | exact H].
Qed.

Lemma onTransactionCompleted_Ok isSubRequest s t :
  0 < inFlight_ s < 2 ^ 64 ->
  (isSubRequest = false -> 0 < realRequestsInFlight_ s) ->
  transport_ s = Some t ->
  (inFlight_ s = 1 -> pendingWrites_ s = []) ->
  exists s', onTransactionCompleted passive isSubRequest s = Ok s'.
Proof.
  intros Hi Hr Ht Hp.
  unfold onTransactionCompleted, resume, checkClosed, setReadCB.
  unfold_step. simpl.
  rewrite (proj2 (Z.ltb_lt 0 (inFlight_ s))) by lia. simpl.
  assert (Hreal : isSubRequest = true \/ (0 <? realRequestsInFlight_ s) = true).
  { destruct isSubRequest; [left; reflexivity|].
    right. apply Z.ltb_lt. apply Hr. reflexivity. }
  assert (Hpend : (wrap64 (inFlight_ s - 1) =? 0) = false \/
                  pendingWrites_ s = []).
  { destruct (Z.eq_dec (inFlight_ s) 1) as [H1|H1]; [right; auto|].
    left. apply Z.eqb_neq. rewrite wrap64_small by lia. lia. }
  destruct isSubRequest; simpl;
    [|destruct Hreal as [Hreal|Hreal]; [discriminate|rewrite Hreal; simpl]];
    repeat (match goal with
            | |- context [if ?c then _ else _] =>
                let E := fresh "E" in destruct c eqn:E; simpl
            | |- context [match transport_ ?x with _ => _ end] =>
                rewrite Ht; simpl
            end);
    try (eexists; reflexivity);
    exfalso; destruct Hpend as [Hpend|Hpend]; try congruence;
    bool_hyps; congruence.
Qed.

(** C3: [onTransactionStarted] increments [inFlight_], and
    [realRequestsInFlight_] unless the request is a sub-request, and
    pauses with [PAUSE_THROTTLED] when the cap is enabled and reached;
    [onTransactionCompleted] decrements them symmetrically and resumes
    [PAUSE_THROTTLED] when the real count is below the cap; in every state
    reached from a new session by such calls the [Throttled] bit is set
    exactly when [realRequestsInFlight_ >= maxInFlight > 0]. *)
Theorem transaction_accounting :
  (forall isSubRequest s t,
     transport_ s = Some t ->
     exists s',
       onTransactionStarted isSubRequest s = Ok s' /\
       inFlight_ s' = wrap64 (inFlight_ s + 1) /\
       realRequestsInFlight_ s' =
         (if isSubRequest then realRequestsInFlight_ s
          else wrap64 (realRequestsInFlight_ s + 1)) /\
       (atCap s' ->
          pauseState_ s' =
            Z.lor (pauseState_ s) (reasonMask PAUSE_THROTTLED) /\
          transport_ s' =
            Some {| readCB := false; good := good t;
                    eventBase := eventBase t |}) /\
       (~ atCap s' ->
          pauseState_ s' = pauseState_ s /\ transport_ s' = transport_ s)) /\
  (forall isSubRequest s t,
     0 < inFlight_ s < 2 ^ 64 ->
     (isSubRequest = false -> 0 < realRequestsInFlight_ s) ->
     transport_ s = Some t ->
     (inFlight_ s = 1 -> pendingWrites_ s = []) ->
     exists s',
       onTransactionCompleted passive isSubRequest s = Ok s' /\
       inFlight_ s' = wrap64 (inFlight_ s - 1) /\
       realRequestsInFlight_ s' =
         (if isSubRequest then realRequestsInFlight_ s
          else wrap64 (realRequestsInFlight_ s - 1)) /\
       (0 < maxInFlight (options_ s) /\
        realRequestsInFlight_ s' < maxInFlight (options_ s) ->
        pauseState_ s' =
          Z.land (pauseState_ s) (not64 (reasonMask PAUSE_THROTTLED))) /\
       (~ (0 < maxInFlight (options_ s) /\
           realRequestsInFlight_ s' < maxInFlight (options_ s)) ->
        pauseState_ s' = pauseState_ s)) /\
  (forall env opts p fifo t s0 cs s,
     create opts p fifo t = Ok s0 ->
     forallb isTransactionCall cs = true ->
     Z.of_nat (length cs) < 2 ^ 64 ->
     run env cs s0 = Ok s ->
     (throttled s <-> atCap s)).
Proof.
  split; [|split].
  - intros isSubRequest s t Ht.
    destruct (onTransactionStarted_spec isSubRequest s t Ht)
      as (s' & H & Hi & Hr & _ & _ & _ & Hcap & Hnocap).
    exists s'. repeat (split; [assumption|]). split.
    + intros Hc. destruct (Hcap Hc) as (? & ? & _). split; assumption.
    + intros Hc. destruct (Hnocap Hc) as (? & ? & _). split; assumption.
  - intros isSubRequest s t Hi Hr Ht Hp.
    destruct (onTransactionCompleted_Ok isSubRequest s t Hi Hr Ht Hp)
      as [s' H].
    destruct (onTransactionCompleted_spec _ _ _ H)
      as (_ & _ & Hi' & Hr' & _ & Hres & Hnores).
    exists s'. repeat (split; [assumption|]). exact Hnores.
  - intros env opts p fifo t s0 cs s Hc Hcs Hlen H.
    apply accounted_create in Hc.
    pose proof (accounted_run env cs 0 s0 s Hcs Hc ltac:(lia) H) as Hacc.
    destruct Hacc as (_ & _ & _ & Hinv). exact Hinv.
Qed.

Lemma transaction_accounting_witness :
  exists s0 s,
    create (batchedOptions 2) asciiParser false sampleTransport = Ok s0 /\
    forallb isTransactionCall sampleTransactions = true /\
    Z.of_nat (length sampleTransactions) < 2 ^ 64 /\
    run passive sampleTransactions s0 = Ok s /\
    (throttled s <-> atCap s).
Proof.
  destruct transaction_accounting as (_ & _ & Hinv).
  eexists. eexists.
  split; [vm_compute; reflexivity|].
  split; [reflexivity|].
  split; [simpl; lia|].
  split; [vm_compute; reflexivity|].
  eapply (Hinv passive (batchedOptions 2) asciiParser false sampleTransport
            _ sampleTransactions);
    [vm_compute; reflexivity | reflexivity | simpl; lia
    | vm_compute; reflexivity].
Defined.

(** ** Request ids and the multi-op parent *)

Lemma completeWriteLoop_writeFrame count : forall s s',
  completeWriteLoop passive count s = Ok s' -> writeFrame s s'.
Proof.
  induction count as [|count IH]; intros s s' H; simpl in H.
  - injection H as <-. apply writeFrame_refl.
  - destruct (writeBufs_ s) as [[|wb q]|]; try discriminate.
    unfold_step. simpl in H. apply IH in H.
    eapply writeFrame_trans; [|exact H]. frame_done.
Qed.

Lemma sendWritesLoop_writeFrame pw : forall iovs count s iovs' count' s',
  sendWritesLoop pw iovs count s = Ok (iovs', count', s') -> writeFrame s s'.
Proof.
  induction pw as [|wb rest IH]; intros iovs count s iovs' count' s' H;
    simpl in H.
  - injection H as _ _ <-. apply writeFrame_refl.
  - destruct (writeBufs_ s); [|discriminate].
    apply IH in H. eapply writeFrame_trans; [|exact H]. frame_done.
Qed.

(** Replace the loops met by [exec_hyps] by what they leave alone. *)
Ltac loop_frames :=
  repeat match goal with
    | H : replyLoop passive _ _ = Ok _ |- _ =>
        apply replyLoop_writeFrame in H
    | H : completeWriteLoop passive _ _ = Ok _ |- _ =>
        apply completeWriteLoop_writeFrame in H
    | H : sendWritesLoop _ _ _ _ = Ok _ |- _ =>
        apply sendWritesLoop_writeFrame in H
    | H : queueWrite passive _ _ = Ok _ |- _ =>
        apply queueWrite_writeFrame in H
    end;
  repeat match goal with
    | H : writeFrame _ _ |- _ =>
        let new := fresh "new" in
        destruct H as (?&?&?&?&?&?&?&?&?&?&new&?&?)
    end;
  simpl in *.

Ltac unfold_methods :=
  unfold exec, readEOF, readErr, readDataAvailable, writeErr, writeSuccess,
    completeWrite, sendWrites, parseError, typedRequestReady, requestReady,
    dispatch, ctxReply, multiOpEnd, close, processMultiOpEnd, reply,
    onTransactionCompleted, checkClosed, onTransactionStarted, resume, pause,
    setReadCB, ensureWriteBufs in *.

Lemma isPartOfMultiget_true p op :
  isPartOfMultiget p op = true <->
  p = mc_ascii_protocol /\
  (op = mc_op_get \/ op = mc_op_gets \/ op = mc_op_lease_get \/
   op = mc_op_metaget).
Proof.
  unfold isPartOfMultiget. split.
  - destruct (bool_decide (p = mc_ascii_protocol)) eqn:Ep; simpl;
      [|discriminate].
    apply bool_decide_eq_true_1 in Ep.
    destruct op; simpl; intros H; try discriminate; split; auto.
  - intros [-> Hop]. simpl.
    destruct Hop as [ -> | [ -> | [ -> | -> ] ] ]; reflexivity.
Qed.

Lemma ctxOperation_withAsciiKey p req ctx :
  ctxOperation (withAsciiKey p req ctx) = ctxOperation ctx.
Proof.
  unfold withAsciiKey. destruct (bool_decide (p = mc_ascii_protocol));
    reflexivity.
Qed.

(** A request of the multi-get family is not [quit]. *)
Ltac multiget_not_quit :=
  exfalso;
  repeat match goal with
    | H : context [ctxOperation (withAsciiKey _ _ _)] |- _ =>
        rewrite ctxOperation_withAsciiKey in H; simpl in H
    end;
  match goal with
  | H : isPartOfMultiget _ _ = true |- _ =>
      apply isPartOfMultiget_true in H;
      destruct H as [_ [?|[?|[?|?]]]]; congruence
  end.

Lemma exec_idFrame c s s' : exec passive c s = Ok s' -> idFrame s s'.
Proof.
  intros H. destruct c; unfold_methods; exec_facts; loop_frames;
    unfold idFrame; simpl;
    repeat match goal with H : tailReqid_ _ = _ |- _ => rewrite H end;
    repeat match goal with H : currentMultiop_ _ = _ |- _ => rewrite H end;
    simpl; auto 7; multiget_not_quit.
Qed.

Lemma idsInOrder_exec c n s s' :
  idsInOrder n s -> 2 * (n + 1) < 2 ^ 64 ->
  exec passive c s = Ok s' ->
  idsInOrder (n + 1) s'.
Proof.
  intros [Ht Hm] Hn H. apply exec_idFrame in H as [Htail Hmop].
  assert (Ht' : tailReqid_ s <= tailReqid_ s' <= tailReqid_ s + 2 /\
                (tailReqid_ s' = wrap64 (wrap64 (tailReqid_ s + 1) + 1) ->
                 tailReqid_ s' = tailReqid_ s + 2)).
  { rewrite (wrap64_small (tailReqid_ s + 1)) in * by lia.
    rewrite (wrap64_small (tailReqid_ s + 1 + 1)) in * by lia.
    destruct Htail as [->|[->| ->]]; lia. }
  destruct Ht' as [Ht' Ht2]. split; [lia|].
  intros m Hs'. destruct Hmop as [Hmop|[Hmop|[Hmop Htl]]].
  - rewrite Hmop in Hs'. specialize (Hm m Hs'). lia.
  - congruence.
  - rewrite Hmop in Hs'. injection Hs' as <-. simpl.
    specialize (Ht2 Htl). lia.
Qed.

Lemma idsInOrder_create opts p fifo t s0 :
  create opts p fifo t = Ok s0 -> idsInOrder 0 s0.
Proof.
  intros H. vm_compute in H. injection H as <-.
  split; simpl; [lia | discriminate].
Qed.

Lemma idsInOrder_run cs : forall n s s',
  idsInOrder n s ->
  2 * (n + Z.of_nat (length cs)) < 2 ^ 64 ->
  run passive cs s = Ok s' ->
  idsInOrder (n + Z.of_nat (length cs)) s'.
Proof.
  induction cs as [|c cs IH]; intros n s s' Hinv Hn H.
  - simpl in *. injection H as <-. rewrite Z.add_0_r. exact Hinv.
  - simpl in H. apply andThen_Ok in H as (s1 & H1 & H).
    rewrite length_cons in *.
    replace (n + Z.of_nat (S (length cs)))
      with ((n + 1) + Z.of_nat (length cs)) in * by lia.
    eapply IH; [|exact Hn|exact H].
    eapply idsInOrder_exec; [exact Hinv | lia | exact H1].
Qed.

Lemma processMultiOpEnd_clears env s s' :
  processMultiOpEnd env s = Ok s' -> currentMultiop_ s' = None.
Proof.
  unfold processMultiOpEnd. intros H. exec_hyps. reflexivity.
Qed.

Lemma close_without_multiop env s :
  currentMultiop_ s = None ->
  close env s =
    ((fun s =>
        if bool_decide (state_ s = STREAMING) then
          (modify (set_state_ CLOSING)
           >=> callIfSet EvOnCloseStart (onCloseStart_ env)) s
        else Ok s)
     >=> checkClosed env) s.
Proof.
  intros Hm. unfold close. unfold andThen at 1. rewrite Hm. reflexivity.
Qed.

(** Closing in the middle of a multi-op first processes its end. *)
Lemma close_in_multiop env s m :
  currentMultiop_ s = Some m ->
  close env s = bind (processMultiOpEnd env s) (close env).
Proof.
  intros Hm.
  destruct (processMultiOpEnd env s) as [s1|] eqn:E.
  - pose proof (processMultiOpEnd_clears _ _ _ E) as Hc. simpl.
    rewrite (close_without_multiop env s1 Hc).
    unfold close. unfold andThen at 1. rewrite Hm, E. reflexivity.
  - simpl. unfold close. unfold andThen at 1. rewrite Hm, E. reflexivity.
Qed.

Lemma processMultiOpEnd_passive s m :
  currentMultiop_ s = Some m ->
  exists s',
    processMultiOpEnd passive s = Ok s' /\
    events s' = events s ++ [EvRecordEnd m (tailReqid_ s)] /\
    tailReqid_ s' = wrap64 (tailReqid_ s + 1) /\
    currentMultiop_ s' = None.
Proof.
  intros Hm. unfold processMultiOpEnd. rewrite Hm. unfold_step. simpl.
  eexists. split; [reflexivity|]. repeat split.
Qed.

(** C5: processing the multi-op end records the aggregator's completion
    against the id [tailReqid_++], whatever the aggregator then does, and
    clears [currentMultiop_]; in a session run from creation that id lies
    above the parent id reserved at the multi-op's creation; and [close],
    when a multi-op is active, first does exactly what the end marker
    does. *)
Theorem multi_op_end_consumes_fresh_id :
  (forall env s m,
     currentMultiop_ s = Some m ->
     processMultiOpEnd env s =
       bind (multiop_recordEnd env m (tailReqid_ s)
               (emit (EvRecordEnd m (tailReqid_ s))
                  (set_tailReqid_ (wrap64 (tailReqid_ s + 1)) s)))
            (fun s' => Ok (set_currentMultiop_ None s'))) /\
  (forall s m,
     currentMultiop_ s = Some m ->
     exists s',
       processMultiOpEnd passive s = Ok s' /\
       events s' = events s ++ [EvRecordEnd m (tailReqid_ s)] /\
       tailReqid_ s' = wrap64 (tailReqid_ s + 1) /\
       currentMultiop_ s' = None) /\
  (forall opts p fifo t s0 cs s m,
     create opts p fifo t = Ok s0 ->
     2 * Z.of_nat (length cs) < 2 ^ 64 ->
     run passive cs s0 = Ok s ->
     currentMultiop_ s = Some m ->
     parentReqid m < tailReqid_ s) /\
  (forall env s m,
     currentMultiop_ s = Some m ->
     close env s = bind (processMultiOpEnd env s) (close env) /\
     (state_ s = STREAMING ->
      close env s = bind (multiOpEnd env s) (close env))).
Proof.
  split; [|split; [|split]].
  - intros env s m Hm. unfold processMultiOpEnd. rewrite Hm. reflexivity.
  - apply processMultiOpEnd_passive.
  - intros opts p fifo t s0 cs s m Hc Hlen H Hm.
    apply idsInOrder_create in Hc.
    pose proof (idsInOrder_run cs 0 s0 s Hc ltac:(lia) H) as [_ Hinv].
    specialize (Hinv m Hm). lia.
  - intros env s m Hm. split; [eapply close_in_multiop; exact Hm|].
    intros Hs. unfold multiOpEnd.
    rewrite bool_decide_eq_true_2 by exact Hs. simpl.
    eapply close_in_multiop; exact Hm.
Qed.

Lemma multi_op_end_consumes_fresh_id_witness :
  exists s0 s s',
    create (batchedOptions 0) asciiParser false sampleTransport = Ok s0 /\
    run passive sampleMultiGet s0 = Ok s /\
    currentMultiop_ s = Some {| parentReqid := 0 |} /\
    tailReqid_ s = 3 /\
    parentReqid {| parentReqid := 0 |} < tailReqid_ s /\
    processMultiOpEnd passive s = Ok s' /\
    events s' = events s ++ [EvRecordEnd {| parentReqid := 0 |} 3] /\
    currentMultiop_ s' = None.
Proof.
  destruct multi_op_end_consumes_fresh_id as (_ & Hend & Hfresh & _).
  eexists. eexists.
  assert (Hc : create (batchedOptions 0) asciiParser false sampleTransport
               = Ok (sampleSessionOf (create (batchedOptions 0) asciiParser
                                        false sampleTransport)))
    by (vm_compute; reflexivity).
  assert (Hr : run passive sampleMultiGet
                 (sampleSessionOf (create (batchedOptions 0) asciiParser
                                     false sampleTransport))
               = Ok (sampleSessionOf
                       (bind (create (batchedOptions 0) asciiParser false
                                sampleTransport)
                             (run passive sampleMultiGet))))
    by (vm_compute; reflexivity).
  assert (Hm : currentMultiop_
                 (sampleSessionOf
                    (bind (create (batchedOptions 0) asciiParser false
                             sampleTransport)
                          (run passive sampleMultiGet)))
               = Some {| parentReqid := 0 |})
    by (vm_compute; reflexivity).
  destruct (Hend _ _ Hm) as (s' & H' & He & _ & Hn).
  exists s'.
  split; [exact Hc|]. split; [exact Hr|]. split; [exact Hm|].
  split; [vm_compute; reflexivity|].
  split; [exact (Hfresh _ _ _ _ _ sampleMultiGet _ _ Hc
                   ltac:(simpl; lia) Hr Hm)|].
  split; [exact H'|]. split; [|exact Hn].
  rewrite He. vm_compute. reflexivity.
Defined.

Lemma writeEvents_parentPrecedes new :
  forallb isWriteEvent new = true -> Forall parentPrecedes new.
Proof.
  induction new as [|e new IH]; intros H; [constructor|].
  simpl in H. apply andb_prop in H as [He H].
  constructor; [|apply IH; exact H].
  destruct e; try discriminate; exact I.
Qed.

Ltac events_done :=
  repeat match goal with H : events _ = _ |- _ => rewrite H end;
  rewrite ?Forall_app; repeat split;
  try assumption;
  try (apply writeEvents_parentPrecedes; assumption);
  repeat (constructor; simpl; try exact I).

Ltac ids_finish :=
  try assumption;
  try match goal with
      | Hooo : true = true -> _ |- _ => specialize (Hooo eq_refl)
      | Hooo : outOfOrder ?p = true -> _, E : outOfOrder ?p = true |- _ =>
          specialize (Hooo E)
      end;
  repeat match goal with
    | H : currentMultiop_ ?x = _ |- context [currentMultiop_ ?x] => rewrite H
    end;
  try exact I; try (intros; assumption); try (intros; congruence);
  try match goal with
      | Hm : forall m, currentMultiop_ ?x = Some m -> _
        |- context [currentMultiop_ ?x] =>
          let m' := fresh "m'" in
          destruct (currentMultiop_ x) as [m'|];
          [specialize (Hm m' eq_refl) | exact I]
      end;
  try match goal with
      | Hm : forall m, currentMultiop_ ?x = Some m -> _,
        E : currentMultiop_ ?x = Some ?m0 |- _ => specialize (Hm m0 E)
      | Hm : forall m, Some ?m0 = Some m -> _ |- _ =>
          specialize (Hm m0 eq_refl)
      end;
  try (rewrite wrap64_small by lia); try lia.

Lemma exec_parentPrecedes c n s s' :
  parentsFirst n s -> 2 * (n + 1) < 2 ^ 64 ->
  exec passive c s = Ok s' ->
  (outOfOrder (parser_ s') = true -> currentMultiop_ s' = None) /\
  Forall parentPrecedes (events s').
Proof.
  intros ([Ht Hm] & Hooo & Hev) Hn H.
  destruct c; unfold_methods; exec_facts; loop_frames;
    (split;
     [ repeat match goal with H : parser_ _ = _ |- _ => rewrite H end;
       repeat match goal with H : currentMultiop_ _ = _ |- _ => rewrite H end;
       simpl; try assumption; try (intros; congruence); try reflexivity
     | events_done ]).
  all: try multiget_not_quit.
  all: ids_finish.
Qed.

Lemma parentsFirst_create opts p fifo t s0 :
  create opts p fifo t = Ok s0 -> parentsFirst 0 s0.
Proof.
  intros H. split; [eapply idsInOrder_create; exact H|].
  vm_compute in H. injection H as <-. simpl. split; [reflexivity|].
  repeat constructor.
Qed.

Lemma parentsFirst_run cs : forall n s s',
  parentsFirst n s ->
  2 * (n + Z.of_nat (length cs)) < 2 ^ 64 ->
  run passive cs s = Ok s' ->
  parentsFirst (n + Z.of_nat (length cs)) s'.
Proof.
  induction cs as [|c cs IH]; intros n s s' Hinv Hn H.
  - simpl in *. injection H as <-. rewrite Z.add_0_r. exact Hinv.
  - simpl in H. apply andThen_Ok in H as (s1 & H1 & H).
    rewrite length_cons in *.
    replace (n + Z.of_nat (S (length cs)))
      with ((n + 1) + Z.of_nat (length cs)) in * by lia.
    eapply IH; [|exact Hn|exact H].
    split.
    + eapply idsInOrder_exec; [apply Hinv | lia | exact H1].
    + eapply exec_parentPrecedes; [exact Hinv | lia | exact H1].
Qed.

(** C6: a request delivered while streaming keeps the parser's id when the
    parser is out of order; otherwise it gets [tailReqid_++], and when it
    belongs to the ASCII multi-get family and no multi-op is active, a
    parent is created first with an id of its own, so that in a session
    run from creation every context under a parent has an id above the
    parent's. *)
Theorem requestReady_assigns_ids :
  (forall env req operation reqid result noreply s,
     state_ s = STREAMING ->
     outOfOrder (parser_ s) = true ->
     requestReady env req operation reqid result noreply s =
       let ctx := {| ctxOperation := operation; ctxReqid := reqid;
                     ctxNoreply := noreply; ctxParent := currentMultiop_ s;
                     ctxAsciiKey := None |} in
       (call (EvCtxNew ctx) (ctx_construct env ctx)
        >=> fun s1 =>
          dispatch env (withAsciiKey (protocol (parser_ s1)) req ctx)
            req result s1) s) /\
  (forall env req operation reqid result noreply s,
     state_ s = STREAMING ->
     outOfOrder (parser_ s) = false ->
     isPartOfMultiget (protocol (parser_ s)) operation = false \/
     currentMultiop_ s <> None ->
     requestReady env req operation reqid result noreply s =
       let ctx := {| ctxOperation := operation; ctxReqid := tailReqid_ s;
                     ctxNoreply := noreply; ctxParent := currentMultiop_ s;
                     ctxAsciiKey := None |} in
       (call (EvCtxNew ctx) (ctx_construct env ctx)
        >=> fun s1 =>
          dispatch env (withAsciiKey (protocol (parser_ s1)) req ctx)
            req result s1)
         (set_tailReqid_ (wrap64 (tailReqid_ s + 1)) s)) /\
  (forall env req operation reqid result noreply s,
     state_ s = STREAMING ->
     outOfOrder (parser_ s) = false ->
     isPartOfMultiget (protocol (parser_ s)) operation = true ->
     currentMultiop_ s = None ->
     requestReady env req operation reqid result noreply s =
       let m := {| parentReqid := tailReqid_ s |} in
       bind (call (EvMultiOpNew m) (multiop_construct env m)
               (set_tailReqid_ (wrap64 (tailReqid_ s + 1)) s))
         (fun s1 =>
            let ctx := {| ctxOperation := operation;
                          ctxReqid := tailReqid_ s1;
                          ctxNoreply := noreply; ctxParent := Some m;
                          ctxAsciiKey := None |} in
            (call (EvCtxNew ctx) (ctx_construct env ctx)
             >=> fun s2 =>
               dispatch env (withAsciiKey (protocol (parser_ s2)) req ctx)
                 req result s2)
              (set_tailReqid_ (wrap64 (tailReqid_ s1 + 1))
                 (set_currentMultiop_ (Some m) s1)))) /\
  (forall opts p fifo t s0 cs s,
     create opts p fifo t = Ok s0 ->
     2 * Z.of_nat (length cs) < 2 ^ 64 ->
     run passive cs s0 = Ok s ->
     Forall parentPrecedes (events s)).
Proof.
  split; [|split; [|split]].
  - intros env req operation reqid result noreply s Hs Ho.
    unfold requestReady. rewrite bool_decide_eq_true_2 by exact Hs.
    rewrite Ho. reflexivity.
  - intros env req operation reqid result noreply s Hs Ho Hno.
    unfold requestReady. rewrite bool_decide_eq_true_2 by exact Hs.
    rewrite Ho. simpl.
    assert (Hc : isPartOfMultiget (protocol (parser_ s)) operation
                 && bool_decide (currentMultiop_ s = None) = false).
    { destruct Hno as [->|Hno]; [reflexivity|].
      rewrite bool_decide_eq_false_2 by exact Hno. apply andb_false_r. }
    rewrite Hc. reflexivity.
  - intros env req operation reqid result noreply s Hs Ho Hmg Hnone.
    unfold requestReady. rewrite bool_decide_eq_true_2 by exact Hs.
    rewrite Ho, Hmg. rewrite bool_decide_eq_true_2 by exact Hnone. simpl.
    unfold_step. simpl. unfold andThen, bind, modify.
    match goal with
    | |- context [multiop_construct env ?m ?x] =>
        destruct (multiop_construct env m x) as [s1|]; reflexivity
    end.
  - intros opts p fifo t s0 cs s Hc Hlen H.
    apply parentsFirst_create in Hc.
    pose proof (parentsFirst_run cs 0 s0 s Hc ltac:(lia) H) as (_ & _ & Hev).
    exact Hev.
Qed.

Lemma requestReady_assigns_ids_witness :
  exists s0 s,
    create (batchedOptions 0) asciiParser false sampleTransport = Ok s0 /\
    2 * Z.of_nat (length sampleMultiGet) < 2 ^ 64 /\
    run passive sampleMultiGet s0 = Ok s /\
    Forall parentPrecedes (events s).
Proof.
  destruct requestReady_assigns_ids as (_ & _ & _ & Hrun).
  assert (Hc : create (batchedOptions 0) asciiParser false sampleTransport
               = Ok (sampleSessionOf (create (batchedOptions 0) asciiParser
                                        false sampleTransport)))
    by (vm_compute; reflexivity).
  assert (Hr : run passive sampleMultiGet
                 (sampleSessionOf (create (batchedOptions 0) asciiParser
                                     false sampleTransport))
               = Ok (sampleSessionOf
                       (bind (create (batchedOptions 0) asciiParser false
                                sampleTransport)
                             (run passive sampleMultiGet))))
    by (vm_compute; reflexivity).
  eexists. eexists.
  split; [exact Hc|]. split; [simpl; lia|]. split; [exact Hr|].
  exact (Hrun _ _ _ _ _ sampleMultiGet _ Hc ltac:(simpl; lia) Hr).
Defined.

(** ** Parse errors *)

Lemma parseError_passive result reason s s' :
  state_ s = STREAMING ->
  parseError passive result reason s = Ok s' ->
  exists rest,
    events s' =
      events s
      ++ [EvCtxNew (mkCtx mc_op_unknown (tailReqid_ s));
          EvCtxReply (mkCtx mc_op_unknown (tailReqid_ s))
            (mkReplyWith result reason)]
      ++ rest /\
    length (List.filter isCtxReply rest) = 0%nat /\
    state_ s' <> STREAMING /\
    closeFrame s s'.
Proof.
  intros Hs H. unfold_methods. exec_facts; try contradiction;
    (eexists; split;
     [simpl; rewrite <- ?app_assoc; simpl; reflexivity|]);
    simpl; (split; [reflexivity|]); (split; [discriminate|]);
    unfold closeFrame; simpl; repeat split.
Qed.

Lemma parseError_Ok result reason s :
  state_ s = STREAMING ->
  inFlight_ s <> 0 \/ pendingWrites_ s = [] ->
  exists s', parseError passive result reason s = Ok s'.
Proof.
  intros Hs Hq. unfold_methods. unfold_step. simpl.
  rewrite bool_decide_eq_true_2 by exact Hs. simpl.
  assert (Hq' : (inFlight_ s =? 0) = false \/
                bool_decide (pendingWrites_ s = []) = true).
  { destruct Hq as [Hq|Hq]; [left; apply Z.eqb_neq; exact Hq|].
    right. apply bool_decide_eq_true_2. exact Hq. }
  destruct (currentMultiop_ s); simpl; rewrite Hs; simpl;
    unfold andThen, bind, modify, skip; simpl;
    (destruct Hq' as [Hq'|Hq']; rewrite Hq'; simpl;
     [eexists; reflexivity|]);
    destruct (inFlight_ s =? 0); simpl;
    destruct (transport_ s); simpl; eexists; reflexivity.
Qed.

(** C9: on a parse error while streaming the session constructs one fresh
    context with id [tailReqid_++], replies through it with the parser's
    result and reason, and closes; up to the reply only [tailReqid_] has
    changed, and with passive collaborators that is the only reply and the
    session has left [STREAMING]. *)
Theorem parseError_replies_once_then_closes :
  (forall env result reason s,
     state_ s = STREAMING ->
     parseError env result reason s =
       (call (EvCtxNew
                {| ctxOperation := mc_op_unknown; ctxReqid := tailReqid_ s;
                   ctxNoreply := false; ctxParent := None;
                   ctxAsciiKey := None |})
          (ctx_construct env
             {| ctxOperation := mc_op_unknown; ctxReqid := tailReqid_ s;
                ctxNoreply := false; ctxParent := None;
                ctxAsciiKey := None |})
        >=> call (EvCtxReply
                    {| ctxOperation := mc_op_unknown;
                       ctxReqid := tailReqid_ s;
                       ctxNoreply := false; ctxParent := None;
                       ctxAsciiKey := None |}
                    {| replyResult := result; replyValue := Some reason |})
              (ctx_reply env
                 {| ctxOperation := mc_op_unknown; ctxReqid := tailReqid_ s;
                    ctxNoreply := false; ctxParent := None;
                    ctxAsciiKey := None |}
                 {| replyResult := result; replyValue := Some reason |})
        >=> close env)
         (set_tailReqid_ (wrap64 (tailReqid_ s + 1)) s)) /\
  (forall result reason s,
     state_ s = STREAMING ->
     inFlight_ s <> 0 \/ pendingWrites_ s = [] ->
     exists s' rest,
       parseError passive result reason s = Ok s' /\
       events s' =
         events s
         ++ [EvCtxNew
               {| ctxOperation := mc_op_unknown; ctxReqid := tailReqid_ s;
                  ctxNoreply := false; ctxParent := None;
                  ctxAsciiKey := None |};
             EvCtxReply
               {| ctxOperation := mc_op_unknown; ctxReqid := tailReqid_ s;
                  ctxNoreply := false; ctxParent := None;
                  ctxAsciiKey := None |}
               {| replyResult := result; replyValue := Some reason |}]
         ++ rest /\
       length (List.filter isCtxReply rest) = 0%nat /\
       state_ s' <> STREAMING /\
       closeFrame s s').
Proof.
  split.
  - intros env result reason s Hs. unfold parseError.
    rewrite bool_decide_eq_true_2 by exact Hs. reflexivity.
  - intros result reason s Hs Hq.
    destruct (parseError_Ok result reason s Hs Hq) as [s' H].
    destruct (parseError_passive result reason s s' Hs H) as (rest & Hr).
    exists s', rest. split; [exact H | exact Hr].
Qed.

Lemma parseError_replies_once_then_closes_witness :
  exists s' rest,
    parseError passive (mc_res_other 7) "malformed request"
      (sampleSession 0) = Ok s' /\
    events s' =
      events (sampleSession 0)
      ++ [EvCtxNew
            {| ctxOperation := mc_op_unknown; ctxReqid := 0;
               ctxNoreply := false; ctxParent := None;
               ctxAsciiKey := None |};
          EvCtxReply
            {| ctxOperation := mc_op_unknown; ctxReqid := 0;
               ctxNoreply := false; ctxParent := None;
               ctxAsciiKey := None |}
            {| replyResult := mc_res_other 7;
               replyValue := Some "malformed request" |}]
      ++ rest /\
    length (List.filter isCtxReply rest) = 0%nat /\
    state_ s' <> STREAMING /\
    closeFrame (sampleSession 0) s'.
Proof.
  destruct parseError_replies_once_then_closes as [_ H].
  exact (H (mc_res_other 7) "malformed request"%string (sampleSession 0)
           eq_refl (or_intror eq_refl)).
Defined.

(** ** The life cycle *)

Lemma writeEvents_filter (p : Event -> bool) new :
  (forall e, isWriteEvent e = true -> p e = false) ->
  forallb isWriteEvent new = true ->
  List.filter p new = [].
Proof.
  intros Hp. induction new as [|e new IH]; intros H; [reflexivity|].
  simpl in H. apply andb_prop in H as [He H].
  simpl. rewrite (Hp e He). apply IH. exact H.
Qed.

Lemma writeEvents_not_handler e :
  isWriteEvent e = true -> isHandlerEvent e = false.
Proof. destruct e; simpl; congruence. Qed.

Lemma writeEvents_not_closeStart e :
  isWriteEvent e = true -> isCloseStart e = false.
Proof. destruct e; simpl; congruence. Qed.

Lemma writeEvents_not_closeFinish e :
  isWriteEvent e = true -> isCloseFinish e = false.
Proof. destruct e; simpl; congruence. Qed.

(** Evaluate a filter over the trace of a symbolically executed state. *)
Ltac filter_done :=
  unfold handlerCalls, occurrences; simpl;
  repeat match goal with H : events _ = _ |- _ => rewrite H end;
  rewrite ?List.filter_app; simpl;
  repeat match goal with
    | H : forallb isWriteEvent ?n = true |- context [List.filter ?p ?n] =>
        rewrite (writeEvents_filter p n)
          by first [ apply writeEvents_not_handler
                   | apply writeEvents_not_closeStart
                   | apply writeEvents_not_closeFinish
                   | exact H ]
    end;
  rewrite ?app_nil_r, ?length_app; simpl; try reflexivity; try lia.

Ltac rank_done :=
  repeat match goal with
    | |- context [rank (state_ ?x)] =>
        let E := fresh "E" in destruct (state_ x) eqn:E
    end;
  simpl; try lia; try congruence.

Lemma exec_rank c s s' :
  exec passive c s = Ok s' -> (rank (state_ s) <= rank (state_ s'))%nat.
Proof.
  intros H. destruct c; unfold_methods; exec_facts; loop_frames;
    repeat match goal with H : state_ _ = _ |- _ => rewrite H end;
    simpl; try lia; try multiget_not_quit; rank_done.
Qed.

Lemma exec_handlerCalls c s s' :
  state_ s <> STREAMING ->
  exec passive c s = Ok s' ->
  handlerCalls s' = handlerCalls s.
Proof.
  intros Hs H. destruct c; unfold_methods; exec_facts; loop_frames;
    try contradiction; try congruence; filter_done.
Qed.

Lemma close_leaves_streaming s s' :
  close passive s = Ok s' -> state_ s' <> STREAMING.
Proof.
  intros H. unfold_methods. exec_facts; simpl; congruence.
Qed.

Lemma rank_not_streaming st : st <> STREAMING <-> (1 <= rank st)%nat.
Proof. destruct st; simpl; split; intros; try congruence; lia. Qed.

Lemma run_handlerCalls cs : forall s s',
  state_ s <> STREAMING ->
  run passive cs s = Ok s' ->
  handlerCalls s' = handlerCalls s /\ state_ s' <> STREAMING.
Proof.
  induction cs as [|c cs IH]; intros s s' Hs H; simpl in H.
  - injection H as <-. split; [reflexivity | exact Hs].
  - apply andThen_Ok in H as (s1 & H1 & H).
    pose proof (exec_handlerCalls c s s1 Hs H1) as Hh.
    pose proof (exec_rank c s s1 H1) as Hr.
    assert (Hs1 : state_ s1 <> STREAMING).
    { apply rank_not_streaming. apply rank_not_streaming in Hs. lia. }
    destruct (IH s1 s' Hs1 H) as [Hh' Hs'].
    split; [congruence | exact Hs'].
Qed.

(** C10: once the session has left [STREAMING], [requestReady],
    [typedRequestReady], [parseError] and [multiOpEnd] return at once,
    leaving every field and the trace as they were, whatever the
    collaborators are; hence after a [close] no later call reaches the
    request handler. *)
Theorem parser_entry_points_gated :
  (forall env s,
     state_ s <> STREAMING ->
     (forall req operation reqid result noreply,
        requestReady env req operation reqid result noreply s = Ok s) /\
     (forall typeId reqBody reqid,
        typedRequestReady env typeId reqBody reqid s = Ok s) /\
     (forall result reason, parseError env result reason s = Ok s) /\
     multiOpEnd env s = Ok s) /\
  (forall s0 s cs s',
     close passive s0 = Ok s ->
     run passive cs s = Ok s' ->
     state_ s' <> STREAMING /\ handlerCalls s' = handlerCalls s).
Proof.
  split.
  - intros env s Hs. split; [|split; [|split]]; intros.
    + apply requestReady_not_streaming. exact Hs.
    + apply typedRequestReady_not_streaming. exact Hs.
    + apply parseError_not_streaming. exact Hs.
    + apply multiOpEnd_not_streaming. exact Hs.
  - intros s0 s cs s' Hc H. apply close_leaves_streaming in Hc.
    destruct (run_handlerCalls cs s s' Hc H) as [Hh Hs'].
    split; assumption.
Qed.

Lemma parser_entry_points_gated_witness :
  state_ sampleClosing <> STREAMING /\
  requestReady passive {| reqKey := "a" |} mc_op_get 0 mc_res_ok false
    sampleClosing = Ok sampleClosing /\
  typedRequestReady passive 1 "body" 0 sampleClosing = Ok sampleClosing /\
  parseError passive (mc_res_other 7) "malformed request" sampleClosing
    = Ok sampleClosing /\
  multiOpEnd passive sampleClosing = Ok sampleClosing.
Proof.
  destruct parser_entry_points_gated as [Hgate _].
  assert (Hs : state_ sampleClosing <> STREAMING) by discriminate.
  destruct (Hgate passive sampleClosing Hs) as (H1 & H2 & H3 & H4).
  split; [exact Hs|]. split; [apply H1|]. split; [apply H2|].
  split; [apply H3 | exact H4].
Defined.

Lemma app_snoc2 {A} (l : list A) a b : (l ++ [a]) ++ [b] = l ++ [a; b].
Proof. rewrite <- app_assoc. reflexivity. Qed.

Lemma app_snoc4 {A} (l : list A) a b c d :
  (((l ++ [a]) ++ [b]) ++ [c]) ++ [d] = l ++ [a; b; c; d].
Proof. rewrite <- !app_assoc. reflexivity. Qed.

Lemma filter_snoc (p : Event -> bool) l e :
  length (List.filter p (l ++ [e])) =
  (length (List.filter p l) + (if p e then 1 else 0))%nat.
Proof.
  rewrite List.filter_app, length_app. simpl. destruct (p e); reflexivity.
Qed.

Lemma checkClosed_justClosed s s' :
  checkClosed passive s = Ok s' ->
  state_ s <> CLOSED -> state_ s' = CLOSED ->
  justClosed s s'.
Proof.
  intros H Hs Hs'. unfold_methods. exec_facts; try congruence;
    unfold justClosed, occurrences; simpl;
    rewrite ?filter_snoc; simpl;
    (repeat split; try assumption; try lia;
     [ eexists; apply app_snoc2
     | intros Hn; try congruence; eexists; apply app_snoc4 ]).
Qed.

Lemma checkClosed_lifecycle s s' :
  checkClosed passive s = Ok s' -> lifecycle s -> lifecycle s'.
Proof.
  intros H (Ht & Hd & Hcs & Hcf). unfold_methods.
  exec_facts; unfold lifecycle, occurrences in *; simpl;
    rewrite ?filter_snoc; simpl;
    try match goal with H : state_ _ = CLOSING |- _ => rewrite H in * end;
    simpl in *; rewrite ?Hcs, ?Hcf; repeat split; auto; try congruence;
    tauto.
Qed.

Lemma checkClosed_state s s' :
  checkClosed passive s = Ok s' ->
  state_ s' = state_ s \/ (state_ s = CLOSING /\ state_ s' = CLOSED).
Proof.
  intros H. unfold_methods. exec_facts; simpl; auto.
Qed.

Ltac lifecycle_done :=
  unfold lifecycle, quietStep, occurrences in *; simpl;
  rewrite ?filter_snoc; simpl;
  repeat match goal with
    | H : state_ ?x = STREAMING |- _ => rewrite H in *
    | H : state_ ?x = CLOSING |- _ => rewrite H in *
    | H : state_ ?x = CLOSED |- _ => rewrite H in *
    end;
  simpl in *;
  repeat match goal with
    | H : length (List.filter _ _) = _ |- _ => rewrite H
    end;
  repeat split; auto; try congruence; try tauto; try lia;
  repeat match goal with
    | |- context [state_ ?x] =>
        let E := fresh "E" in destruct (state_ x) eqn:E; simpl in *
    end;
  try congruence; try tauto; try lia; try (intuition congruence).

Lemma close_lifecycle s s' :
  close passive s = Ok s' -> lifecycle s -> lifecycle s'.
Proof.
  intros H (Ht & Hd & Hcs & Hcf). unfold_methods.
  exec_facts; lifecycle_done.
Qed.

Lemma close_justClosed s s' :
  close passive s = Ok s' ->
  state_ s <> CLOSED -> state_ s' = CLOSED ->
  justClosed s s'.
Proof.
  intros H Hs Hs'. unfold_methods. exec_facts; try congruence;
    unfold justClosed, occurrences; simpl;
    rewrite ?filter_snoc; simpl;
    (repeat split; try assumption; try lia;
     [ eexists; apply app_snoc2
     | intros Hn; try congruence; eexists; apply app_snoc4 ]).
Qed.

Lemma quietStep_refl s : quietStep s s.
Proof. unfold quietStep. repeat split; tauto. Qed.

Lemma quietStep_trans s1 s2 s3 :
  quietStep s1 s2 -> quietStep s2 s3 -> quietStep s1 s3.
Proof.
  unfold quietStep. intros (?&?&?&?&?) (?&?&?&?&?).
  repeat split; try congruence; tauto.
Qed.

Lemma writeFrame_quietStep s s' : writeFrame s s' -> quietStep s s'.
Proof.
  intros (?&?&?&?&?&?&?&?&?&?&new&He&Hw).
  unfold quietStep, occurrences. rewrite He, !List.filter_app, !length_app.
  rewrite (writeEvents_filter isCloseStart new writeEvents_not_closeStart Hw).
  rewrite (writeEvents_filter isCloseFinish new writeEvents_not_closeFinish Hw).
  simpl. repeat split; try assumption; try tauto; lia.
Qed.

Lemma quietStep_lifecycle s s' :
  quietStep s s' -> lifecycle s -> lifecycle s'.
Proof.
  unfold quietStep, lifecycle. intros (Hs&Hd&Ht&Hcs&Hcf) (?&?&?&?).
  rewrite Hs, Hd, Hcs, Hcf. repeat split; try tauto; assumption.
Qed.

Lemma justClosed_quietStep s s1 s' :
  quietStep s s1 -> justClosed s1 s' -> justClosed s s'.
Proof.
  unfold quietStep, justClosed.
  intros (Hs&Hd&Ht&Hcs&Hcf) (?&?&?&?&?&?&Hev).
  repeat split; try assumption; try congruence.
  intros Hn. apply Hev. tauto.
Qed.

#[local] Arguments close : simpl never.
#[local] Arguments checkClosed : simpl never.

(** Unfold the methods down to [close] and [checkClosed]. *)
Ltac unfold_methods_to_close :=
  unfold exec, readEOF, readErr, readDataAvailable, writeErr, writeSuccess,
    completeWrite, sendWrites, parseError, typedRequestReady, requestReady,
    dispatch, ctxReply, multiOpEnd, processMultiOpEnd, reply,
    onTransactionCompleted, onTransactionStarted, resume, pause,
    setReadCB, ensureWriteBufs in *.

Ltac quiet_done :=
  unfold quietStep; simpl;
  repeat split;
  try congruence; try tauto; try (intuition congruence);
  try filter_done.

(** Every call is a step that does not touch the life cycle, possibly
    followed by [close] or [checkClosed]. *)
Lemma exec_decompose c s s' :
  exec passive c s = Ok s' ->
  exists s1,
    quietStep s s1 /\
    (s' = s1 \/ close passive s1 = Ok s' \/ checkClosed passive s1 = Ok s').
Proof.
  intros H. destruct c; unfold_methods_to_close; exec_facts; loop_frames;
    try multiget_not_quit;
    match goal with
    | Hc : close passive ?x = Ok _ |- _ =>
        exists x; split; [|right; left; exact Hc]
    | Hc : checkClosed passive ?x = Ok _ |- _ =>
        exists x; split; [|right; right; exact Hc]
    | |- exists s1, _ /\ (?t = s1 \/ _) =>
        exists t; split; [|left; reflexivity]
    end; quiet_done.
Qed.

Lemma exec_lifecycle c s s' :
  lifecycle s -> exec passive c s = Ok s' -> lifecycle s'.
Proof.
  intros Hl H. apply exec_decompose in H as (s1 & Hq & [->|[H|H]]).
  - eapply quietStep_lifecycle; eassumption.
  - eapply close_lifecycle; [exact H|].
    eapply quietStep_lifecycle; eassumption.
  - eapply checkClosed_lifecycle; [exact H|].
    eapply quietStep_lifecycle; eassumption.
Qed.

Lemma exec_justClosed c s s' :
  exec passive c s = Ok s' ->
  state_ s <> CLOSED -> state_ s' = CLOSED ->
  justClosed s s'.
Proof.
  intros H Hs Hs'. apply exec_decompose in H as (s1 & Hq & [->|[H|H]]).
  - destruct Hq as [Hq _]. congruence.
  - eapply justClosed_quietStep; [exact Hq|].
    apply close_justClosed; [exact H | | exact Hs'].
    destruct Hq as [Hq _]. congruence.
  - eapply justClosed_quietStep; [exact Hq|].
    apply checkClosed_justClosed; [exact H | | exact Hs'].
    destruct Hq as [Hq _]. congruence.
Qed.

Lemma lifecycle_create opts p fifo t s0 :
  create opts p fifo t = Ok s0 -> lifecycle s0.
Proof.
  intros H. vm_compute in H. injection H as <-.
  unfold lifecycle, occurrences. simpl.
  repeat split; intros; discriminate.
Qed.

Lemma lifecycle_run cs : forall s s',
  lifecycle s -> run passive cs s = Ok s' -> lifecycle s'.
Proof.
  induction cs as [|c cs IH]; intros s s' Hl H; simpl in H.
  - injection H as <-. exact Hl.
  - apply andThen_Ok in H as (s1 & H1 & H).
    eapply IH; [|exact H]. eapply exec_lifecycle; eassumption.
Qed.

Lemma checkClosed_gate s s' :
  checkClosed passive s = Ok s' ->
  state_ s' = state_ s \/
  (state_ s = CLOSING /\ state_ s' = CLOSED /\
   inFlight_ s = 0 /\ pendingWrites_ s = []).
Proof.
  intros H. unfold_methods. exec_facts; simpl; auto.
Qed.

(** C2: every call moves the state forward along [STREAMING], [CLOSING],
    [CLOSED] or leaves it, and nothing leaves [CLOSED]; [checkClosed]
    moves [CLOSING] to [CLOSED] only with nothing in flight and no pending
    write; the call that reaches [CLOSED] detaches the read callback,
    releases the transport, fires [onCloseFinish] once and requests
    destruction; over the life of a session [onCloseFinish] has fired
    exactly once when it is [CLOSED] and not before. *)
Theorem session_state_machine :
  (forall c s s',
     exec passive c s = Ok s' ->
     (rank (state_ s) <= rank (state_ s'))%nat /\
     (state_ s = CLOSED -> state_ s' = CLOSED) /\
     (state_ s <> CLOSED -> state_ s' = CLOSED -> justClosed s s')) /\
  (forall s s',
     checkClosed passive s = Ok s' ->
     state_ s' = state_ s \/
     (state_ s = CLOSING /\ state_ s' = CLOSED /\
      inFlight_ s = 0 /\ pendingWrites_ s = [])) /\
  (forall opts p fifo t s0 cs s,
     create opts p fifo t = Ok s0 ->
     run passive cs s0 = Ok s ->
     lifecycle s).
Proof.
  split; [|split].
  - intros c s s' H. pose proof (exec_rank c s s' H) as Hr.
    split; [exact Hr|]. split.
    + intros Hs. rewrite Hs in Hr. simpl in Hr.
      destruct (state_ s'); simpl in Hr; [lia | lia | reflexivity].
    + intros Hs Hs'. eapply exec_justClosed; eassumption.
  - apply checkClosed_gate.
  - intros opts p fifo t s0 cs s Hc H.
    eapply lifecycle_run; [|exact H]. eapply lifecycle_create; exact Hc.
Qed.

Lemma session_state_machine_witness :
  exists s',
    exec passive (CallOnTransactionCompleted true) sampleClosing = Ok s' /\
    state_ sampleClosing <> CLOSED /\ state_ s' = CLOSED /\
    justClosed sampleClosing s'.
Proof.
  destruct session_state_machine as (Hexec & _ & _).
  assert (H : exec passive (CallOnTransactionCompleted true) sampleClosing
              = Ok (sampleSessionOf
                      (exec passive (CallOnTransactionCompleted true)
                         sampleClosing)))
    by (vm_compute; reflexivity).
  eexists. split; [exact H|].
  assert (Hs : state_ sampleClosing <> CLOSED) by discriminate.
  assert (Hs' : state_ (sampleSessionOf
                          (exec passive (CallOnTransactionCompleted true)
                             sampleClosing)) = CLOSED)
    by (vm_compute; reflexivity).
  split; [exact Hs|]. split; [exact Hs'|].
  destruct (Hexec _ _ _ H) as (_ & _ & Hj). exact (Hj Hs Hs').
Defined.

(** ** Closing more than once *)

(** Rewrite the goal with the tests recorded by [exec_hyps]. *)
Ltac replay :=
  repeat (simpl;
          match goal with
          | E : ?b = true |- context [?b] => rewrite E
          | E : ?b = false |- context [?b] => rewrite E
          | E : ?b = Some _ |- context [?b] => rewrite E
          | E : ?b = None |- context [?b] => rewrite E
          end);
  simpl; try reflexivity.

Lemma checkClosed_again s s' :
  checkClosed passive s = Ok s' -> checkClosed passive s' = Ok s'.
Proof.
  intros H. unfold checkClosed, setReadCB in *.
  exec_hyps; unfold_step; replay.
Qed.

Lemma close_result s s' :
  close passive s = Ok s' ->
  currentMultiop_ s' = None /\ state_ s' <> STREAMING /\
  checkClosed passive s' = Ok s'.
Proof.
  intros H. unfold close in H.
  apply andThen_Ok in H as (s1 & H1 & H).
  apply andThen_Ok in H as (s2 & H2 & H).
  pose proof (checkClosed_again _ _ H) as Hagain.
  split; [|split; [|exact Hagain]].
  - assert (Hm1 : currentMultiop_ s1 = None).
    { destruct (currentMultiop_ s) eqn:E.
      - eapply processMultiOpEnd_clears; exact H1.
      - injection H1 as <-. exact E. }
    assert (Hm2 : currentMultiop_ s2 = None).
    { clear H. destruct (bool_decide (state_ s1 = STREAMING));
        exec_hyps; assumption. }
    clear H1 H2 Hagain. unfold checkClosed, setReadCB in H.
    exec_hyps; assumption.
  - assert (Hs2 : state_ s2 <> STREAMING).
    { clear H. destruct (bool_decide (state_ s1 = STREAMING)) eqn:E.
      - exec_hyps; discriminate.
      - injection H2 as <-. apply bool_decide_eq_false_1 in E. exact E. }
    apply checkClosed_state in H as [->|[_ ->]]; [exact Hs2 | discriminate].
Qed.

Lemma close_again s s1 :
  close passive s = Ok s1 -> close passive s1 = Ok s1.
Proof.
  intros H. apply close_result in H as (Hm & Hs & Hc).
  rewrite (close_without_multiop passive s1 Hm).
  unfold andThen, bind. rewrite bool_decide_eq_false_2 by exact Hs.
  exact Hc.
Qed.

Lemma times_close n : forall s,
  times (S n) (close passive) s = close passive s.
Proof.
  induction n as [|n IH]; intros s.
  - simpl. unfold andThen, bind, skip. destruct (close passive s); reflexivity.
  - change (times (S (S n)) (close passive) s)
      with (bind (close passive s) (times (S n) (close passive))).
    destruct (close passive s) as [s1|] eqn:E; [|reflexivity].
    change (times (S n) (close passive) s1 = Ok s1).
    rewrite IH. eapply close_again. exact E.
Qed.

(** Case analysis on the tests of the goal. *)
Ltac case_goal :=
  repeat (simpl; unfold_step;
          match goal with
          | |- context [match ?x with _ => _ end] =>
              let E := fresh "E" in destruct x eqn:E
          end);
  simpl; try reflexivity; try congruence.

Lemma andThen_ext_pq (P Q : McServerSession -> Prop) (f g g' : step) s :
  P s ->
  (forall s s', P s -> f s = Ok s' -> Q s') ->
  (forall s, Q s -> g s = g' s) ->
  (f >=> g) s = (f >=> g') s.
Proof.
  intros Hs Hf Hg. unfold andThen, bind.
  destruct (f s) as [s1|] eqn:E; [|reflexivity].
  apply Hg. eapply Hf; eassumption.
Qed.

(** In [CLOSED], with no multi-op active and nothing in flight or
    pending, [close] does nothing. *)
Lemma close_noop s :
  currentMultiop_ s = None -> state_ s = CLOSED ->
  inFlight_ s = 0 -> pendingWrites_ s = [] ->
  close passive s = Ok s.
Proof.
  intros Hm Hs Hi Hp. rewrite (close_without_multiop passive s Hm).
  unfold andThen, bind, checkClosed, assert. rewrite Hs. simpl.
  rewrite Hi. simpl. unfold andThen, bind. rewrite Hp. simpl.
  rewrite Hs. reflexivity.
Qed.

Lemma checkClosed_unfold env s :
  checkClosed env s =
    if inFlight_ s =? 0 then
      if bool_decide (pendingWrites_ s = []) then
        if bool_decide (state_ s = CLOSING) then
          (modify (set_state_ CLOSED)
           >=> (fun s =>
                  match transport_ s with
                  | Some _ =>
                      (setReadCB false
                       >=> modify (fun s =>
                             emit EvTransportReset (set_transport_ None s))) s
                  | None => Ok s
                  end)
           >=> callIfSet EvOnCloseFinish (onCloseFinish_ env)
           >=> destroy) s
        else Ok s
      else Fault (AssertFailed "pendingWrites_.empty()")
    else Ok s.
Proof.
  unfold checkClosed. destruct (inFlight_ s =? 0); [|reflexivity].
  unfold andThen at 1. unfold bind, assert.
  destruct (bool_decide (pendingWrites_ s = [])); reflexivity.
Qed.

Lemma checkClosed_closeFromCallbacks s :
  currentMultiop_ s = None ->
  checkClosed closeFromCallbacks s = checkClosed passive s.
Proof.
  intros Hm. rewrite !checkClosed_unfold.
  destruct (inFlight_ s =? 0) eqn:Ei; [|reflexivity].
  apply Z.eqb_eq in Ei.
  destruct (bool_decide (pendingWrites_ s = [])) eqn:Ep; [|reflexivity].
  apply bool_decide_eq_true_1 in Ep.
  destruct (bool_decide (state_ s = CLOSING)); [|reflexivity].
  pose (P := fun x : McServerSession =>
               currentMultiop_ x = None /\ inFlight_ x = 0 /\
               pendingWrites_ x = []).
  pose (Q := fun x : McServerSession => P x /\ state_ x = CLOSED).
  apply (andThen_ext_pq P Q); [repeat split; assumption | |].
  { intros x x' Hx H. unfold modify in H. injection H as <-.
    split; [exact Hx | reflexivity]. }
  clear. intros x Hx.
  apply (andThen_ext_pq Q Q); [exact Hx | |].
  { clear. intros x x' [(Hm & Hi & Hp) Hs] H. unfold setReadCB in H.
    exec_hyps; repeat split; assumption. }
  clear. intros x [(Hm & Hi & Hp) Hs].
  unfold callIfSet. simpl. unfold andThen, bind, modify, skip.
  rewrite close_noop by assumption. reflexivity.
Qed.

Lemma checkClosed_again_any env s s' :
  checkClosed passive s = Ok s' -> checkClosed env s' = Ok s'.
Proof.
  intros H. unfold checkClosed, setReadCB in *.
  exec_hyps; unfold_step; replay.
Qed.

Lemma processMultiOpEnd_closeFromCallbacks s :
  processMultiOpEnd closeFromCallbacks s = processMultiOpEnd passive s.
Proof. reflexivity. Qed.

Lemma close_unfold env s :
  close env s =
    bind (match currentMultiop_ s with
          | Some _ => processMultiOpEnd env s
          | None => Ok s
          end)
      (fun s1 =>
         bind (if bool_decide (state_ s1 = STREAMING) then
                 (modify (set_state_ CLOSING)
                  >=> callIfSet EvOnCloseStart (onCloseStart_ env)) s1
               else Ok s1)
           (checkClosed env)).
Proof. reflexivity. Qed.

Lemma close_tail_closeFromCallbacks s1 :
  currentMultiop_ s1 = None ->
  bind (if bool_decide (state_ s1 = STREAMING) then
          (modify (set_state_ CLOSING)
           >=> callIfSet EvOnCloseStart (onCloseStart_ closeFromCallbacks)) s1
        else Ok s1)
    (checkClosed closeFromCallbacks) =
  bind (if bool_decide (state_ s1 = STREAMING) then
          (modify (set_state_ CLOSING)
           >=> callIfSet EvOnCloseStart (onCloseStart_ passive)) s1
        else Ok s1)
    (checkClosed passive).
Proof.
  intros Hm1. destruct (bool_decide (state_ s1 = STREAMING)) eqn:Es.
  - unfold callIfSet. simpl onCloseStart_.
    unfold andThen, modify, skip. simpl.
    set (s2 := emit EvOnCloseStart (set_state_ CLOSING s1)).
    assert (Hc : close passive s2 = checkClosed passive s2).
    { rewrite (close_without_multiop passive s2 Hm1).
      unfold andThen, bind. reflexivity. }
    rewrite Hc.
    destruct (checkClosed passive s2) as [s3|] eqn:E3; [|reflexivity].
    simpl. eapply checkClosed_again_any. exact E3.
  - simpl. apply checkClosed_closeFromCallbacks. exact Hm1.
Qed.

(** A [close] that is called again from inside its own life-cycle
    callbacks ends in the state, and with the trace, of a single
    [close]. *)
Lemma close_closeFromCallbacks s :
  close closeFromCallbacks s = close passive s.
Proof.
  rewrite !close_unfold. rewrite processMultiOpEnd_closeFromCallbacks.
  destruct (currentMultiop_ s) eqn:Em.
  - destruct (processMultiOpEnd passive s) as [s1|] eqn:E1; [|reflexivity].
    simpl. apply close_tail_closeFromCallbacks.
    eapply processMultiOpEnd_clears. exact E1.
  - simpl. apply close_tail_closeFromCallbacks. exact Em.
Qed.

(** C7: [close] is idempotent: any number of [close] calls in a row, and
    a [close] that is re-entered from its own life-cycle callbacks, end in
    the state and trace of one [close] (or in its fault); a later [close]
    is just the [checkClosed] gate, which changes nothing; and
    [onCloseStart] fires at most once in the life of a session. *)
Theorem close_idempotent :
  (forall n s, times (S n) (close passive) s = close passive s) /\
  (forall s, close closeFromCallbacks s = close passive s) /\
  (forall s s1,
     close passive s = Ok s1 ->
     close passive s1 = checkClosed passive s1 /\
     checkClosed passive s1 = Ok s1) /\
  (forall opts p fifo t s0 cs s,
     create opts p fifo t = Ok s0 ->
     run passive cs s0 = Ok s ->
     (occurrences isCloseStart s <= 1)%nat).
Proof.
  split; [|split; [|split]].
  - apply times_close.
  - apply close_closeFromCallbacks.
  - intros s s1 H. apply close_result in H as (Hm & Hs & Hc).
    split; [|exact Hc].
    rewrite (close_without_multiop passive s1 Hm).
    unfold andThen, bind. rewrite bool_decide_eq_false_2 by exact Hs.
    reflexivity.
  - intros opts p fifo t s0 cs s Hc H.
    apply lifecycle_create in Hc.
    destruct (lifecycle_run cs s0 s Hc H) as (_ & _ & Hcs & _).
    rewrite Hcs. destruct (state_ s); simpl; lia.
Qed.

Lemma close_idempotent_witness :
  exists s1,
    close passive (sampleSession 0) = Ok s1 /\
    times 3 (close passive) (sampleSession 0) = Ok s1 /\
    close closeFromCallbacks (sampleSession 0) = Ok s1 /\
    close passive s1 = Ok s1.
Proof.
  destruct close_idempotent as (Htimes & Hnested & Hagain & _).
  assert (H : close passive (sampleSession 0)
              = Ok (sampleSessionOf (close passive (sampleSession 0))))
    by (vm_compute; reflexivity).
  eexists. split; [exact H|].
  split; [rewrite (Htimes 2%nat); exact H|].
  split; [rewrite Hnested; exact H|].
  destruct (Hagain _ _ H) as [Heq Hc]. rewrite Heq. exact Hc.
Defined.

(** ** Reply ordering *)

Lemma queuedOf_app es1 es2 : queuedOf (es1 ++ es2) = queuedOf es1 ++ queuedOf es2.
Proof.
  induction es1 as [|e es1 IH]; [reflexivity|].
  destruct e; simpl; rewrite IH; reflexivity.
Qed.

(** With the transport in place, [queueWrite] returns; it records the
    buffer and leaves the reply-ordering fields alone. *)
Lemma queueWrite_Ok wb s :
  writable s ->
  exists s',
    queueWrite passive wb s = Ok s' /\
    writable s' /\
    queued s' = queued s ++ [wb] /\
    headReqid_ s' = headReqid_ s /\
    blockedReplies_ s' = blockedReplies_ s /\
    parser_ s' = parser_ s.
Proof.
  intros [(t & Ht & Hev) Hq]. unfold queueWrite, pause, setReadCB, writable.
  unfold_step. unfold queued. simpl.
  destruct wb as [b|]; simpl.
  - destruct (singleWrite (options_ s)) eqn:Em; simpl.
    + destruct (writeBufs_ s) as [q|] eqn:Eq; [|exfalso; apply Hq; reflexivity].
      simpl. rewrite Ht. simpl.
      destruct (debugFifo_ s); simpl;
        (destruct (q ++ [b]) eqn:El; [destruct q; discriminate|]);
        simpl; rewrite Ht; simpl; eexists; (split; [reflexivity|]); simpl;
        rewrite !queuedOf_app; simpl; rewrite ?app_nil_r;
        repeat split; eauto; try (intros _; discriminate).
    + destruct (writeScheduled_ s); simpl.
      * eexists. split; [reflexivity|]. simpl. rewrite !queuedOf_app. simpl.
        rewrite Em. repeat split; eauto; try discriminate.
      * rewrite Ht, Hev. eexists. split; [reflexivity|]. simpl.
        rewrite !queuedOf_app. simpl. rewrite app_nil_r, Em.
        repeat split; eauto; try discriminate.
  - eexists. split; [reflexivity|]. simpl. rewrite queuedOf_app. simpl.
    repeat split; eauto.
Qed.

Lemma lookupReply_app d r k :
  lookupReply (d ++ r) k =
    match lookupReply d k with
    | Some x => Some x
    | None => lookupReply r k
    end.
Proof.
  induction d as [|[id wb] d IH]; simpl; [reflexivity|].
  destruct (id =? k); [reflexivity | exact IH].
Qed.

Lemma lookupReply_snoc d id wb k :
  lookupReply (d ++ [(id, wb)]) k =
    match lookupReply d k with
    | Some x => Some x
    | None => if id =? k then Some wb else None
    end.
Proof. rewrite lookupReply_app. reflexivity. Qed.

Lemma replyFor_snoc_old d id wb k :
  is_Some (lookupReply d k) -> replyFor (d ++ [(id, wb)]) k = replyFor d k.
Proof.
  intros [x Hx]. unfold replyFor. rewrite lookupReply_snoc, Hx. reflexivity.
Qed.

Lemma replyFor_snoc_new d id wb :
  lookupReply d id = None -> replyFor (d ++ [(id, wb)]) id = wb.
Proof.
  intros Hx. unfold replyFor. rewrite lookupReply_snoc, Hx, Z.eqb_refl.
  reflexivity.
Qed.

Lemma seqZ_snoc h : 0 <= h -> seqZ 0 (h + 1) = seqZ 0 h ++ [h].
Proof.
  intros Hh. rewrite seqZ_app by lia. f_equal.
Qed.

Lemma map_replyFor_ext d d' h :
  (forall k, 0 <= k < h -> replyFor d' k = replyFor d k) ->
  map (replyFor d') (seqZ 0 h) = map (replyFor d) (seqZ 0 h).
Proof.
  intros H. apply map_ext_in. intros k Hk.
  apply list_elem_of_In in Hk. apply elem_of_seqZ in Hk. apply H. lia.
Qed.

Lemma replyLoop_ordered n q0 recv fuel : forall s,
  n < 2 ^ 64 ->
  outOfOrder (parser_ s) = false -> writable s ->
  0 <= headReqid_ s ->
  (forall k, is_Some (lookupReply recv k) -> 0 <= k < n) ->
  (forall k, blockedReplies_ s !! k =
             if decide (headReqid_ s < k) then lookupReply recv k else None) ->
  (forall k, 0 <= k <= headReqid_ s -> is_Some (lookupReply recv k)) ->
  queued s = q0 ++ map (replyFor recv) (seqZ 0 (headReqid_ s + 1)) ->
  (size (blockedReplies_ s) <= fuel)%nat ->
  exists s', replyLoop passive fuel s = Ok s' /\ ordered n q0 recv s'.
Proof.
  induction fuel as [|fuel IH]; intros s Hn Hooo Hw Hh Hdom Hb Hrecv Hq Hsize.
  - assert (Hr : 0 <= headReqid_ s < n) by (apply Hdom, Hrecv; lia).
    simpl. rewrite wrap64_small by lia.
    assert (Hempty : blockedReplies_ s = ∅).
    { apply map_size_empty_inv. lia. }
    rewrite Hempty, lookup_empty. eexists. split; [reflexivity|].
    unfold ordered. simpl.
    split; [exact Hooo|]. split; [exact Hw|]. split; [lia|].
    split; [exact Hdom|]. split.
    { intros k. rewrite Hempty, lookup_empty.
      specialize (Hb k). rewrite Hempty, lookup_empty in Hb.
      destruct (decide (headReqid_ s + 1 < k)); [|reflexivity].
      destruct (decide (headReqid_ s < k)); [exact Hb | lia]. }
    split.
    { specialize (Hb (headReqid_ s + 1)).
      rewrite Hempty, lookup_empty in Hb.
      destruct (decide (headReqid_ s < headReqid_ s + 1)); [auto | lia]. }
    split; [intros k Hk; apply Hrecv; lia | exact Hq].
  - assert (Hr : 0 <= headReqid_ s < n) by (apply Hdom, Hrecv; lia).
    simpl. rewrite wrap64_small by lia.
    pose proof (Hb (headReqid_ s + 1)) as Hnext.
    destruct (decide (headReqid_ s < headReqid_ s + 1)); [|lia].
    destruct (blockedReplies_ s !! (headReqid_ s + 1)) as [wb|] eqn:El.
    + set (s1 := set_headReqid_ (headReqid_ s + 1) s).
      assert (Hw1 : writable s1) by exact Hw.
      destruct (queueWrite_Ok wb s1 Hw1)
        as (s2 & H2 & Hw2 & Hq2 & Hh2 & Hb2 & Hp2).
      rewrite H2. simpl bind.
      apply IH; simpl; try assumption.
      * rewrite Hp2. exact Hooo.
      * rewrite Hh2. simpl. lia.
      * intros k. rewrite Hh2, Hb2. simpl.
        rewrite lookup_delete. destruct (decide (headReqid_ s + 1 = k)).
        { destruct (decide (headReqid_ s + 1 < k)); [lia | reflexivity]. }
        rewrite Hb. destruct (decide (headReqid_ s < k)),
          (decide (headReqid_ s + 1 < k)); try reflexivity; lia.
      * intros k Hk. rewrite Hh2 in Hk. simpl in Hk.
        destruct (decide (k = headReqid_ s + 1)) as [->|Hne].
        { rewrite <- Hnext. eauto. }
        apply Hrecv. lia.
      * unfold queued in *. rewrite Hh2. simpl. rewrite Hq2.
        change (events s1) with (events s). rewrite Hq.
        rewrite (seqZ_snoc (headReqid_ s + 1)) by lia.
        rewrite map_app, app_assoc. simpl. f_equal. f_equal.
        unfold replyFor. rewrite <- Hnext. reflexivity.
      * rewrite Hh2, Hb2. simpl.
        rewrite map_size_delete_Some by (rewrite El; eauto). lia.
    + eexists. split; [reflexivity|]. unfold ordered. simpl.
      split; [exact Hooo|]. split; [exact Hw|]. split; [lia|].
      split; [exact Hdom|]. split.
      { intros k. rewrite Hb.
        destruct (decide (headReqid_ s < k)),
          (decide (headReqid_ s + 1 < k)); try reflexivity; try lia.
        assert (k = headReqid_ s + 1) by lia. subst k. auto. }
      split; [auto|].
      split; [intros k Hk; apply Hrecv; lia | exact Hq].
Qed.

Lemma emplace_fresh k v (m : gmap Z (option WriteBuffer)) :
  m !! k = None -> emplace k v m = <[k := v]> m.
Proof. intros H. unfold emplace. rewrite H. reflexivity. Qed.

Lemma emplace_present k v w (m : gmap Z (option WriteBuffer)) :
  m !! k = Some w -> emplace k v m = m.
Proof. intros H. unfold emplace. rewrite H. reflexivity. Qed.

(** One more reply keeps the order. *)
Lemma reply_ordered n q0 received id wb s :
  n < 2 ^ 64 ->
  ordered n q0 received s ->
  lookupReply received id = None ->
  0 <= id < n ->
  exists s',
    reply passive wb id s = Ok s' /\
    ordered n q0 (received ++ [(id, wb)]) s'.
Proof.
  intros Hn (Hooo & Hw & Hh & Hdom & Hb & Hhead & Hbelow & Hq) Hnew Hid.
  assert (Hdom' : forall k, is_Some (lookupReply (received ++ [(id, wb)]) k)
                            -> 0 <= k < n).
  { intros k. rewrite lookupReply_snoc.
    destruct (lookupReply received k) eqn:E.
    - intros _. apply Hdom. rewrite E. eauto.
    - destruct (id =? k) eqn:Ek; [|intros [? ?]; discriminate].
      apply Z.eqb_eq in Ek. subst k. intros _. exact Hid. }
  unfold reply. rewrite Hooo.
  destruct (id =? headReqid_ s) eqn:Eh.
  - apply Z.eqb_eq in Eh. subst id.
    destruct (queueWrite_Ok wb s Hw) as (s1 & H1 & Hw1 & Hq1 & Hh1 & Hb1 & Hp1).
    unfold andThen. rewrite H1. simpl bind.
    apply replyLoop_ordered; try assumption.
    + rewrite Hp1. exact Hooo.
    + rewrite Hh1. exact Hh.
    + intros k. rewrite Hh1, Hb1, Hb, lookupReply_snoc.
      destruct (decide (headReqid_ s < k)); [|reflexivity].
      destruct (lookupReply received k); [reflexivity|].
      rewrite (proj2 (Z.eqb_neq _ _)) by lia. reflexivity.
    + intros k Hk. rewrite Hh1 in Hk. rewrite lookupReply_snoc.
      destruct (decide (k = headReqid_ s)) as [->|Hne].
      * rewrite Hhead, Z.eqb_refl. eauto.
      * destruct (Hbelow k ltac:(lia)) as [x ->]. eauto.
    + rewrite Hh1, Hq1, Hq, seqZ_snoc by lia.
      rewrite map_app, <- app_assoc. simpl. f_equal.
      rewrite replyFor_snoc_new by exact Hhead. f_equal.
      apply map_replyFor_ext. intros k Hk.
      symmetry. apply replyFor_snoc_old. apply Hbelow. exact Hk.
    + lia.
  - apply Z.eqb_neq in Eh.
    assert (Hgt : headReqid_ s < id).
    { destruct (Z.lt_ge_cases (headReqid_ s) id) as [?|Hle]; [assumption|].
      destruct (Hbelow id ltac:(lia)) as [x Hx]. congruence. }
    assert (Hfresh : blockedReplies_ s !! id = None).
    { rewrite Hb. destruct (decide (headReqid_ s < id)); [exact Hnew | lia]. }
    rewrite (emplace_fresh _ _ _ Hfresh).
    eexists. split; [reflexivity|]. unfold ordered. simpl.
    split; [exact Hooo|]. split; [exact Hw|]. split; [exact Hh|].
    split; [exact Hdom'|]. split.
    { intros k. rewrite lookupReply_snoc, lookup_insert.
      destruct (decide (id = k)) as [->|Hne].
      - rewrite Hnew, Z.eqb_refl.
        destruct (decide (headReqid_ s < k)); [reflexivity | lia].
      - rewrite Hb. destruct (decide (headReqid_ s < k)); [|reflexivity].
        destruct (lookupReply received k); [reflexivity|].
        rewrite (proj2 (Z.eqb_neq _ _)) by exact Hne. reflexivity. }
    split.
    { rewrite lookupReply_snoc, Hhead.
      rewrite (proj2 (Z.eqb_neq _ _)) by exact Eh. reflexivity. }
    split.
    { intros k Hk. rewrite lookupReply_snoc.
      destruct (Hbelow k Hk) as [x ->]. eauto. }
    unfold queued in *. simpl. rewrite Hq. f_equal.
    symmetry. apply map_replyFor_ext. intros k Hk.
    apply replyFor_snoc_old. apply Hbelow. exact Hk.
Qed.

Lemma lookupReply_is_Some rs k :
  is_Some (lookupReply rs k) <-> k ∈ map fst rs.
Proof.
  induction rs as [|[id wb] rs IH]; simpl.
  - split; [intros [? ?]; discriminate | intros H; inversion H].
  - rewrite elem_of_cons. destruct (id =? k) eqn:E.
    + apply Z.eqb_eq in E. split; [auto | eauto].
    + apply Z.eqb_neq in E. rewrite IH. split; [auto|].
      intros [?|?]; [congruence | assumption].
Qed.

Lemma lookupReply_None rs k :
  lookupReply rs k = None <-> k ∉ map fst rs.
Proof.
  rewrite <- lookupReply_is_Some. destruct (lookupReply rs k); split;
    try congruence; intros H; try reflexivity.
  - exfalso. apply H. eauto.
  - intros [? ?]. discriminate.
Qed.

Lemma run_replies n q0 rest : forall received s,
  n < 2 ^ 64 ->
  ordered n q0 received s ->
  NoDup (map fst (received ++ rest)) ->
  (forall k, k ∈ map fst rest -> 0 <= k < n) ->
  exists s',
    run passive (replyCalls rest) s = Ok s' /\
    ordered n q0 (received ++ rest) s'.
Proof.
  induction rest as [|[id wb] rest IH]; intros received s Hn Hord Hnd Hrange.
  - simpl. rewrite app_nil_r. eexists. split; [reflexivity | exact Hord].
  - assert (Hnew : lookupReply received id = None).
    { apply lookupReply_None. rewrite map_app in Hnd.
      apply NoDup_app in Hnd as (_ & Hdisj & _). intros Hin.
      apply (Hdisj id Hin). simpl. apply elem_of_cons. auto. }
    destruct (reply_ordered n q0 received id wb s Hn Hord Hnew)
      as (s1 & H1 & Hord1).
    { apply Hrange. simpl. apply elem_of_cons. auto. }
    destruct (IH (received ++ [(id, wb)]) s1 Hn Hord1) as (s' & H' & Hord').
    { rewrite <- app_assoc. exact Hnd. }
    { intros k Hk. apply Hrange. simpl. apply elem_of_cons. auto. }
    exists s'. split.
    + simpl. unfold andThen. simpl. rewrite H1. exact H'.
    + rewrite <- app_assoc in Hord'. exact Hord'.
Qed.

Lemma ordered_complete n q0 rs s :
  0 <= n ->
  ordered n q0 rs s ->
  (forall k, 0 <= k < n -> k ∈ map fst rs) ->
  headReqid_ s = n /\ blockedReplies_ s = ∅ /\
  queued s = q0 ++ map (replyFor rs) (seqZ 0 n).
Proof.
  intros Hn (Hooo & Hw & Hh & Hdom & Hb & Hhead & Hbelow & Hq) Hall.
  assert (Heq : headReqid_ s = n).
  { destruct (Z.lt_trichotomy (headReqid_ s) n) as [Hlt|[Heq|Hgt]].
    - apply lookupReply_None in Hhead. exfalso. apply Hhead, Hall. lia.
    - exact Heq.
    - specialize (Hbelow n ltac:(lia)). apply Hdom in Hbelow. lia. }
  split; [exact Heq|]. split; [|rewrite <- Heq; exact Hq].
  apply map_empty. intros k. rewrite Hb.
  destruct (decide (headReqid_ s < k)); [|reflexivity].
  destruct (lookupReply rs k) eqn:E; [|reflexivity].
  assert (Hk : is_Some (lookupReply rs k)) by (rewrite E; eauto).
  apply Hdom in Hk. lia.
Qed.

Lemma ordered_initial n s :
  outOfOrder (parser_ s) = false -> writable s ->
  headReqid_ s = 0 -> blockedReplies_ s = ∅ ->
  ordered n (queued s) [] s.
Proof.
  intros Hooo Hw Hh Hb. unfold ordered. rewrite Hh, Hb. simpl.
  split; [exact Hooo|]. split; [exact Hw|]. split; [lia|].
  split; [intros k [? ?]; discriminate|]. split.
  { intros k. rewrite lookup_empty. destruct (decide (0 < k)); reflexivity. }
  split; [reflexivity|]. split; [intros k Hk; lia|].
  rewrite app_nil_r. reflexivity.
Qed.

Lemma replyLoop_drain bs : forall fuel s,
  writable s ->
  0 <= headReqid_ s ->
  headReqid_ s + Z.of_nat (length bs) + 1 < 2 ^ 64 ->
  (forall i b, bs !! i = Some b ->
     blockedReplies_ s !! (headReqid_ s + 1 + Z.of_nat i) = Some b) ->
  blockedReplies_ s !! (headReqid_ s + 1 + Z.of_nat (length bs)) = None ->
  (size (blockedReplies_ s) <= fuel)%nat ->
  exists s',
    replyLoop passive fuel s = Ok s' /\
    queued s' = queued s ++ bs /\
    headReqid_ s' = headReqid_ s + 1 + Z.of_nat (length bs) /\
    (forall k, blockedReplies_ s' !! k =
               if decide (headReqid_ s < k <= headReqid_ s + Z.of_nat (length bs))
               then None else blockedReplies_ s !! k).
Proof.
  induction bs as [|b bs IH]; intros fuel s Hw Hh Hlen Hrun Hgap Hsize.
  - simpl in *. rewrite Z.add_0_r in Hgap.
    assert (Hl : replyLoop passive fuel s
                 = Ok (set_headReqid_ (headReqid_ s + 1) s)).
    { destruct fuel; simpl; rewrite wrap64_small by lia; rewrite Hgap;
        reflexivity. }
    rewrite Hl. eexists. split; [reflexivity|]. simpl.
    rewrite app_nil_r. split; [reflexivity|]. split; [lia|].
    intros k. destruct (decide _); [lia | reflexivity].
  - pose proof (Hrun 0%nat b eq_refl) as H0. simpl in H0.
    rewrite Z.add_0_r in H0.
    destruct fuel as [|fuel].
    { assert (Hempty : blockedReplies_ s = ∅)
        by (apply map_size_empty_inv; lia).
      rewrite Hempty, lookup_empty in H0. discriminate. }
    simpl. simpl length in Hlen. rewrite wrap64_small by lia. rewrite H0.
    set (s1 := set_headReqid_ (headReqid_ s + 1) s).
    destruct (queueWrite_Ok b s1 Hw) as (s2 & H2 & Hw2 & Hq2 & Hh2 & Hb2 & _).
    rewrite H2. simpl bind.
    destruct (IH fuel
                (set_blockedReplies_
                   (delete (headReqid_ s2) (blockedReplies_ s2)) s2))
      as (s' & H' & Hq' & Hh' & Hb'); simpl; try assumption.
    + rewrite Hh2. simpl. lia.
    + rewrite Hh2. simpl. lia.
    + intros i b' Hi. rewrite Hh2, Hb2. simpl.
      rewrite lookup_delete_ne by lia.
      specialize (Hrun (S i) b' Hi).
      replace (headReqid_ s + 1 + 1 + Z.of_nat i)
        with (headReqid_ s + 1 + Z.of_nat (S i)) by lia. exact Hrun.
    + rewrite Hh2, Hb2. simpl. rewrite lookup_delete_ne by lia.
      replace (headReqid_ s + 1 + 1 + Z.of_nat (length bs))
        with (headReqid_ s + 1 + Z.of_nat (length (b :: bs)))
        by (simpl length; lia). exact Hgap.
    + rewrite Hh2, Hb2. simpl.
      rewrite map_size_delete_Some by (rewrite H0; eauto). lia.
    + exists s'. split; [exact H'|]. simpl in *.
      unfold queued in *. simpl in *. rewrite Hq', Hq2. simpl.
      rewrite <- app_assoc. split; [reflexivity|].
      rewrite Hh2 in *. simpl in *. split; [lia|].
      intros k. rewrite Hb', Hb2. simpl.
      destruct (decide (headReqid_ s + 1 < k <= headReqid_ s + 1 + Z.of_nat (length bs))),
        (decide (headReqid_ s < k <= headReqid_ s + Z.of_nat (S (length bs))));
        try reflexivity; try lia.
      * rewrite lookup_delete. destruct (decide (headReqid_ s + 1 = k));
          [reflexivity | lia].
      * apply lookup_delete_ne. lia.
Qed.

(** C1: in in-order mode a reply for [headReqid_] is passed to
    [queueWrite] at once, followed by the blocked replies of the ids right
    after it up to the first gap, which leave [blockedReplies_] while
    [headReqid_] moves past them; any other reply is stored in
    [blockedReplies_] under its id.  Hence, when the replies for the ids
    0, 1, ..., n-1 come in, in any order, [queueWrite] is passed the
    replies in id order. *)
Theorem replies_written_in_request_order :
  (forall s wb bs,
     outOfOrder (parser_ s) = false ->
     writable s ->
     0 <= headReqid_ s ->
     headReqid_ s + Z.of_nat (length bs) + 1 < 2 ^ 64 ->
     (forall i b, bs !! i = Some b ->
        blockedReplies_ s !! (headReqid_ s + 1 + Z.of_nat i) = Some b) ->
     blockedReplies_ s !! (headReqid_ s + 1 + Z.of_nat (length bs)) = None ->
     exists s',
       reply passive wb (headReqid_ s) s = Ok s' /\
       queued s' = queued s ++ wb :: bs /\
       headReqid_ s' = headReqid_ s + 1 + Z.of_nat (length bs) /\
       (forall k, blockedReplies_ s' !! k =
                  if decide (headReqid_ s < k
                             <= headReqid_ s + Z.of_nat (length bs))
                  then None else blockedReplies_ s !! k)) /\
  (forall env s wb reqid,
     outOfOrder (parser_ s) = false ->
     reqid <> headReqid_ s ->
     reply env wb reqid s =
       Ok (set_blockedReplies_ (emplace reqid wb (blockedReplies_ s)) s) /\
     (blockedReplies_ s !! reqid = None ->
      emplace reqid wb (blockedReplies_ s) !! reqid = Some wb)) /\
  (forall s rs n,
     outOfOrder (parser_ s) = false ->
     writable s ->
     headReqid_ s = 0 ->
     blockedReplies_ s = ∅ ->
     0 <= n < 2 ^ 64 ->
     map fst rs ≡ₚ seqZ 0 n ->
     exists s',
       run passive (replyCalls rs) s = Ok s' /\
       queued s' = queued s ++ map (replyFor rs) (seqZ 0 n) /\
       headReqid_ s' = n /\
       blockedReplies_ s' = ∅).
Proof.
  split; [|split].
  - intros s wb bs Hooo Hw Hh Hlen Hrun Hgap.
    unfold reply. rewrite Hooo, Z.eqb_refl.
    destruct (queueWrite_Ok wb s Hw) as (s1 & H1 & Hw1 & Hq1 & Hh1 & Hb1 & _).
    unfold andThen. rewrite H1. simpl bind.
    destruct (replyLoop_drain bs (size (blockedReplies_ s1)) s1)
      as (s' & H' & Hq' & Hh' & Hb'); try assumption.
    + rewrite Hh1. exact Hh.
    + rewrite Hh1. exact Hlen.
    + rewrite Hh1, Hb1. exact Hrun.
    + rewrite Hh1, Hb1. exact Hgap.
    + lia.
    + exists s'. split; [exact H'|]. rewrite Hq', Hq1, <- app_assoc.
      split; [reflexivity|]. rewrite Hh', Hh1. split; [reflexivity|].
      intros k. rewrite Hb', Hh1, Hb1. reflexivity.
  - intros env s wb reqid Hooo Hne. split.
    + unfold reply. rewrite Hooo.
      rewrite (proj2 (Z.eqb_neq _ _)) by exact Hne. reflexivity.
    + intros Hfresh. rewrite (emplace_fresh _ _ _ Hfresh).
      apply lookup_insert_eq.
  - intros s rs n Hooo Hw Hh Hb Hn Hperm.
    pose proof (ordered_initial n s Hooo Hw Hh Hb) as Hord.
    destruct (run_replies n (queued s) rs [] s ltac:(lia) Hord)
      as (s' & H' & Hord').
    + simpl. rewrite Hperm. apply NoDup_seqZ.
    + intros k Hk. rewrite Hperm in Hk. apply elem_of_seqZ in Hk. lia.
    + simpl in Hord'.
      destruct (ordered_complete n (queued s) rs s' ltac:(lia) Hord')
        as (Hh' & Hb' & Hq').
      { intros k Hk. rewrite Hperm. apply elem_of_seqZ. lia. }
      exists s'. repeat split; assumption.
Qed.

Lemma replies_written_in_request_order_witness :
  exists s',
    run passive (replyCalls sampleReplies) (sampleSession 0) = Ok s' /\
    queued s' = [Some sampleBufferA; Some sampleBufferB; Some sampleBufferC] /\
    headReqid_ s' = 3 /\
    blockedReplies_ s' = ∅.
Proof.
  destruct replies_written_in_request_order as (_ & _ & Htrace).
  destruct (Htrace (sampleSession 0) sampleReplies 3) as (s' & H & Hq & Hh & Hb).
  - reflexivity.
  - split; [eexists; split; reflexivity | intros _; discriminate].
  - reflexivity.
  - reflexivity.
  - lia.
  - change (2 :: 0 :: 1 :: [] ≡ₚ 0 :: 1 :: 2 :: []).
    apply perm_trans with (l' := [0; 2; 1]); [apply perm_swap|].
    apply perm_skip. apply perm_swap.
  - exists s'. split; [exact H|]. split; [exact Hq|]. split; assumption.
Defined.



(** ** Further properties of the session *)

(** X1: [resume(reason)] clears the reason's bit and re-installs the read
    callback exactly when no reason is left, the session is [STREAMING] and
    the transport is [good()]; otherwise it touches neither the transport
    nor the trace. *)
Theorem resume_reenables_reads r s s' :
  resume r s = Ok s' ->
  pauseState_ s' = Z.land (pauseState_ s) (not64 (reasonMask r)) /\
  ((pauseState_ s' = 0 /\ state_ s = STREAMING /\
    exists t, transport_ s = Some t /\ good t = true) ->
   events s' = events s ++ [EvSetReadCB true] /\
   exists t', transport_ s' = Some t' /\ readCB t' = true) /\
  (~ (pauseState_ s' = 0 /\ state_ s = STREAMING /\
      exists t, transport_ s = Some t /\ good t = true) ->
   events s' = events s /\ transport_ s' = transport_ s).
Proof.
  intros H. unfold resume, setReadCB in H. exec_facts; simpl;
    (split; [reflexivity|]); split.
  all: try (intros _; split; [reflexivity|]; eexists; split; reflexivity).
  all: try (intros _; split; [reflexivity|congruence]).
  all: try (intros Hn; exfalso; apply Hn; repeat split; try assumption;
            eexists; split; [reflexivity|assumption]).
  all: try (intros (_ & _ & t' & Ht & Hg); congruence).
  all: intros (Hz & Hst & _); exfalso;
    apply andb_false_iff in E as [E|E]; bool_hyps; congruence.
Qed.

Lemma resume_reenables_reads_witness :
  exists s',
    resume PAUSE_WRITE (samplePaused PAUSE_WRITE)
      = Ok s' /\
    pauseState_ s' = 0 /\
    events s' =
      events (samplePaused PAUSE_WRITE)
      ++ [EvSetReadCB true].
Proof.
  eexists (sampleSessionOf
             (resume PAUSE_WRITE
                (samplePaused PAUSE_WRITE))).
  assert (H : resume PAUSE_WRITE
                (samplePaused PAUSE_WRITE) =
              Ok (sampleSessionOf
                    (resume PAUSE_WRITE
                       (samplePaused PAUSE_WRITE))))
    by (vm_compute; reflexivity).
  split; [exact H|].
  destruct (resume_reenables_reads _ _ _ H) as (Hm & Hyes & _).
  split; [vm_compute; reflexivity|].
  apply Hyes. split; [vm_compute; reflexivity|].
  split; [vm_compute; reflexivity|].
  eexists. split; vm_compute; reflexivity.
Defined.

Lemma land_not64_other r r' p :
  r <> r' ->
  Z.land (Z.land p (not64 (reasonMask r))) (reasonMask r') =
  Z.land p (reasonMask r').
Proof.
  intros Hr. rewrite <- Z.land_assoc. f_equal.
  destruct r, r'; try congruence; vm_compute; reflexivity.
Qed.

Lemma land_lor_other r r' p :
  r <> r' ->
  Z.land (Z.lor p (reasonMask r)) (reasonMask r') = Z.land p (reasonMask r').
Proof.
  intros Hr. rewrite Z.land_lor_distr_l.
  replace (Z.land (reasonMask r) (reasonMask r')) with 0
    by (destruct r, r'; try congruence; reflexivity).
  apply Z.lor_0_r.
Qed.

(** X2: the pause reasons are independent: [pause(r)] and [resume(r)] leave
    the bit of every other reason as it was, and [resume(r)] does not
    re-enable reads while another reason is still set. *)
Theorem pause_reasons_independent r r' s s' :
  r <> r' ->
  pause r s = Ok s' \/ resume r s = Ok s' ->
  Z.land (pauseState_ s') (reasonMask r') =
    Z.land (pauseState_ s) (reasonMask r') /\
  (resume r s = Ok s' -> Z.land (pauseState_ s) (reasonMask r') <> 0 ->
   events s' = events s /\ transport_ s' = transport_ s).
Proof.
  intros Hr H. split.
  - destruct H as [H|H].
    + rewrite (pause_pauseState _ _ _ H). apply land_lor_other, Hr.
    + rewrite (resume_pauseState _ _ _ H). apply land_not64_other, Hr.
  - intros H' Hset.
    assert (Hnz : Z.land (pauseState_ s) (not64 (reasonMask r)) <> 0).
    { intros Hz. apply Hset.
      rewrite <- (land_not64_other r r' _ Hr), Hz. reflexivity. }
    unfold resume, setReadCB in H'. exec_facts; simpl; try congruence;
      split; reflexivity.
Qed.

Lemma pause_reasons_independent_witness :
  exists s',
    PAUSE_WRITE <> PAUSE_THROTTLED /\
    resume PAUSE_WRITE (samplePaused PAUSE_THROTTLED) = Ok s' /\
    Z.land (pauseState_ s') (reasonMask PAUSE_THROTTLED) =
      Z.land (pauseState_ (samplePaused PAUSE_THROTTLED))
        (reasonMask PAUSE_THROTTLED) /\
    events s' = events (samplePaused PAUSE_THROTTLED).
Proof.
  exists (sampleSessionOf (resume PAUSE_WRITE (samplePaused PAUSE_THROTTLED))).
  assert (H : resume PAUSE_WRITE (samplePaused PAUSE_THROTTLED) =
              Ok (sampleSessionOf
                    (resume PAUSE_WRITE (samplePaused PAUSE_THROTTLED))))
    by (vm_compute; reflexivity).
  assert (Hr : PAUSE_WRITE <> PAUSE_THROTTLED) by discriminate.
  split; [exact Hr|]. split; [exact H|].
  destruct (pause_reasons_independent PAUSE_WRITE PAUSE_THROTTLED _ _ Hr
              (or_intror H)) as [Hm Hev].
  split; [exact Hm|].
  apply Hev; [exact H|]. vm_compute. discriminate.
Defined.

Lemma counters_step env n c s s' :
  accounted n s -> 0 <= inFlight_ s <= n -> n + 1 < 2 ^ 64 ->
  isTransactionCall c = true ->
  exec env c s = Ok s' ->
  inFlight_ s' = inFlight_ s + flightDelta false c /\
  realRequestsInFlight_ s' = realRequestsInFlight_ s + flightDelta true c /\
  0 <= inFlight_ s' <= n + 1.
Proof.
  intros Ha Hi Hn Hc H.
  destruct Ha as (Hst & (t & Ht) & Hr & _).
  destruct c; try discriminate; simpl in H.
  - destruct (onTransactionStarted_spec isSubRequest s t Ht)
      as (s1 & H1 & Hin & Hre & _).
    rewrite H1 in H. injection H as <-.
    rewrite Hin, Hre. rewrite wrap64_small by lia.
    destruct isSubRequest; simpl; [lia|].
    rewrite wrap64_small by lia. lia.
  - rewrite onTransactionCompleted_streaming in H by exact Hst.
    destruct (onTransactionCompleted_spec _ _ _ H)
      as (Hpos & Hrpos & Hin & Hre & _).
    rewrite Hin, Hre. rewrite wrap64_small by lia.
    destruct isSubRequest; simpl; [lia|].
    specialize (Hrpos eq_refl). rewrite wrap64_small by lia. lia.
Qed.

(** X3: along every run of transaction calls from a new session (any
    collaborators, fewer than 2^64 calls), [inFlight_] is the number of
    transactions started minus the number completed, and
    [realRequestsInFlight_] the same count over the calls that are not
    sub-requests. *)
Theorem counters_are_started_minus_completed env cs :
  forall opts p fifo t s0 s,
    create opts p fifo t = Ok s0 ->
    forallb isTransactionCall cs = true ->
    Z.of_nat (length cs) < 2 ^ 64 ->
    run env cs s0 = Ok s ->
    inFlight_ s = netFlight false cs /\
    realRequestsInFlight_ s = netFlight true cs.
Proof.
  intros opts p fifo t s0 s Hc Hall Hlen Hrun.
  assert (Hgen : forall cs n s1 s2,
            accounted n s1 -> 0 <= inFlight_ s1 <= n ->
            forallb isTransactionCall cs = true ->
            n + Z.of_nat (length cs) < 2 ^ 64 ->
            run env cs s1 = Ok s2 ->
            inFlight_ s2 = inFlight_ s1 + netFlight false cs /\
            realRequestsInFlight_ s2 =
              realRequestsInFlight_ s1 + netFlight true cs).
  { clear. induction cs as [|c cs IH]; intros n s1 s2 Ha Hi Hall Hlen Hrun.
    - simpl in Hrun. injection Hrun as <-. unfold netFlight. simpl. lia.
    - simpl in Hall. apply andb_prop in Hall as [Hc Hall].
      simpl in Hrun. apply andThen_Ok in Hrun as (s1' & H1 & H2).
      rewrite length_cons in Hlen.
      destruct (counters_step env n c s1 s1' Ha Hi ltac:(lia) Hc H1)
        as (Hin & Hre & Hb).
      assert (Ha' : accounted (n + 1) s1').
      { destruct c; try discriminate; simpl in H1.
        - eapply accounted_started; eauto. lia.
        - eapply accounted_mono; [|eapply accounted_completed; eauto]; lia. }
      destruct (IH (n + 1) s1' s2 Ha' Hb Hall ltac:(lia) H2) as [Hin2 Hre2].
      unfold netFlight in *. simpl. lia. }
  pose proof (accounted_create _ _ _ _ _ Hc) as Ha.
  assert (Hz : inFlight_ s0 = 0 /\ realRequestsInFlight_ s0 = 0).
  { unfold create, newSession, setReadCB in Hc. exec_facts. split; reflexivity. }
  destruct Hz as [Hz Hz'].
  destruct (Hgen cs 0 s0 s Ha ltac:(lia) Hall ltac:(lia) Hrun) as [H1 H2].
  lia.
Qed.

Lemma counters_are_started_minus_completed_witness :
  exists s0 s,
    create (batchedOptions 2) asciiParser false sampleTransport = Ok s0 /\
    forallb isTransactionCall sampleTransactions = true /\
    Z.of_nat (length sampleTransactions) < 2 ^ 64 /\
    run passive sampleTransactions s0 = Ok s /\
    inFlight_ s = 2 /\ realRequestsInFlight_ s = 1.
Proof.
  exists (sampleSessionOf
            (create (batchedOptions 2) asciiParser false sampleTransport)).
  exists (sampleSessionOf
            (run passive sampleTransactions
               (sampleSessionOf
                  (create (batchedOptions 2) asciiParser false
                     sampleTransport)))).
  assert (Hc : create (batchedOptions 2) asciiParser false sampleTransport =
               Ok (sampleSessionOf
                     (create (batchedOptions 2) asciiParser false
                        sampleTransport))) by (vm_compute; reflexivity).
  assert (Hr : run passive sampleTransactions
                 (sampleSessionOf
                    (create (batchedOptions 2) asciiParser false
                       sampleTransport)) =
               Ok (sampleSessionOf
                     (run passive sampleTransactions
                        (sampleSessionOf
                           (create (batchedOptions 2) asciiParser false
                              sampleTransport)))))
    by (vm_compute; reflexivity).
  assert (Ha : forallb isTransactionCall sampleTransactions = true)
    by reflexivity.
  assert (Hl : Z.of_nat (length sampleTransactions) < 2 ^ 64)
    by (vm_compute; reflexivity).
  split; [exact Hc|]. split; [exact Ha|]. split; [exact Hl|].
  split; [exact Hr|].
  exact (counters_are_started_minus_completed passive sampleTransactions
           _ _ _ _ _ _ Hc Ha Hl Hr).
Defined.

(** X4: what [checkClosed] does when it does not close: with a
    transaction in flight it does nothing; with none in flight and a reply
    still staged in [pendingWrites_] the assertion fails; with none in
    flight, nothing staged and a state other than [CLOSING] it does
    nothing. *)
Theorem checkClosed_outcomes env s :
  (inFlight_ s <> 0 -> checkClosed env s = Ok s) /\
  (inFlight_ s = 0 -> pendingWrites_ s <> [] ->
   checkClosed env s = Fault (AssertFailed "pendingWrites_.empty()")) /\
  (inFlight_ s = 0 -> pendingWrites_ s = [] -> state_ s <> CLOSING ->
   checkClosed env s = Ok s).
Proof.
  rewrite checkClosed_unfold. repeat split.
  - intros H. apply Z.eqb_neq in H. rewrite H. reflexivity.
  - intros H Hp. rewrite H. simpl.
    rewrite bool_decide_eq_false_2 by exact Hp. reflexivity.
  - intros H Hp Hst. rewrite H. simpl.
    rewrite bool_decide_eq_true_2 by exact Hp.
    rewrite bool_decide_eq_false_2 by exact Hst. reflexivity.
Qed.

Lemma checkClosed_outcomes_witness :
  checkClosed passive sampleClosing = Ok sampleClosing /\
  checkClosed passive sampleStaged =
    Fault (AssertFailed "pendingWrites_.empty()") /\
  checkClosed passive (sampleSession 0) = Ok (sampleSession 0).
Proof.
  destruct (checkClosed_outcomes passive sampleClosing) as (H1 & _ & _).
  destruct (checkClosed_outcomes passive sampleStaged) as (_ & H2 & _).
  destruct (checkClosed_outcomes passive (sampleSession 0)) as (_ & _ & H3).
  split; [apply H1; vm_compute; discriminate|].
  split; [apply H2; [reflexivity | vm_compute; discriminate]|].
  apply H3; [reflexivity | reflexivity | vm_compute; discriminate].
Defined.


(** X6: while streaming, [typedRequestReady] fails its assertion when the
    parser is in-order; when it is out-of-order the context is built with
    [mc_op_unknown] and the parser's id and handed to the handler, and no
    field of the session changes: no id of [tailReqid_] is consumed. *)
Theorem typedRequestReady_keeps_parser_id :
  (forall env typeId reqBody reqid s,
     state_ s = STREAMING -> outOfOrder (parser_ s) = false ->
     typedRequestReady env typeId reqBody reqid s =
       Fault (AssertFailed "parser_.outOfOrder()")) /\
  (forall typeId reqBody reqid s,
     state_ s = STREAMING -> outOfOrder (parser_ s) = true ->
     typedRequestReady passive typeId reqBody reqid s =
       Ok (emitAll
             [EvCtxNew
                {| ctxOperation := mc_op_unknown; ctxReqid := reqid;
                   ctxNoreply := false; ctxParent := None;
                   ctxAsciiKey := None |};
              EvOnTypedRequest typeId reqBody
                {| ctxOperation := mc_op_unknown; ctxReqid := reqid;
                   ctxNoreply := false; ctxParent := None;
                   ctxAsciiKey := None |}]
             s)).
Proof.
  split.
  - intros env typeId reqBody reqid s Hst Ho. unfold typedRequestReady.
    rewrite bool_decide_eq_true_2 by exact Hst. simpl.
    unfold andThen, bind, assert. rewrite Ho. reflexivity.
  - intros typeId reqBody reqid s Hst Ho. unfold typedRequestReady.
    rewrite bool_decide_eq_true_2 by exact Hst. simpl.
    unfold_step. rewrite Ho. simpl. reflexivity.
Qed.

Lemma typedRequestReady_keeps_parser_id_witness :
  typedRequestReady passive 5 "body" 42 (sampleSession 0) =
    Fault (AssertFailed "parser_.outOfOrder()") /\
  exists s',
    typedRequestReady passive 5 "body" 42
      (newSession (batchedOptions 0) typedParser false sampleTransport)
      = Ok s' /\
    events s' =
      [EvCtxNew
         {| ctxOperation := mc_op_unknown; ctxReqid := 42;
            ctxNoreply := false; ctxParent := None; ctxAsciiKey := None |};
       EvOnTypedRequest 5 "body"
         {| ctxOperation := mc_op_unknown; ctxReqid := 42;
            ctxNoreply := false; ctxParent := None; ctxAsciiKey := None |}] /\
    tailReqid_ s' = 0.
Proof.
  destruct typedRequestReady_keeps_parser_id as [H1 H2].
  split.
  - apply H1; reflexivity.
  - eexists. split; [apply H2; reflexivity|]. split; reflexivity.
Defined.


(** X7: [ensureWriteBufs] answers [true] exactly when the write-buffer
    queue exists afterwards; an existing queue is left alone, so a second
    call changes nothing; when the queue's constructor rejects the protocol
    the answer is [false], the transport has been closed and no queue is
    allocated. *)
Theorem ensureWriteBufs_allocates_once env s b s' :
  ensureWriteBufs env s = Ok (b, s') ->
  (b = true <-> writeBufs_ s' <> None) /\
  (writeBufs_ s <> None -> s' = s) /\
  (b = true ->
   ensureWriteBufs env s' = Ok (true, s') /\
   events s' = events s /\ transport_ s' = transport_ s /\
   (writeBufs_ s = None -> writeBufs_ s' = Some [])) /\
  (b = false ->
   writeBufs_valid env (protocol (parser_ s)) = false /\
   events s' = events s ++ [EvTransportClose] /\
   exists t', transport_ s' = Some t' /\ good t' = false).
Proof.
  intros H. unfold ensureWriteBufs in H.
  destruct (writeBufs_ s) as [q|] eqn:Eq.
  - injection H as <- <-. rewrite Eq.
    repeat split; try congruence; try discriminate.
    unfold ensureWriteBufs. rewrite Eq. reflexivity.
  - destruct (writeBufs_valid env (protocol (parser_ s))) eqn:Ev.
    + injection H as <- <-. simpl.
      repeat split; try congruence; try discriminate.
    + destruct (transport_ s) as [t|] eqn:Et; [|discriminate].
      injection H as <- <-. simpl. rewrite Eq.
      repeat split; try congruence; try discriminate.
      eexists. split; reflexivity.
Qed.

Lemma ensureWriteBufs_allocates_once_witness :
  (exists s',
     ensureWriteBufs passive sampleCreated = Ok (true, s') /\
     writeBufs_ s' = Some [] /\
     ensureWriteBufs passive s' = Ok (true, s')) /\
  (exists s',
     ensureWriteBufs invalidProtocol sampleCreated = Ok (false, s') /\
     writeBufs_ s' = None /\
     events s' = events sampleCreated ++ [EvTransportClose]).
Proof.
  split.
  - exists (set_writeBufs_ (Some []) sampleCreated).
    assert (H : ensureWriteBufs passive sampleCreated =
                Ok (true, set_writeBufs_ (Some []) sampleCreated))
      by (vm_compute; reflexivity).
    destruct (ensureWriteBufs_allocates_once _ _ _ _ H) as (_ & _ & Hy & _).
    destruct (Hy eq_refl) as (Hagain & _ & _ & Hq).
    split; [exact H|]. split; [apply Hq; reflexivity | exact Hagain].
  - exists (sampleSessionOf
              (bind (ensureWriteBufs invalidProtocol sampleCreated)
                 (fun r => Ok r.2))).
    assert (H : ensureWriteBufs invalidProtocol sampleCreated =
                Ok (false,
                    sampleSessionOf
                      (bind (ensureWriteBufs invalidProtocol sampleCreated)
                         (fun r => Ok r.2))))
      by (vm_compute; reflexivity).
    destruct (ensureWriteBufs_allocates_once _ _ _ _ H) as (Hb & _ & _ & Hn).
    destruct (Hn eq_refl) as (_ & Hev & _).
    split; [exact H|]. split; [|exact Hev].
    destruct (writeBufs_ _) eqn:E; [|reflexivity].
    exfalso. assert (false = true); [|discriminate].
    apply Hb. discriminate.
Defined.

(** X8: with the write-buffer queue allocated, [completeWrite] passes its
    assertions exactly when, in single-write mode, the queue is not empty,
    and in batched mode, a batch is recorded whose count does not exceed
    the length of the queue. *)
Theorem completeWrite_succeeds_iff s q :
  writeBufs_ s = Some q ->
  ((exists s', completeWrite passive s = Ok s') <->
   if singleWrite (options_ s) then q <> []
   else exists count rest,
          writeBatches_ s = count :: rest /\
          (Z.to_nat count <= length q)%nat).
Proof.
  intros Hq. unfold completeWrite.
  destruct (singleWrite (options_ s)) eqn:Esw; simpl.
  - rewrite Hq. destruct q as [|wb q]; split.
    + intros [s' H]. discriminate.
    + intros H. congruence.
    + intros _. discriminate.
    + intros _. unfold_step. simpl. eexists; reflexivity.
  - destruct (writeBatches_ s) as [|count rest] eqn:Eb; simpl.
    + split; [intros [s' H]; discriminate|].
      intros (c & r & H & _). discriminate.
    + split.
      * intros [s' H]. exists count, rest. split; [reflexivity|].
        destruct (le_lt_dec (Z.to_nat count) (length q)) as [Hle|Hlt];
          [exact Hle|].
        rewrite (completeWriteLoop_short _ _ q) in H; [discriminate| |exact Hlt].
        simpl. exact Hq.
      * intros (c & r & H & Hle). injection H as <- <-.
        rewrite (completeWriteLoop_spec _ _ q); [eexists; reflexivity| |exact Hle].
        simpl. exact Hq.
Qed.

Lemma completeWrite_succeeds_iff_witness :
  writeBufs_ sampleSent = Some [sampleBufferA; sampleBufferB] /\
  (exists s', completeWrite passive sampleSent = Ok s') /\
  ~ (exists s', completeWrite passive (sampleSession 0) = Ok s').
Proof.
  split; [reflexivity|]. split.
  - apply (proj2 (completeWrite_succeeds_iff sampleSent
                    [sampleBufferA; sampleBufferB] eq_refl)).
    exists 2, []. split; [reflexivity|]. simpl. lia.
  - intros H.
    apply (proj1 (completeWrite_succeeds_iff (sampleSession 0) [] eq_refl))
      in H.
    destruct H as (c & r & H & _). discriminate.
Defined.

Lemma queueWrite_scheduled wb s s' :
  queueWrite passive wb s = Ok s' ->
  scheduledWhenPending s -> scheduledWhenPending s'.
Proof.
  intros H Hs. unfold scheduledWhenPending in *.
  unfold queueWrite, pause, setReadCB in H. exec_facts; simpl; auto.
Qed.

Lemma replyLoop_scheduled fuel : forall s s',
  replyLoop passive fuel s = Ok s' ->
  scheduledWhenPending s -> scheduledWhenPending s'.
Proof.
  induction fuel as [|fuel IH]; intros s s' H Hs; simpl in H.
  - destruct (blockedReplies_ s !! wrap64 (headReqid_ s + 1));
      [discriminate|]. injection H as <-. exact Hs.
  - destruct (blockedReplies_ s !! wrap64 (headReqid_ s + 1)) as [wb|];
      [|injection H as <-; exact Hs].
    destruct (queueWrite passive wb _) as [s1|] eqn:E1; [|discriminate].
    simpl in H. apply IH in H; [exact H|].
    apply queueWrite_scheduled in E1; [exact E1 | exact Hs].
Qed.

Lemma completeWriteLoop_pending count : forall s s',
  completeWriteLoop passive count s = Ok s' ->
  pendingWrites_ s' = pendingWrites_ s /\
  writeScheduled_ s' = writeScheduled_ s.
Proof.
  induction count as [|count IH]; intros s s' H; simpl in H.
  - injection H as <-. split; reflexivity.
  - destruct (writeBufs_ s) as [[|wb q]|]; try discriminate.
    unfold_step. simpl in H. apply IH in H. exact H.
Qed.

Lemma sendWritesLoop_pending pw : forall iovs count s iovs' count' s',
  sendWritesLoop pw iovs count s = Ok (iovs', count', s') ->
  pendingWrites_ s = pw ->
  pendingWrites_ s' = [] /\ writeScheduled_ s' = writeScheduled_ s.
Proof.
  induction pw as [|wb pw IH]; intros iovs count s iovs' count' s' H Hp;
    simpl in H.
  - injection H as <- <- <-. split; [exact Hp | reflexivity].
  - destruct (writeBufs_ s) as [q|]; [|discriminate].
    apply IH in H; [|reflexivity]. exact H.
Qed.

Lemma exec_scheduled c s s' :
  scheduledWhenPending s -> exec passive c s = Ok s' ->
  scheduledWhenPending s'.
Proof.
  intros Hs H. destruct c; unfold_methods_to_close; exec_facts;
    repeat match goal with
      | H : close passive _ = Ok _ |- _ =>
          apply close_closeFrame in H;
          destruct H as (_&_&_&_&_&_&_&_&?&_&_&?)
      | H : checkClosed passive _ = Ok _ |- _ =>
          apply checkClosed_closeFrame in H;
          destruct H as (_&_&_&_&_&_&_&_&?&_&_&?)
      | H : completeWriteLoop passive _ _ = Ok _ |- _ =>
          apply completeWriteLoop_pending in H; destruct H as [? ?]
      | H : sendWritesLoop _ _ _ _ = Ok _ |- _ =>
          let H' := fresh in
          pose proof (sendWritesLoop_pending _ _ _ _ _ _ _ H eq_refl) as H';
          clear H; destruct H' as [? ?]
      | H : replyLoop passive ?f ?x = Ok ?y |- _ =>
          pose proof (replyLoop_scheduled f x y H); clear H
      | H : queueWrite passive ?w ?x = Ok ?y |- _ =>
          pose proof (queueWrite_scheduled w x y H); clear H
      end;
    simpl in *; unfold scheduledWhenPending in *; simpl in *;
    try multiget_not_quit; try congruence; auto;
    repeat match goal with
      | H : pendingWrites_ ?x = _ |- context [pendingWrites_ ?x] =>
          rewrite H
      | H : writeScheduled_ ?x = _ |- context [writeScheduled_ ?x] =>
          rewrite H
      end;
    simpl; auto; try congruence.
Qed.

Lemma queueWrite_single wb s s' :
  queueWrite passive wb s = Ok s' ->
  singleWrite (options_ s) = true ->
  pendingWrites_ s' = pendingWrites_ s /\ options_ s' = options_ s.
Proof.
  intros H Hsw. unfold queueWrite, pause, setReadCB in H.
  exec_facts; simpl; try congruence; split; reflexivity.
Qed.

Lemma replyLoop_single fuel : forall s s',
  replyLoop passive fuel s = Ok s' ->
  singleWrite (options_ s) = true ->
  pendingWrites_ s' = pendingWrites_ s /\ options_ s' = options_ s.
Proof.
  induction fuel as [|fuel IH]; intros s s' H Hsw; simpl in H.
  - destruct (blockedReplies_ s !! wrap64 (headReqid_ s + 1));
      [discriminate|]. injection H as <-. split; reflexivity.
  - destruct (blockedReplies_ s !! wrap64 (headReqid_ s + 1)) as [wb|];
      [|injection H as <-; split; reflexivity].
    destruct (queueWrite passive wb _) as [s1|] eqn:E1; [|discriminate].
    simpl in H. apply queueWrite_single in E1 as [Hp Ho]; [|exact Hsw].
    simpl in Hp, Ho. apply IH in H as [Hp' Ho'];
      [|simpl; rewrite Ho; exact Hsw].
    simpl in Hp', Ho'. split; congruence.
Qed.

Lemma exec_single c s s' :
  singleWrite (options_ s) = true -> pendingWrites_ s = [] ->
  exec passive c s = Ok s' ->
  pendingWrites_ s' = [] /\ options_ s' = options_ s.
Proof.
  intros Hsw Hp H. destruct c; unfold_methods_to_close; exec_facts;
    repeat match goal with
      | H : close passive _ = Ok _ |- _ =>
          apply close_closeFrame in H;
          destruct H as (?&_&_&_&_&_&_&_&?&_&_&_)
      | H : checkClosed passive _ = Ok _ |- _ =>
          apply checkClosed_closeFrame in H;
          destruct H as (?&_&_&_&_&_&_&_&?&_&_&_)
      | H : completeWriteLoop passive ?n ?x = Ok ?y |- _ =>
          let H' := fresh in
          pose proof (completeWriteLoop_pending n x y H) as [H' _];
          apply completeWriteLoop_writeFrame in H;
          destruct H as (?&_)
      | H : replyLoop passive ?f ?x = Ok ?y |- _ =>
          pose proof (replyLoop_single f x y H); clear H
      | H : queueWrite passive ?w ?x = Ok ?y |- _ =>
          pose proof (queueWrite_single w x y H); clear H
      end;
    simpl in *;
    try multiget_not_quit;
    repeat match goal with
      | H : singleWrite (options_ ?x) = true -> _,
        H' : singleWrite (options_ ?x) = true |- _ =>
          specialize (H H'); destruct H as [? ?]
      | H : options_ ?x = _ |- _ => rewrite H in *
      | H : pendingWrites_ ?x = _ |- _ => rewrite H in *
      end;
    simpl in *; try (split; congruence); try (split; reflexivity);
    simplify_eq; simpl; split; congruence.
Qed.

(** X9: in every state reached from a new session, a reply staged in
    [pendingWrites_] has the loop callback scheduled ([writeScheduled_]),
    and in single-write mode nothing is ever staged. *)
Theorem loop_callback_scheduled_when_pending opts p fifo t s0 cs s :
  create opts p fifo t = Ok s0 ->
  run passive cs s0 = Ok s ->
  (pendingWrites_ s <> [] -> writeScheduled_ s = true) /\
  (singleWrite opts = true -> pendingWrites_ s = []).
Proof.
  intros Hc Hrun.
  assert (H0 : scheduledWhenPending s0 /\ options_ s0 = opts /\
               pendingWrites_ s0 = []).
  { unfold create, newSession, setReadCB in Hc. exec_facts.
    unfold scheduledWhenPending. simpl. repeat split. congruence. }
  destruct H0 as (H0 & Ho & Hp).
  split.
  - assert (Hgen : forall cs s1 s2,
              scheduledWhenPending s1 -> run passive cs s1 = Ok s2 ->
              scheduledWhenPending s2).
    { clear. induction cs as [|c cs IH]; intros s1 s2 H1 Hrun.
      - simpl in Hrun. injection Hrun as <-. exact H1.
      - simpl in Hrun. apply andThen_Ok in Hrun as (s1' & Hc & H2).
        apply (IH s1' s2); [|exact H2].
        eapply exec_scheduled; eassumption. }
    exact (Hgen cs s0 s H0 Hrun).
  - intros Hsw.
    assert (Hgen : forall cs s1 s2,
              singleWrite (options_ s1) = true -> pendingWrites_ s1 = [] ->
              run passive cs s1 = Ok s2 -> pendingWrites_ s2 = []).
    { clear. induction cs as [|c cs IH]; intros s1 s2 Hsw Hp Hrun.
      - simpl in Hrun. injection Hrun as <-. exact Hp.
      - simpl in Hrun. apply andThen_Ok in Hrun as (s1' & H1 & H2).
        destruct (exec_single c s1 s1' Hsw Hp H1) as [Hp' Ho'].
        apply (IH s1' s2); [rewrite Ho'; exact Hsw | exact Hp' | exact H2]. }
    apply (Hgen cs s0 s); [rewrite Ho; exact Hsw | exact Hp | exact Hrun].
Qed.

Lemma loop_callback_scheduled_when_pending_witness :
  exists s,
    create (batchedOptions 0) asciiParser false sampleTransport =
      Ok sampleCreated /\
    run passive sampleFirstReply sampleCreated = Ok s /\
    pendingWrites_ s = [sampleBufferA] /\
    writeScheduled_ s = true.
Proof.
  exists (sampleSessionOf (run passive sampleFirstReply sampleCreated)).
  assert (Hc : create (batchedOptions 0) asciiParser false sampleTransport =
               Ok sampleCreated) by (vm_compute; reflexivity).
  assert (Hr : run passive sampleFirstReply sampleCreated =
               Ok (sampleSessionOf
                     (run passive sampleFirstReply sampleCreated)))
    by (vm_compute; reflexivity).
  assert (Hp : pendingWrites_
                 (sampleSessionOf (run passive sampleFirstReply sampleCreated))
               = [sampleBufferA]) by (vm_compute; reflexivity).
  split; [exact Hc|]. split; [exact Hr|]. split; [exact Hp|].
  apply (loop_callback_scheduled_when_pending _ _ _ _ _ _ _ Hc Hr).
  rewrite Hp. discriminate.
Defined.

Lemma queueWrite_batched b s t :
  singleWrite (options_ s) = false ->
  transport_ s = Some t -> eventBase t = true ->
  queueWrite passive (Some b) s =
    Ok (if writeScheduled_ s then
          set_pendingWrites_ (pendingWrites_ s ++ [b])
            (emit (EvQueueWrite (Some b)) s)
        else
          set_writeScheduled_ true
            (emit EvRunInLoop
               (set_pendingWrites_ (pendingWrites_ s ++ [b])
                  (emit (EvQueueWrite (Some b)) s)))).
Proof.
  intros Hsw Ht He. unfold queueWrite. unfold_step. simpl.
  rewrite Hsw. simpl. destruct (writeScheduled_ s); simpl; [reflexivity|].
  rewrite Ht, He. reflexivity.
Qed.

Lemma queueAll_batched bs : forall s t,
  singleWrite (options_ s) = false ->
  transport_ s = Some t -> eventBase t = true ->
  exists s',
    queueAll passive bs s = Ok s' /\
    pendingWrites_ s' = pendingWrites_ s ++ bs /\
    writeScheduled_ s' = (if bs is [] then writeScheduled_ s else true) /\
    occurrences isRunInLoop s' =
      (occurrences isRunInLoop s +
       (if writeScheduled_ s then 0 else if bs is [] then 0 else 1))%nat /\
    queued s' = queued s ++ map Some bs /\
    options_ s' = options_ s /\ transport_ s' = transport_ s /\
    writeBufs_ s' = writeBufs_ s /\ writeBatches_ s' = writeBatches_ s /\
    debugFifo_ s' = debugFifo_ s.
Proof.
  induction bs as [|b bs IH]; intros s t Hsw Ht He.
  - exists s. simpl. unfold skip. rewrite ?app_nil_r.
    repeat split; try reflexivity. destruct (writeScheduled_ s); lia.
  - simpl. unfold andThen, bind.
    rewrite (queueWrite_batched b s t Hsw Ht He).
    destruct (writeScheduled_ s) eqn:Ews.
    + edestruct (IH (set_pendingWrites_ (pendingWrites_ s ++ [b])
                       (emit (EvQueueWrite (Some b)) s)) t)
        as (s' & H & Hp & Hw & Hn & Hq & Ho & Htr & Hb & Hba & Hf);
        [exact Hsw | exact Ht | exact He |].
      exists s'. split; [exact H|]. simpl in *.
      rewrite Hp, Hw, Hn, Hq, Ho, Htr, Hb, Hba, Hf, Ews.
      unfold occurrences, queued. simpl.
      rewrite List.filter_app, queuedOf_app, length_app. simpl.
      rewrite <- !app_assoc. simpl.
      repeat split; try reflexivity; destruct bs; reflexivity || lia.
    + edestruct (IH (set_writeScheduled_ true
                       (emit EvRunInLoop
                          (set_pendingWrites_ (pendingWrites_ s ++ [b])
                             (emit (EvQueueWrite (Some b)) s)))) t)
        as (s' & H & Hp & Hw & Hn & Hq & Ho & Htr & Hb & Hba & Hf);
        [exact Hsw | exact Ht | exact He |].
      exists s'. split; [exact H|]. simpl in *.
      rewrite Hp, Hw, Hn, Hq, Ho, Htr, Hb, Hba, Hf.
      unfold occurrences, queued. simpl.
      rewrite !List.filter_app, !queuedOf_app, !length_app. simpl.
      rewrite <- ?app_assoc. simpl. rewrite ?app_nil_r.
      repeat split; try reflexivity; destruct bs; reflexivity || lia.
Qed.

(** X10: in batched mode, queueing the buffers [b :: bs] on an idle session
    schedules the loop callback once; [sendWrites] then moves them, in
    order, into one batch of the write-buffer queue, and the completion
    retires exactly these buffers in the order they were queued, leaving
    every queue empty. *)
Theorem batched_write_round_trip b bs s t :
  singleWrite (options_ s) = false ->
  transport_ s = Some t -> eventBase t = true ->
  writeScheduled_ s = false -> pendingWrites_ s = [] ->
  writeBufs_ s = Some [] -> writeBatches_ s = [] ->
  Z.of_nat (length (b :: bs)) < 2 ^ 64 ->
  exists s1 s2 s3,
    queueAll passive (b :: bs) s = Ok s1 /\
    pendingWrites_ s1 = b :: bs /\ writeScheduled_ s1 = true /\
    occurrences isRunInLoop s1 = S (occurrences isRunInLoop s) /\
    sendWrites passive s1 = Ok s2 /\
    pendingWrites_ s2 = [] /\ writeScheduled_ s2 = false /\
    writeBufs_ s2 = Some (b :: bs) /\
    writeBatches_ s2 = [Z.of_nat (length (b :: bs))] /\
    completeWrite passive s2 = Ok s3 /\
    pendingWrites_ s3 = [] /\ writeBufs_ s3 = Some [] /\
    writeBatches_ s3 = [] /\
    events s3 =
      events s1
      ++ (if debugFifo_ s then [EvFifo Sent (wireIovs (b :: bs))] else [])
      ++ [EvWritev (wireIovs (b :: bs))]
      ++ map EvWriteBufPop (b :: bs).
Proof.
  intros Hsw Ht He Hws Hp Hq Hb Hlen.
  destruct (queueAll_batched (b :: bs) s t Hsw Ht He)
    as (s1 & H1 & Hp1 & Hw1 & Hn1 & _ & Ho1 & Ht1 & Hq1 & Hb1 & Hf1).
  rewrite Hp in Hp1. simpl in Hp1. rewrite Hws in Hn1.
  rewrite Hq in Hq1. rewrite Hb in Hb1. rewrite Ht in Ht1.
  destruct (sendWrites_batch s1 [] t Hq1 Ht1)
    as (s2 & H2 & Hp2 & Hq2 & Hb2 & Hw2 & Hev2).
  { rewrite Hp1. exact Hlen. }
  rewrite Hp1 in Hq2, Hb2, Hev2. rewrite Hb1 in Hb2. simpl in Hq2, Hb2.
  assert (Ho2 : options_ s2 = options_ s1).
  { clear -H2. unfold sendWrites in H2. exec_facts; loop_frames;
      simpl in *; congruence. }
  assert (Hp2' : pendingWrites_ s2 = []) by exact Hp2.
  destruct (completeWrite_batched s2 (Z.of_nat (length (b :: bs))) []
              (b :: bs))
    as (s3 & H3 & Hq3 & Hb3 & Hev3).
  { rewrite Ho2, Ho1. exact Hsw. }
  { exact Hb2. }
  { exact Hq2. }
  { lia. }
  rewrite Nat2Z.id in Hq3, Hev3.
  rewrite drop_all in Hq3. rewrite firstn_all in Hev3.
  assert (Hp3 : pendingWrites_ s3 = []).
  { unfold completeWrite in H3. rewrite Ho2, Ho1, Hsw, Hb2 in H3.
    simpl in H3. apply completeWriteLoop_pending in H3 as [H3 _].
    simpl in H3. congruence. }
  exists s1, s2, s3.
  split; [exact H1|]. split; [exact Hp1|]. split; [exact Hw1|].
  split; [rewrite Hn1; lia|]. split; [exact H2|].
  split; [exact Hp2|]. split; [exact Hw2|]. split; [exact Hq2|].
  split; [exact Hb2|]. split; [exact H3|]. split; [exact Hp3|].
  split; [exact Hq3|]. split; [exact Hb3|].
  rewrite Hev3, Hev2, Hf1, <- !app_assoc. reflexivity.
Qed.

Lemma batched_write_round_trip_witness :
  exists s1 s2 s3,
    queueAll passive [sampleBufferA; sampleBufferB] (sampleSession 0) = Ok s1 /\
    sendWrites passive s1 = Ok s2 /\
    completeWrite passive s2 = Ok s3 /\
    writeBufs_ s3 = Some [] /\ writeBatches_ s3 = [] /\
    events s3 =
      events s1
      ++ [EvWritev (wbIovs sampleBufferA);
          EvWriteBufPop sampleBufferA; EvWriteBufPop sampleBufferB].
Proof.
  destruct (batched_write_round_trip sampleBufferA [sampleBufferB]
              (sampleSession 0)
              {| readCB := true; good := true; eventBase := true |})
    as (s1 & s2 & s3 & H1 & _ & _ & _ & H2 & _ & _ & _ & _ & H3 & _ & Hq
        & Hb & Hev);
    try reflexivity.
  exists s1, s2, s3. repeat split; assumption.
Defined.

Lemma writeEvents_not_quiescence e :
  isWriteEvent e = true -> isQuiescence e = false.
Proof. destruct e; simpl; congruence. Qed.

Lemma completeWrite_quiet s s' :
  completeWrite passive s = Ok s' ->
  state_ s' = state_ s /\ pauseState_ s' = pauseState_ s /\
  transport_ s' = transport_ s /\
  occurrences isQuiescence s' = occurrences isQuiescence s.
Proof.
  intros H.
  assert (Hl : forall n s s', completeWriteLoop passive n s = Ok s' ->
            state_ s' = state_ s /\ pauseState_ s' = pauseState_ s /\
            transport_ s' = transport_ s /\
            occurrences isQuiescence s' = occurrences isQuiescence s).
  { clear. induction n as [|n IH]; intros s s' H; simpl in H.
    - injection H as <-. repeat split.
    - destruct (writeBufs_ s) as [[|wb q]|]; try discriminate.
      unfold_step. simpl in H. apply IH in H as (H1 & H2 & H3 & H4).
      simpl in *. repeat split; try assumption.
      rewrite H4. unfold occurrences. simpl.
      rewrite List.filter_app, length_app. simpl. lia. }
  unfold completeWrite in H.
  destruct (singleWrite (options_ s)).
  - unfold bind in H. cbv beta iota in H. apply Hl in H. exact H.
  - destruct (writeBatches_ s); [discriminate|].
    unfold bind in H. cbv beta iota in H. apply Hl in H. exact H.
Qed.

(** X11: [writeSuccess] calls [onWriteQuiescence] once and clears
    [PAUSE_WRITE] exactly when the completion leaves the write-buffer queue
    empty and the session is [STREAMING]; otherwise no callback is made and
    the pause mask and the transport are left alone. *)
Theorem writeSuccess_quiescence s s' :
  writeSuccess passive s = Ok s' ->
  (writeBufs_ s' = Some [] /\ state_ s = STREAMING ->
   occurrences isQuiescence s' = S (occurrences isQuiescence s) /\
   pauseState_ s' =
     Z.land (pauseState_ s) (not64 (reasonMask PAUSE_WRITE))) /\
  (~ (writeBufs_ s' = Some [] /\ state_ s = STREAMING) ->
   occurrences isQuiescence s' = occurrences isQuiescence s /\
   pauseState_ s' = pauseState_ s /\ transport_ s' = transport_ s).
Proof.
  intros H. unfold writeSuccess in H.
  apply andThen_Ok in H as (s1 & H1 & H).
  apply andThen_Ok in H as (s2 & H2 & H).
  unfold assert in H2.
  destruct (writeBufs_ s1) as [q|] eqn:Eq; [|discriminate].
  injection H2 as <-. rewrite Eq in H.
  apply completeWrite_quiet in H1 as (Hst & Hps & Htr & Hoc).
  destruct (match q with [] => true | _ => false end
            && bool_decide (state_ s1 = STREAMING)) eqn:Ec.
  - apply andb_prop in Ec as [Ee Es]. apply bool_decide_eq_true_1 in Es.
    destruct q; [|discriminate].
    simpl in H. unfold_step. simpl in H.
    pose proof (resume_pauseState _ _ _ H) as Hp.
    pose proof (resume_queues _ _ _ H) as [Hq _].
    assert (Hev : occurrences isQuiescence s' =
                  S (occurrences isQuiescence s)).
    { unfold resume, setReadCB in H. clear Hp Hq. exec_facts;
        unfold occurrences in *; simpl;
        rewrite ?List.filter_app, ?length_app; simpl; lia. }
    split.
    + intros _. split; [exact Hev|]. rewrite Hp. simpl. rewrite Hps.
      reflexivity.
    + intros Hn. exfalso. apply Hn. simpl in Hq. split; congruence.
  - injection H as <-. split.
    + intros [Hq' Hs]. rewrite Eq in Hq'. injection Hq' as ->.
      simpl in Ec. rewrite bool_decide_eq_true_2 in Ec by congruence.
      discriminate.
    + intros _. repeat split; assumption.
Qed.

Lemma writeSuccess_quiescence_witness :
  exists s',
    writeSuccess passive sampleSent = Ok s' /\
    writeBufs_ s' = Some [] /\ state_ sampleSent = STREAMING /\
    occurrences isQuiescence s' = S (occurrences isQuiescence sampleSent).
Proof.
  exists (sampleSessionOf (writeSuccess passive sampleSent)).
  assert (H : writeSuccess passive sampleSent =
              Ok (sampleSessionOf (writeSuccess passive sampleSent)))
    by (vm_compute; reflexivity).
  assert (Hq : writeBufs_ (sampleSessionOf (writeSuccess passive sampleSent))
               = Some []) by (vm_compute; reflexivity).
  split; [exact H|]. split; [exact Hq|]. split; [reflexivity|].
  destruct (writeSuccess_quiescence _ _ H) as [Hy _].
  apply Hy. split; [exact Hq | reflexivity].
Defined.

Lemma close_quiet s s' :
  close passive s = Ok s' ->
  occurrences isQuiescence s' = occurrences isQuiescence s.
Proof.
  intros H. unfold_methods. exec_facts; unfold occurrences; simpl;
    rewrite ?List.filter_app, ?length_app; simpl; lia.
Qed.

(** X12: [writeErr] retires the batch like [writeSuccess] and then closes:
    the session has left [STREAMING], [onWriteQuiescence] is not called and
    the pause mask is not touched. *)
Theorem writeErr_closes_without_quiescence s s' :
  writeErr passive s = Ok s' ->
  state_ s' <> STREAMING /\
  occurrences isQuiescence s' = occurrences isQuiescence s /\
  pauseState_ s' = pauseState_ s /\
  exists s1, completeWrite passive s = Ok s1 /\ close passive s1 = Ok s'.
Proof.
  intros H. unfold writeErr in H. apply andThen_Ok in H as (s1 & H1 & H2).
  pose proof (completeWrite_quiet _ _ H1) as (_ & Hps & _ & Hoc).
  pose proof (close_leaves_streaming _ _ H2) as Hst.
  pose proof (close_quiet _ _ H2) as Hoc2.
  pose proof (close_closeFrame _ _ H2) as (_ & _ & _ & Hps2 & _).
  split; [exact Hst|]. split; [congruence|]. split; [congruence|].
  exists s1. split; assumption.
Qed.

Lemma writeErr_closes_without_quiescence_witness :
  exists s',
    writeErr passive sampleSent = Ok s' /\
    state_ s' = CLOSED /\
    occurrences isQuiescence s' = occurrences isQuiescence sampleSent.
Proof.
  exists (sampleSessionOf (writeErr passive sampleSent)).
  assert (H : writeErr passive sampleSent =
              Ok (sampleSessionOf (writeErr passive sampleSent)))
    by (vm_compute; reflexivity).
  split; [exact H|]. split; [vm_compute; reflexivity|].
  apply (writeErr_closes_without_quiescence _ _ H).
Defined.

Lemma writeSuccess_unfold env s :
  writeSuccess env s =
    bind (completeWrite env s) (fun s1 =>
      match writeBufs_ s1 with
      | None => Fault (AssertFailed "writeBufs_ != nullptr")
      | Some q =>
          if match q with [] => true | _ => false end
             && bool_decide (state_ s1 = STREAMING)
          then (callIfSet EvOnWriteQuiescence (onWriteQuiescence_ env)
                >=> resume PAUSE_WRITE) s1
          else Ok s1
      end).
Proof.
  unfold writeSuccess, andThen, bind, assert.
  destruct (completeWrite env s) as [s1|]; [|reflexivity].
  cbv beta. destruct (writeBufs_ s1) as [[|]|] eqn:E; cbv beta iota;
    rewrite ?E; reflexivity.
Qed.

Lemma writeSuccess_passive_drained s s2 :
  completeWrite passive s = Ok s2 ->
  writeBufs_ s2 = Some [] -> state_ s2 = STREAMING ->
  writeSuccess passive s = resume PAUSE_WRITE (emit EvOnWriteQuiescence s2).
Proof.
  intros H Hq Hs. rewrite writeSuccess_unfold, H. unfold bind.
  rewrite Hq. rewrite bool_decide_eq_true_2 by exact Hs. reflexivity.
Qed.

Lemma resume_explicit r s t :
  transport_ s = Some t ->
  resume r s =
    Ok (if (Z.land (pauseState_ s) (not64 (reasonMask r)) =? 0)
           && bool_decide (state_ s = STREAMING) && good t
        then emit (EvSetReadCB true)
               (set_transport_
                  (Some {| readCB := true; good := good t;
                           eventBase := eventBase t |})
                  (set_pauseState_
                     (Z.land (pauseState_ s) (not64 (reasonMask r))) s))
        else set_pauseState_
               (Z.land (pauseState_ s) (not64 (reasonMask r))) s).
Proof.
  intros Ht. unfold resume, setReadCB, andThen, bind, modify.
  cbn [pauseState_ state_ transport_ set_pauseState_].
  destruct (Z.land (pauseState_ s) (not64 (reasonMask r)) =? 0);
    [|reflexivity].
  destruct (bool_decide (state_ s = STREAMING)); [|reflexivity].
  rewrite Ht. cbn [andb]. destruct (good t); reflexivity.
Qed.

Lemma queueWrite_single_explicit env b s t :
  singleWrite (options_ s) = true ->
  writeBufs_ s = Some [] -> transport_ s = Some t ->
  queueWrite env (Some b) s =
    bind (transport_writev env (wbIovs b)
            (emit (EvWritev (wbIovs b))
               (set_writeBufs_ (Some [b])
                  (emit (EvQueueWrite (Some b)) s))))
      (fun s1 =>
         bind (fifoWrite Sent (wbIovs b) s1) (fun s2 =>
           match writeBufs_ s2 with
           | None => Fault (NullDeref "writeBufs_")
           | Some [] => Ok s2
           | Some (_ :: _) => pause PAUSE_WRITE s2
           end)).
Proof.
  intros Hsw Hq Ht. unfold queueWrite, andThen, bind, modify, call.
  cbn [options_ writeBufs_ transport_ emit set_writeBufs_].
  rewrite Hsw, Hq, Ht. reflexivity.
Qed.



(** X14: in single-write mode over a transport whose [writev] completes
    before it returns, [queueWrite] finds the queue empty again and does
    not pause: reads are never switched off and quiescence is reported
    once. *)
Theorem single_write_completed_at_once b s t :
  singleWrite (options_ s) = true ->
  writeBufs_ s = Some [] -> transport_ s = Some t ->
  state_ s = STREAMING ->
  exists s',
    queueWrite syncWrites (Some b) s = Ok s' /\
    writeBufs_ s' = Some [] /\
    pauseState_ s' =
      Z.land (pauseState_ s) (not64 (reasonMask PAUSE_WRITE)) /\
    occurrences isReadDetach s' = occurrences isReadDetach s /\
    occurrences isQuiescence s' = S (occurrences isQuiescence s).
Proof.
  intros Hsw Hq Ht Hst.
  pose (s0 := emit (EvWritev (wbIovs b))
                (set_writeBufs_ (Some [b])
                   (emit (EvQueueWrite (Some b)) s))).
  assert (Hs0 : pauseState_ s0 = pauseState_ s /\ transport_ s0 = Some t /\
                writeBufs_ s0 = Some [b] /\ state_ s0 = STREAMING /\
                options_ s0 = options_ s /\ debugFifo_ s0 = debugFifo_ s /\
                events s0 =
                  events s ++ [EvQueueWrite (Some b); EvWritev (wbIovs b)]).
  { unfold s0. simpl. rewrite <- app_assoc. repeat split; assumption. }
  destruct Hs0 as (Hp0 & Ht0 & Hq0 & Hst0 & Ho0 & Hf0 & Hev0).
  assert (Ho0' : singleWrite (options_ s0) = true)
    by (rewrite Ho0; exact Hsw).
  destruct (completeWrite_single s0 b [] Ho0' Hq0)
    as (s2 & H2 & Hq2 & _ & Hev2).
  destruct (completeWrite_quiet _ _ H2) as (Hst2 & Hp2 & Ht2 & _).
  assert (Hf2 : debugFifo_ s2 = debugFifo_ s).
  { unfold completeWrite in H2. rewrite Ho0' in H2.
    unfold bind in H2. cbv beta iota in H2.
    apply completeWriteLoop_writeFrame in H2.
    destruct H2 as (_ & _ & Hf & _). congruence. }
  assert (Hs2 : state_ s2 = STREAMING) by congruence.
  assert (Ht2' : transport_ (emit EvOnWriteQuiescence s2) = Some t).
  { cbn [transport_ emit]. congruence. }
  pose (s3 := sampleSessionOf
                (resume PAUSE_WRITE (emit EvOnWriteQuiescence s2))).
  assert (H3 : resume PAUSE_WRITE (emit EvOnWriteQuiescence s2) = Ok s3).
  { unfold s3. rewrite (resume_explicit _ _ _ Ht2'). reflexivity. }
  assert (Hw : writeSuccess passive s0 = Ok s3).
  { rewrite (writeSuccess_passive_drained _ _ H2 Hq2 Hs2). exact H3. }
  pose proof (resume_pauseState _ _ _ H3) as Hp3.
  pose proof (resume_queues _ _ _ H3) as [Hq3 _].
  cbn [pauseState_ writeBufs_ emit] in Hp3, Hq3.
  assert (Hev3 : exists tl,
            events s3 = events s2 ++ EvOnWriteQuiescence :: tl /\
            (tl = [] \/ tl = [EvSetReadCB true]) /\
            debugFifo_ s3 = debugFifo_ s).
  { unfold s3. rewrite (resume_explicit _ _ _ Ht2').
    destruct (_ && _ && _); simpl; rewrite <- ?app_assoc; simpl;
      eexists; (split; [reflexivity|]); split; auto. }
  destruct Hev3 as (tl & Hev3 & Htl & Hf3).
  rewrite (queueWrite_single_explicit syncWrites b s t Hsw Hq Ht).
  simpl transport_writev. fold s0. rewrite Hw. unfold bind, fifoWrite.
  exists (if debugFifo_ s then emit (EvFifo Sent (wbIovs b)) s3 else s3).
  rewrite Hf3.
  destruct (debugFifo_ s) eqn:Ef;
    cbn [writeBufs_ pauseState_ emit]; rewrite Hq3, Hq2;
    (split; [reflexivity|]); (split; [reflexivity|]);
    (split; [rewrite Hp3, Hp2, Hp0; reflexivity|]);
    unfold occurrences; cbn [events emit];
    rewrite Hev3, Hev2, Hev0; rewrite !List.filter_app;
    (destruct Htl as [-> | ->]); simpl; rewrite ?app_nil_r, ?length_app;
    simpl; (split; lia).
Qed.

Lemma single_write_completed_at_once_witness :
  exists s',
    queueWrite syncWrites (Some sampleBufferA) sampleSingle = Ok s' /\
    writeBufs_ s' = Some [] /\ pauseState_ s' = 0 /\
    events s' =
      events sampleSingle
      ++ [EvQueueWrite (Some sampleBufferA); EvWritev (wbIovs sampleBufferA);
          EvWriteBufPop sampleBufferA; EvOnWriteQuiescence;
          EvSetReadCB true].
Proof.
  destruct (single_write_completed_at_once sampleBufferA sampleSingle
              {| readCB := true; good := true; eventBase := true |})
    as (s' & H & Hq & Hp & _); try reflexivity.
  assert (H' : queueWrite syncWrites (Some sampleBufferA) sampleSingle =
               Ok (sampleSessionOf
                     (queueWrite syncWrites (Some sampleBufferA)
                        sampleSingle))) by (vm_compute; reflexivity).
  assert (Es : s' = sampleSessionOf
                      (queueWrite syncWrites (Some sampleBufferA)
                         sampleSingle)) by congruence.
  exists s'. split; [exact H|]. split; [exact Hq|]. split; [exact Hp|].
  rewrite Es. vm_compute. reflexivity.
Defined.

#[local] Arguments dispatch : simpl never.

Lemma close_counts s s' :
  close passive s = Ok s' ->
  occurrences isCtxReply s' = occurrences isCtxReply s /\
  handlerCalls s' = handlerCalls s /\
  occurrences isCtxNew s' = occurrences isCtxNew s /\
  options_ s' = options_ s.
Proof.
  intros H. unfold_methods. exec_facts; unfold occurrences, handlerCalls;
    simpl; rewrite ?List.filter_app, ?length_app; simpl;
    rewrite ?app_nil_r; repeat split; try reflexivity; lia.
Qed.

Lemma dispatch_counts ctx req result s s' :
  dispatch passive ctx req result s = Ok s' ->
  occurrences isCtxReply s' =
    (occurrences isCtxReply s +
     if answeredBySession (options_ s) (ctxOperation ctx) result
     then 1 else 0)%nat /\
  length (handlerCalls s') =
    (length (handlerCalls s) +
     if answeredBySession (options_ s) (ctxOperation ctx) result
     then 0 else 1)%nat /\
  occurrences isCtxNew s' = occurrences isCtxNew s.
Proof.
  intros H. unfold dispatch, answeredBySession in *.
  destruct (bool_decide (result = mc_res_bad_key)); simpl in *.
  { unfold ctxReply in H. exec_facts. unfold occurrences, handlerCalls.
    simpl. rewrite ?List.filter_app, ?length_app. simpl.
    rewrite ?app_nil_r. repeat split; lia. }
  destruct (bool_decide (ctxOperation ctx = mc_op_version)
            && defaultVersionHandler (options_ s)); simpl in *.
  { unfold ctxReply in H. exec_facts. unfold occurrences, handlerCalls.
    simpl. rewrite ?List.filter_app, ?length_app. simpl.
    rewrite ?app_nil_r. repeat split; lia. }
  destruct (bool_decide (ctxOperation ctx = mc_op_quit)); simpl in *.
  { unfold ctxReply in H. apply andThen_Ok in H as (s1 & H1 & H2).
    apply close_counts in H2 as (Hr & Hh & Hn & _).
    rewrite Hr, Hh, Hn. clear Hr Hh Hn. exec_facts.
    unfold occurrences, handlerCalls.
    simpl. rewrite ?List.filter_app, ?length_app. simpl.
    rewrite ?app_nil_r. repeat split; lia. }
  destruct (bool_decide (ctxOperation ctx = mc_op_shutdown)); simpl in *.
  { unfold ctxReply in H. exec_facts. unfold occurrences, handlerCalls.
    simpl. rewrite ?List.filter_app, ?length_app. simpl.
    rewrite ?app_nil_r. repeat split; lia. }
  exec_facts. unfold occurrences, handlerCalls.
  simpl. rewrite ?List.filter_app, ?length_app. simpl.
  repeat split; lia.
Qed.

(** X15: every request delivered while streaming gets one context and is
    either answered by the session itself (bad key, the default version
    handler, quit, shutdown), with exactly one reply, or handed to the
    request handler exactly once, never both. *)
Theorem requestReady_replies_or_dispatches
    req operation reqid result noreply s s' :
  state_ s = STREAMING ->
  requestReady passive req operation reqid result noreply s = Ok s' ->
  occurrences isCtxNew s' = S (occurrences isCtxNew s) /\
  occurrences isCtxReply s' =
    (occurrences isCtxReply s +
     if answeredBySession (options_ s) operation result then 1 else 0)%nat /\
  length (handlerCalls s') =
    (length (handlerCalls s) +
     if answeredBySession (options_ s) operation result then 0 else 1)%nat.
Proof.
  intros Hst H. unfold requestReady in H.
  rewrite bool_decide_eq_true_2 in H by exact Hst. simpl in H.
  exec_facts;
    match goal with
    | H : dispatch passive _ _ _ _ = Ok _ |- _ =>
        apply dispatch_counts in H; destruct H as (Hr & Hh & Hn)
    end;
    rewrite ctxOperation_withAsciiKey in Hr, Hh; simpl in Hr, Hh, Hn;
    rewrite Hr, Hh, Hn; unfold occurrences, handlerCalls; simpl;
    rewrite ?List.filter_app, ?length_app; simpl;
    rewrite ?app_nil_r; repeat split; lia.
Qed.

Lemma requestReady_replies_or_dispatches_witness :
  exists s1 s2,
    requestReady passive {| reqKey := "a" |} mc_op_get 0 mc_res_ok false
      (sampleSession 0) = Ok s1 /\
    length (handlerCalls s1) = 1%nat /\ occurrences isCtxReply s1 = 0%nat /\
    requestReady passive {| reqKey := "" |} mc_op_version 0 mc_res_ok false
      (sampleSession 0) = Ok s2 /\
    length (handlerCalls s2) = 0%nat /\ occurrences isCtxReply s2 = 1%nat.
Proof.
  exists (sampleSessionOf
            (requestReady passive {| reqKey := "a" |} mc_op_get 0 mc_res_ok
               false (sampleSession 0))).
  exists (sampleSessionOf
            (requestReady passive {| reqKey := "" |} mc_op_version 0
               mc_res_ok false (sampleSession 0))).
  assert (H1 : requestReady passive {| reqKey := "a" |} mc_op_get 0
                 mc_res_ok false (sampleSession 0) =
               Ok (sampleSessionOf
                     (requestReady passive {| reqKey := "a" |} mc_op_get 0
                        mc_res_ok false (sampleSession 0))))
    by (vm_compute; reflexivity).
  assert (H2 : requestReady passive {| reqKey := "" |} mc_op_version 0
                 mc_res_ok false (sampleSession 0) =
               Ok (sampleSessionOf
                     (requestReady passive {| reqKey := "" |} mc_op_version 0
                        mc_res_ok false (sampleSession 0))))
    by (vm_compute; reflexivity).
  destruct (requestReady_replies_or_dispatches _ _ _ _ _ (sampleSession 0)
              _ eq_refl H1)
    as (_ & Hr1 & Hh1).
  destruct (requestReady_replies_or_dispatches _ _ _ _ _ (sampleSession 0)
              _ eq_refl H2)
    as (_ & Hr2 & Hh2).
  split; [exact H1|]. split; [exact Hh1|]. split; [exact Hr1|].
  split; [exact H2|]. split; [exact Hh2 | exact Hr2].
Defined.

(** X16: a request with result [mc_res_bad_key] is answered with
    [mc_res_bad_key] whatever its operation: the handler is not called,
    and even [quit] does not close the session. *)
Theorem bad_key_is_answered_by_the_session req operation reqid noreply s s' :
  state_ s = STREAMING ->
  requestReady passive req operation reqid mc_res_bad_key noreply s = Ok s' ->
  state_ s' = STREAMING /\
  handlerCalls s' = handlerCalls s /\
  occurrences isCloseStart s' = occurrences isCloseStart s /\
  exists pre id parent,
    events s' =
      events s ++ pre
      ++ [EvCtxNew
            {| ctxOperation := operation; ctxReqid := id;
               ctxNoreply := noreply; ctxParent := parent;
               ctxAsciiKey := None |};
          EvCtxReply
            {| ctxOperation := operation; ctxReqid := id;
               ctxNoreply := noreply; ctxParent := parent;
               ctxAsciiKey :=
                 if bool_decide (protocol (parser_ s) = mc_ascii_protocol)
                 then Some (reqKey req) else None |}
            {| replyResult := mc_res_bad_key; replyValue := None |}].
Proof.
  intros Hst H. unfold requestReady, dispatch, ctxReply, withAsciiKey in H.
  rewrite bool_decide_eq_true_2 in H by exact Hst. simpl in H.
  destruct (bool_decide (protocol (parser_ s) = mc_ascii_protocol)) eqn:Ep;
    exec_facts; unfold handlerCalls, occurrences; simpl;
    rewrite ?List.filter_app; simpl; rewrite ?app_nil_r;
    (split; [assumption|]); (split; [reflexivity|]);
    (split; [reflexivity|]);
    rewrite <- ?app_assoc; simpl;
    repeat match goal with
      | H : ?P |- context [bool_decide ?P] =>
          rewrite (bool_decide_eq_true_2 P H)
      | H : ~ ?P |- context [bool_decide ?P] =>
          rewrite (bool_decide_eq_false_2 P H)
      end.
  all: try (exists []; eexists; eexists; simpl; reflexivity).
  all: eexists [_]; eexists; eexists; simpl; reflexivity.
Qed.

Lemma bad_key_is_answered_by_the_session_witness :
  exists s',
    requestReady passive {| reqKey := "k" |} mc_op_quit 0 mc_res_bad_key true
      (sampleSession 0) = Ok s' /\
    state_ s' = STREAMING /\
    handlerCalls s' = handlerCalls (sampleSession 0) /\
    events s' =
      events (sampleSession 0)
      ++ [EvCtxNew
            {| ctxOperation := mc_op_quit; ctxReqid := 0;
               ctxNoreply := true; ctxParent := None;
               ctxAsciiKey := None |};
          EvCtxReply
            {| ctxOperation := mc_op_quit; ctxReqid := 0;
               ctxNoreply := true; ctxParent := None;
               ctxAsciiKey := Some "k" |}
            {| replyResult := mc_res_bad_key; replyValue := None |}].
Proof.
  exists (sampleSessionOf
            (requestReady passive {| reqKey := "k" |} mc_op_quit 0
               mc_res_bad_key true (sampleSession 0))).
  assert (H : requestReady passive {| reqKey := "k" |} mc_op_quit 0
                mc_res_bad_key true (sampleSession 0) =
              Ok (sampleSessionOf
                    (requestReady passive {| reqKey := "k" |} mc_op_quit 0
                       mc_res_bad_key true (sampleSession 0))))
    by (vm_compute; reflexivity).
  destruct (bad_key_is_answered_by_the_session _ _ _ _ (sampleSession 0) _
              eq_refl H) as (Hs & Hh & _).
  split; [exact H|]. split; [exact Hs|]. split; [exact Hh|].
  vm_compute. reflexivity.
Defined.

(** X17: for [shutdown] the session replies and then calls [onShutdown_]
    without testing it: with no callback installed the call of the empty
    [std::function] fails. *)
Theorem shutdown_needs_callback env ctx req result s s1 :
  result <> mc_res_bad_key ->
  ctxOperation ctx = mc_op_shutdown ->
  ctx_reply env ctx (mkReply mc_res_ok)
    (emit (EvCtxReply ctx (mkReply mc_res_ok)) s) = Ok s1 ->
  dispatch env ctx req result s =
    match onShutdown_ env with
    | Some f => f (emit EvOnShutdown s1)
    | None => Fault (BadFunctionCall "onShutdown_")
    end.
Proof.
  intros Hr Hop H. unfold dispatch, ctxReply, call, andThen, bind, modify.
  rewrite bool_decide_eq_false_2 by exact Hr.
  rewrite Hop. simpl. rewrite H.
  destruct (onShutdown_ env); reflexivity.
Qed.

Lemma shutdown_needs_callback_witness :
  dispatch noShutdownCallback (mkCtx mc_op_shutdown 0) {| reqKey := "" |}
    mc_res_ok (sampleSession 0) =
  Fault (BadFunctionCall "onShutdown_").
Proof.
  apply (shutdown_needs_callback noShutdownCallback (mkCtx mc_op_shutdown 0)
           {| reqKey := "" |} mc_res_ok (sampleSession 0)
           (emit (EvCtxReply (mkCtx mc_op_shutdown 0) (mkReply mc_res_ok))
              (sampleSession 0))).
  - discriminate.
  - reflexivity.
  - reflexivity.
Defined.

(** X18: with an out-of-order parser the replies are passed to [queueWrite]
    in the order they arrive, whatever their ids; [headReqid_] and
    [blockedReplies_] are not used. *)
Theorem out_of_order_replies_in_arrival_order rs :
  forall s,
    outOfOrder (parser_ s) = true -> writable s ->
    exists s',
      run passive (replyCalls rs) s = Ok s' /\
      queued s' = queued s ++ map snd rs /\
      headReqid_ s' = headReqid_ s /\
      blockedReplies_ s' = blockedReplies_ s.
Proof.
  induction rs as [|[id wb] rs IH]; intros s Ho Hw.
  - exists s. simpl. rewrite app_nil_r. repeat split.
  - destruct (queueWrite_Ok wb s Hw) as (s1 & H1 & Hw1 & Hq1 & Hh1 & Hb1 & Hp1).
    destruct (IH s1) as (s' & H' & Hq' & Hh' & Hb'); [congruence | exact Hw1 |].
    exists s'. simpl. unfold andThen, bind, reply. rewrite Ho, H1.
    split; [exact H'|]. rewrite Hq', Hq1, Hh', Hh1, Hb', Hb1, <- app_assoc.
    repeat split.
Qed.

Lemma out_of_order_replies_in_arrival_order_witness :
  exists s',
    run passive (replyCalls sampleReplies)
      (set_writeBufs_ (Some [])
         (newSession (batchedOptions 0) typedParser false sampleTransport))
      = Ok s' /\
    queued s' = [Some sampleBufferC; Some sampleBufferA; Some sampleBufferB].
Proof.
  destruct (out_of_order_replies_in_arrival_order sampleReplies
              (set_writeBufs_ (Some [])
                 (newSession (batchedOptions 0) typedParser false
                    sampleTransport)))
    as (s' & H & Hq & _).
  - reflexivity.
  - split; [eexists; split; reflexivity | discriminate].
  - exists s'. split; [exact H | exact Hq].
Defined.

(** X19: in in-order mode a second reply for an id that is already waiting
    in [blockedReplies_] is dropped: [emplace] keeps the first buffer and
    the session is unchanged. *)
Theorem reply_for_blocked_id_is_dropped env s wb wb' reqid :
  outOfOrder (parser_ s) = false ->
  reqid <> headReqid_ s ->
  blockedReplies_ s !! reqid = Some wb ->
  reply env wb' reqid s = Ok s.
Proof.
  intros Ho Hne Hb. unfold reply. rewrite Ho.
  apply Z.eqb_neq in Hne. rewrite Hne.
  rewrite (emplace_present _ _ _ _ Hb). destruct s; reflexivity.
Qed.

Lemma reply_for_blocked_id_is_dropped_witness :
  exists s,
    reply passive (Some sampleBufferC) 2 (sampleSession 0) = Ok s /\
    blockedReplies_ s !! 2 = Some (Some sampleBufferC) /\
    reply passive (Some sampleBufferA) 2 s = Ok s.
Proof.
  exists (sampleSessionOf
            (reply passive (Some sampleBufferC) 2 (sampleSession 0))).
  assert (Hb : blockedReplies_
                 (sampleSessionOf
                    (reply passive (Some sampleBufferC) 2 (sampleSession 0)))
               !! 2 = Some (Some sampleBufferC)) by (vm_compute; reflexivity).
  split; [vm_compute; reflexivity|]. split; [exact Hb|].
  apply (reply_for_blocked_id_is_dropped passive _ (Some sampleBufferC));
    [reflexivity | vm_compute; discriminate | exact Hb].
Defined.



Lemma ctxOf_app es1 es2 : ctxOf (es1 ++ es2) = ctxOf es1 ++ ctxOf es2.
Proof.
  induction es1 as [|e es1 IH]; [reflexivity|].
  destruct e; simpl; rewrite IH; reflexivity.
Qed.

Lemma multiOpOf_app es1 es2 :
  multiOpOf (es1 ++ es2) = multiOpOf es1 ++ multiOpOf es2.
Proof.
  induction es1 as [|e es1 IH]; [reflexivity|].
  destruct e; simpl; rewrite IH; reflexivity.
Qed.

Lemma requestReady_get_in_multiop key s m :
  state_ s = STREAMING -> outOfOrder (parser_ s) = false ->
  protocol (parser_ s) = mc_ascii_protocol ->
  currentMultiop_ s = Some m ->
  exists s',
    requestReady passive {| reqKey := key |} mc_op_get 0 mc_res_ok false s
      = Ok s' /\
    state_ s' = STREAMING /\ parser_ s' = parser_ s /\
    currentMultiop_ s' = Some m /\
    tailReqid_ s' = wrap64 (tailReqid_ s + 1) /\
    ctxOf (events s') =
      ctxOf (events s)
      ++ [{| ctxOperation := mc_op_get; ctxReqid := tailReqid_ s;
             ctxNoreply := false; ctxParent := Some m;
             ctxAsciiKey := None |}] /\
    multiOpOf (events s') = multiOpOf (events s).
Proof.
  intros Hst Ho Hp Hm. unfold requestReady, dispatch, ctxReply.
  unfold_step. rewrite bool_decide_eq_true_2 by exact Hst.
  repeat (progress (simpl;
                    rewrite ?Ho, ?Hp, ?Hm, ?ctxOperation_withAsciiKey)).
  eexists. split; [reflexivity|]. simpl.
  rewrite !ctxOf_app, !multiOpOf_app. simpl. rewrite !app_nil_r.
  repeat split; assumption.
Qed.

Lemma requestReady_get_opens_multiop key s :
  state_ s = STREAMING -> outOfOrder (parser_ s) = false ->
  protocol (parser_ s) = mc_ascii_protocol ->
  currentMultiop_ s = None ->
  exists s',
    requestReady passive {| reqKey := key |} mc_op_get 0 mc_res_ok false s
      = Ok s' /\
    state_ s' = STREAMING /\ parser_ s' = parser_ s /\
    currentMultiop_ s' = Some {| parentReqid := tailReqid_ s |} /\
    tailReqid_ s' = wrap64 (wrap64 (tailReqid_ s + 1) + 1) /\
    ctxOf (events s') =
      ctxOf (events s)
      ++ [{| ctxOperation := mc_op_get;
             ctxReqid := wrap64 (tailReqid_ s + 1);
             ctxNoreply := false;
             ctxParent := Some {| parentReqid := tailReqid_ s |};
             ctxAsciiKey := None |}] /\
    multiOpOf (events s') =
      multiOpOf (events s) ++ [EvMultiOpNew {| parentReqid := tailReqid_ s |}].
Proof.
  intros Hst Ho Hp Hm. unfold requestReady, dispatch, ctxReply.
  unfold_step. rewrite bool_decide_eq_true_2 by exact Hst.
  repeat (progress (simpl;
                    rewrite ?Ho, ?Hp, ?Hm, ?ctxOperation_withAsciiKey)).
  eexists. split; [reflexivity|]. simpl.
  rewrite !ctxOf_app, !multiOpOf_app. simpl. rewrite !app_nil_r.
  repeat split; assumption.
Qed.

Lemma getRequests_in_multiop keys : forall s m,
  state_ s = STREAMING -> outOfOrder (parser_ s) = false ->
  protocol (parser_ s) = mc_ascii_protocol ->
  currentMultiop_ s = Some m ->
  0 <= tailReqid_ s ->
  tailReqid_ s + Z.of_nat (length keys) < 2 ^ 64 ->
  exists s' new,
    run passive (map sampleGet keys) s = Ok s' /\
    state_ s' = STREAMING /\
    currentMultiop_ s' = Some m /\
    tailReqid_ s' = tailReqid_ s + Z.of_nat (length keys) /\
    ctxOf (events s') = ctxOf (events s) ++ new /\
    map ctxReqid new = seqZ (tailReqid_ s) (Z.of_nat (length keys)) /\
    Forall (fun ctx => ctxParent ctx = Some m) new /\
    multiOpOf (events s') = multiOpOf (events s).
Proof.
  induction keys as [|key keys IH]; intros s m Hst Ho Hp Hm Ht Hlen.
  - exists s, []. simpl. unfold skip. rewrite app_nil_r.
    repeat split; try assumption; try lia. constructor.
  - rewrite length_cons in Hlen.
    destruct (requestReady_get_in_multiop key s m Hst Ho Hp Hm)
      as (s1 & H1 & Hst1 & Hp1 & Hm1 & Ht1 & Hc1 & Hmo1).
    rewrite wrap64_small in Ht1 by lia.
    destruct (IH s1 m) as (s' & new & H' & Hst' & Hm' & Ht' & Hc' & Hid & Hpar
                           & Hmo');
      [exact Hst1 | rewrite Hp1; exact Ho | rewrite Hp1; exact Hp
      | exact Hm1 | lia | lia |].
    eexists s', (_ :: new). simpl. unfold andThen, bind.
    unfold sampleGet at 1. simpl. rewrite H1.
    split; [exact H'|]. split; [exact Hst'|]. split; [exact Hm'|].
    split; [lia|].
    split; [rewrite Hc', Hc1, <- app_assoc; reflexivity|].
    split.
    + simpl. rewrite Hid, Ht1.
      rewrite (seqZ_cons (tailReqid_ s)) by lia. simpl.
      f_equal. f_equal; lia.
    + split; [constructor; [reflexivity | exact Hpar] | congruence].
Qed.

(** X21: an ASCII multi-get of n keys followed by its end marker consumes
    n + 2 ids: the parent gets the first, the sub-requests the next n in
    order, each constructed under that parent, and the end is recorded on
    the last; afterwards no multi-op is active. *)
Theorem multiget_consumes_two_extra_ids key keys s :
  state_ s = STREAMING -> outOfOrder (parser_ s) = false ->
  protocol (parser_ s) = mc_ascii_protocol ->
  currentMultiop_ s = None ->
  0 <= tailReqid_ s ->
  tailReqid_ s + Z.of_nat (length (key :: keys)) + 2 < 2 ^ 64 ->
  exists s' new,
    run passive (multiGetCalls (key :: keys)) s = Ok s' /\
    state_ s' = STREAMING /\
    currentMultiop_ s' = None /\
    tailReqid_ s' = tailReqid_ s + Z.of_nat (length (key :: keys)) + 2 /\
    ctxOf (events s') = ctxOf (events s) ++ new /\
    map ctxReqid new =
      seqZ (tailReqid_ s + 1) (Z.of_nat (length (key :: keys))) /\
    Forall (fun ctx => ctxParent ctx =
                         Some {| parentReqid := tailReqid_ s |}) new /\
    multiOpOf (events s') =
      multiOpOf (events s)
      ++ [EvMultiOpNew {| parentReqid := tailReqid_ s |};
          EvRecordEnd {| parentReqid := tailReqid_ s |}
            (tailReqid_ s + Z.of_nat (length (key :: keys)) + 1)].
Proof.
  intros Hst Ho Hp Hm Ht Hlen. rewrite length_cons in *.
  destruct (requestReady_get_opens_multiop key s Hst Ho Hp Hm)
    as (s1 & H1 & Hst1 & Hp1 & Hm1 & Ht1 & Hc1 & Hmo1).
  rewrite (wrap64_small (tailReqid_ s + 1)) in Ht1, Hc1 by lia.
  rewrite wrap64_small in Ht1 by lia.
  destruct (getRequests_in_multiop keys s1 _ Hst1
              ltac:(rewrite Hp1; exact Ho) ltac:(rewrite Hp1; exact Hp) Hm1)
    as (s2 & new & H2 & Hst2 & Hm2 & Ht2 & Hc2 & Hid & Hpar & Hmo2);
    try lia.
  destruct (processMultiOpEnd_passive s2 _ Hm2)
    as (s3 & H3 & Hev3 & Ht3 & Hm3).
  assert (Hst3 : state_ s3 = STREAMING).
  { unfold processMultiOpEnd in H3. rewrite Hm2 in H3.
    unfold_step. simpl in H3. injection H3 as <-. exact Hst2. }
  rewrite wrap64_small in Ht3 by lia.
  eexists s3, (_ :: new). unfold multiGetCalls. rewrite run_app.
  cbn [map run].
  change (exec passive (sampleGet key)) with
    (requestReady passive {| reqKey := key |} mc_op_get 0 mc_res_ok false).
  unfold andThen, bind. rewrite H1, H2.
  cbn [exec]. unfold multiOpEnd, skip.
  rewrite bool_decide_eq_true_2 by exact Hst2. cbn [negb]. rewrite H3.
  split; [reflexivity|]. split; [exact Hst3|]. split; [exact Hm3|].
  split; [lia|].
  split; [rewrite Hev3, ctxOf_app, Hc2, Hc1; simpl;
          rewrite app_nil_r, <- app_assoc; reflexivity|].
  split.
  { simpl. rewrite Hid, Ht1.
    rewrite (seqZ_cons (tailReqid_ s + 1)) by lia. simpl.
    f_equal. f_equal. all: try lia. }
  split; [constructor; [reflexivity | exact Hpar]|].
  assert (Hend : tailReqid_ s2 =
                 tailReqid_ s + Z.of_nat (S (length keys)) + 1) by lia.
  rewrite Hev3, multiOpOf_app, Hmo2, Hmo1, <- app_assoc, Hend. reflexivity.
Qed.

Lemma multiget_consumes_two_extra_ids_witness :
  exists s',
    run passive (multiGetCalls ["a"; "b"]) (sampleSession 0) = Ok s' /\
    tailReqid_ s' = 4 /\
    map ctxReqid (ctxOf (events s')) = [1; 2] /\
    multiOpOf (events s') =
      [EvMultiOpNew {| parentReqid := 0 |};
       EvRecordEnd {| parentReqid := 0 |} 3].
Proof.
  destruct (multiget_consumes_two_extra_ids "a" ["b"] (sampleSession 0))
    as (s' & new & H & _ & _ & Ht & Hc & Hid & _ & Hmo);
    try reflexivity; try (vm_compute; discriminate).
  exists s'. split; [exact H|]. split; [exact Ht|].
  split; [rewrite Hc; exact Hid | exact Hmo].
Defined.

(** X22: [handshakeVer] accepts exactly when OpenSSL's own verification
    succeeded and either the certificate is not the peer's own (depth other
    than 0) or the peer address is found and the certificate's names are
    valid for it. *)
Theorem handshakeVer_accepts_iff preverifyOk ctx :
  handshakeVer preverifyOk ctx = Ok true <->
  preverifyOk = true /\ storeError ctx = X509_V_OK /\
  (errorDepth ctx <> 0 \/
   exists addr,
     peerAddress ctx = Some addr /\ validatePeerCertNames ctx addr = true).
Proof.
  unfold handshakeVer. destruct preverifyOk; simpl.
  - destruct (storeError ctx =? X509_V_OK) eqn:Ee; simpl.
    + apply Z.eqb_eq in Ee.
      destruct (errorDepth ctx =? 0) eqn:Ed; simpl.
      * apply Z.eqb_eq in Ed.
        destruct (peerAddress ctx) as [addr|] eqn:Ea.
        -- split.
           ++ intros H. injection H as H. repeat split; try assumption.
              right. exists addr. split; [reflexivity | exact H].
           ++ intros (_ & _ & [Hd | (a & Ha & Hv)]); [contradiction|].
              injection Ha as <-. rewrite Hv. reflexivity.
        -- split; [discriminate|].
           intros (_ & _ & [Hd | (a & Ha & Hv)]);
             [contradiction | discriminate].
      * apply Z.eqb_neq in Ed. split; [|reflexivity].
        intros _. repeat split; try assumption. left. exact Ed.
    + apply Z.eqb_neq in Ee. split; [discriminate|].
      intros (_ & He & _). contradiction.
  - split; [discriminate|]. intros (H & _). discriminate.
Qed.

Lemma handshakeVer_accepts_iff_witness :
  handshakeVer true sampleLeaf = Ok true /\
  handshakeVer false sampleLeaf = Ok false.
Proof.
  split.
  - apply (proj2 (handshakeVer_accepts_iff true sampleLeaf)).
    split; [reflexivity|]. split; [reflexivity|].
    right. exists "10.0.0.1"%string. split; reflexivity.
  - destruct (handshakeVer false sampleLeaf) as [[|]|] eqn:E.
    + apply (proj1 (handshakeVer_accepts_iff false sampleLeaf)) in E.
      destruct E as [E _]. discriminate.
    + reflexivity.
    + discriminate.
Defined.

(** X23: once a session has reached [CLOSED] its transport is released:
    [pause] dereferences the null [transport_], while [resume] only clears
    the reason's bit. *)
Theorem pause_after_close_faults opts p fifo t s0 cs s r :
  create opts p fifo t = Ok s0 ->
  run passive cs s0 = Ok s ->
  state_ s = CLOSED ->
  pause r s = Fault (NullDeref "transport_") /\
  resume r s =
    Ok (set_pauseState_
          (Z.land (pauseState_ s) (not64 (reasonMask r))) s).
Proof.
  intros Hc Hrun Hst.
  pose proof (lifecycle_run cs s0 s (lifecycle_create _ _ _ _ _ Hc) Hrun)
    as (Htr & _).
  apply Htr in Hst as Hnone. split.
  - unfold pause, setReadCB, andThen, bind, modify.
    cbn [transport_ set_pauseState_]. rewrite Hnone. reflexivity.
  - unfold resume, andThen, bind, modify.
    cbn [state_ pauseState_ set_pauseState_].
    rewrite (bool_decide_eq_false_2 (state_ s = STREAMING))
      by (rewrite Hst; discriminate).
    rewrite andb_false_r. reflexivity.
Qed.

Lemma pause_after_close_faults_witness :
  create (batchedOptions 0) asciiParser false sampleTransport =
    Ok sampleCreated /\
  run passive [CallClose] sampleCreated =
    Ok (sampleSessionOf (run passive [CallClose] sampleCreated)) /\
  pause PAUSE_WRITE (sampleSessionOf (run passive [CallClose] sampleCreated))
    = Fault (NullDeref "transport_").
Proof.
  assert (Hc : create (batchedOptions 0) asciiParser false sampleTransport =
               Ok sampleCreated) by (vm_compute; reflexivity).
  assert (Hr : run passive [CallClose] sampleCreated =
               Ok (sampleSessionOf (run passive [CallClose] sampleCreated)))
    by (vm_compute; reflexivity).
  split; [exact Hc|]. split; [exact Hr|].
  apply (pause_after_close_faults _ _ _ _ _ _ _ PAUSE_WRITE Hc Hr).
  vm_compute. reflexivity.
Defined.

(** X24: [onTransactionCompleted] fails its first assertion when nothing is
    in flight, and its second when the completed transaction is not a
    sub-request and no real request is in flight. *)
Theorem onTransactionCompleted_underflow_asserts env isSubRequest s :
  (inFlight_ s <= 0 ->
   onTransactionCompleted env isSubRequest s =
     Fault (AssertFailed "inFlight_ > 0")) /\
  (0 < inFlight_ s -> isSubRequest = false ->
   realRequestsInFlight_ s <= 0 ->
   onTransactionCompleted env isSubRequest s =
     Fault (AssertFailed "realRequestsInFlight_ > 0")).
Proof.
  split.
  - intros H. unfold onTransactionCompleted, andThen, bind, assert.
    apply Z.ltb_ge in H. rewrite H. reflexivity.
  - intros H -> Hr. unfold onTransactionCompleted, andThen, bind, assert,
      modify.
    apply Z.ltb_lt in H. rewrite H. cbn [negb realRequestsInFlight_
                                           set_inFlight_].
    apply Z.ltb_ge in Hr. rewrite Hr. reflexivity.
Qed.

Lemma onTransactionCompleted_underflow_asserts_witness :
  onTransactionCompleted passive false (sampleSession 0) =
    Fault (AssertFailed "inFlight_ > 0") /\
  onTransactionCompleted passive false sampleClosing =
    Fault (AssertFailed "realRequestsInFlight_ > 0").
Proof.
  destruct (onTransactionCompleted_underflow_asserts passive false
              (sampleSession 0)) as [H1 _].
  destruct (onTransactionCompleted_underflow_asserts passive false
              sampleClosing) as [_ H2].
  split.
  - apply H1. vm_compute. discriminate.
  - apply H2; [reflexivity | reflexivity | vm_compute; discriminate].
Defined.
